(** * ProximalPolicyOptimization.py: a shallow embedding and its properties

    The development follows the source file
    [student_submissions/.../ProximalPolicyOptimization.py]:

    - Python integers are [Z]; [//] is [Z.div], [%] is [Z.modulo] (both
      floor, as in Python for a positive divisor), [int(a / b)] is [Z.quot];
    - Python floats are idealised as exact rationals [Q] (rounding is not
      modelled); [float('-inf')] is [None] of an [option Q];
    - a stock is a numpy 2-D array, here a list of rows, cell [stock[y, x]];
    - exceptions are the [Raise] case of [result];
    - [self] is the record [Policy], threaded through the monad [M];
    - what lives in torch (networks, optimizers, sampling, the PPO epoch)
      and in numpy.random is a section variable. *)

From Stdlib Require Import String.
From Stdlib Require Import ZArith QArith List Bool Lia Lqa Permutation Sorted.
From Stdlib Require Import Recdef.
Import ListNotations.
Open Scope Z_scope.

Set Implicit Arguments.

(** ** Python exceptions and results *)

Inductive exn : Type :=
| IndexError
| KeyError
| ValueError
| AttributeError
| RuntimeError
| UnboundLocalError.

Inductive result (A : Type) : Type :=
| Ok (a : A)
| Raise (e : exn).

Arguments Ok {A} a.
Arguments Raise {A} e.

Definition rbind {A B} (r : result A) (k : A -> result B) : result B :=
  match r with
  | Ok a => k a
  | Raise e => Raise e
  end.

Declare Scope result_scope.
Delimit Scope result_scope with res.
Notation "x <- r ;; k" := (rbind r (fun x => k))
  (at level 61, r at next level, right associativity) : result_scope.

(** ** Python sequences *)

Definition len {A} (l : list A) : Z := Z.of_nat (length l).

(** [l[i]] for a Python list: negative indices count from the end. *)
Definition py_index {A} (l : list A) (i : Z) : result A :=
  let j := if i <? 0 then len l + i else i in
  if (0 <=? j) && (j <? len l) then
    match nth_error l (Z.to_nat j) with
    | Some a => Ok a
    | None => Raise IndexError
    end
  else Raise IndexError.

(** [range(lo, hi)] *)
Definition range (lo hi : Z) : list Z :=
  map (fun k => lo + Z.of_nat k) (seq 0 (Z.to_nat (hi - lo))).

(** [enumerate(l)], counting from [start] *)
Fixpoint enumerate_from {A} (start : Z) (l : list A) : list (Z * A) :=
  match l with
  | [] => []
  | a :: l' => (start, a) :: enumerate_from (start + 1) l'
  end.

Definition enumerate {A} (l : list A) : list (Z * A) := enumerate_from 0 l.

(** A [for] loop whose body may [return]: [inl r] leaves the loops with [r],
    [inr s] goes on with the loop state [s]. *)
Fixpoint for_each {A S R} (body : A -> S -> R + S) (l : list A) (s : S)
  : R + S :=
  match l with
  | [] => inr s
  | a :: l' =>
      match body a s with
      | inl r => inl r
      | inr s' => for_each body l' s'
      end
  end.

(** ** Data model *)

(** The occupancy grid: [-1] is an empty cell. *)
Definition Stock : Type := list (list Z).

Definition EMPTY : Z := -1.

Definition shape0 (stock : Stock) : Z := len stock.
Definition shape1 (stock : Stock) : Z := len (hd [] stock).

(** [stock[y, x]] for [0 <= y < shape0] and [0 <= x < shape1]; the default is
    never read by the code below, which checks the bounds first. *)
Definition cell (stock : Stock) (y x : Z) : Z :=
  nth (Z.to_nat x) (nth (Z.to_nat y) stock []) EMPTY.

(** The cell at row [y], column [x] of the grid, when there is one. *)
Definition cell_at (stock : Stock) (y x : Z) : option Z :=
  match nth_error stock (Z.to_nat y) with
  | Some row => nth_error row (Z.to_nat x)
  | None => None
  end.

Definition rectangular (stock : Stock) : Prop :=
  Forall (fun row => len row = shape1 stock) stock.

Record Product : Type := mkProduct {
  size : Z * Z;
  quantity : Z
}.

Record Observation : Type := mkObservation {
  stocks : list Stock;
  products : list Product
}.

Record Action : Type := mkAction {
  stock_idx : Z;
  action_size : Z * Z;
  position : Z * Z
}.

(** [np.sum(stock != -1)] *)
Definition used_cells (stock : Stock) : Z :=
  fold_right Z.add 0
    (map (fun row => len (filter (fun c => negb (c =? EMPTY)) row)) stock).

(** [np.any(stock != -1)] *)
Definition any_used (stock : Stock) : bool :=
  existsb (fun row => existsb (fun c => negb (c =? EMPTY)) row) stock.

(** [np.all(stock == -1)] *)
Definition all_empty (stock : Stock) : bool :=
  forallb (fun row => forallb (fun c => c =? EMPTY) row) stock.

(** ** The helpers of the base class [Policy] (policy.py) *)

(** Modelled from the spec: [_get_stock_size_] is a method of the base class
    in policy.py.  The spec (section 3) has width and height "derived from
    grid shape"; this file pairs the width with [x] and [stock.shape[1]], the
    height with [y] and [stock.shape[0]]. *)
Definition _get_stock_size_ (stock : Stock) : Z * Z :=
  (shape1 stock, shape0 stock).

(** Modelled from the spec: [_can_place_] is a method of the base class in
    policy.py.  The spec (section 4.1): "true iff rectangle fits within bounds
    and all covered cells are empty". *)
Definition _can_place_ (stock : Stock) (pos : Z * Z) (prod_size : Z * Z)
  : bool :=
  let '(pos_x, pos_y) := pos in
  let '(prod_w, prod_h) := prod_size in
  let '(stock_w, stock_h) := _get_stock_size_ stock in
  (0 <=? pos_x) && (0 <=? pos_y)
  && (pos_x + prod_w <=? stock_w) && (pos_y + prod_h <=? stock_h)
  && forallb (fun y =>
       forallb (fun x =>
                  match cell_at stock y x with
                  | Some c => c =? EMPTY
                  | None => false
                  end)
               (range pos_x (pos_x + prod_w)))
     (range pos_y (pos_y + prod_h)).

(** ** Structured placement *)

Definition area (p : Product) : Z := fst (size p) * snd (size p).

(** The loop of [_get_largest_product], also inlined at the head of
    [_get_structured_placement]: the state is
    [(largest_product, largest_area)]. *)
Definition largest_step (st : option Product * Z) (prod : Product)
  : option Product * Z :=
  if 0 <? quantity prod then
    if snd st <? area prod then (Some prod, area prod) else st
  else st.

Definition _get_largest_product (observation : Observation)
  : option Product :=
  fst (fold_left largest_step (products observation) (None, 0)).

Definition corners (stock_w stock_h : Z) (sz : Z * Z) : list (Z * Z) :=
  [ (0, 0);
    (stock_w - fst sz, 0);
    (0, stock_h - snd sz);
    (stock_w - fst sz, stock_h - snd sz) ].

Definition edges (stock_w stock_h : Z) (sz : Z * Z) : list (Z * Z) :=
  map (fun x => (x, 0)) (range 0 (stock_w - fst sz + 1))
  ++ map (fun y => (0, y)) (range 0 (stock_h - snd sz + 1))
  ++ map (fun x => (x, stock_h - snd sz)) (range 0 (stock_w - fst sz + 1))
  ++ map (fun y => (stock_w - fst sz, y)) (range 0 (stock_h - snd sz + 1)).

(** One iteration of the loop over the stocks: the corners when the stock is
    empty, then the edges; the first position that can be placed returns. *)
Definition structured_in_stock (sz : Z * Z) (entry : Z * Stock) (_ : unit)
  : Action + unit :=
  let '(idx, stock) := entry in
  let '(stock_w, stock_h) := _get_stock_size_ stock in
  let tried :=
    (if all_empty stock then corners stock_w stock_h sz else [])
    ++ edges stock_w stock_h sz in
  match find (fun pos => _can_place_ stock pos sz) tried with
  | Some pos => inl (mkAction idx sz pos)
  | None => inr tt
  end.

Definition _get_structured_placement (observation : Observation)
  : option Action :=
  match _get_largest_product observation with
  | None => None
  | Some largest_product =>
      match for_each (structured_in_stock (size largest_product))
                     (enumerate (stocks observation)) tt with
      | inl a => Some a
      | inr _ => None
      end
  end.

(** ** Geometry: the weighted count of occupied neighbours *)

(** [d in [0, size]] *)
Definition in_pair (d size_d : Z) : bool := (d =? 0) || (d =? size_d).

(** The body of the two nested loops of [_count_adjacent_pieces] at the
    offset [(dx, dy)]: what is added to [count]. *)
Definition adjacent_weight_at (stock : Stock) (pos_x pos_y size_w size_h : Z)
  (dx dy : Z) : Q :=
  if (0 <=? dx) && (dx <? size_w) && (0 <=? dy) && (dy <? size_h) then 0%Q
  else
    let check_x := pos_x + dx in
    let check_y := pos_y + dy in
    if (0 <=? check_x) && (check_x <? shape1 stock)
       && (0 <=? check_y) && (check_y <? shape0 stock) then
      if negb (cell stock check_y check_x =? EMPTY) then
        if in_pair dx size_w || in_pair dy size_h then 2%Q else (1 # 4)%Q
      else 0%Q
    else 0%Q.

Definition _count_adjacent_pieces (stock : Stock)
  (pos_x pos_y size_w size_h : Z) : Q :=
  let padding := 1 in
  fold_left (fun count dx =>
    fold_left (fun count dy =>
        (count + adjacent_weight_at stock pos_x pos_y size_w size_h dx dy)%Q)
      (range (- padding) (size_h + padding)) count)
    (range (- padding) (size_w + padding)) 0%Q.

(** ** The corrected filled ratio *)

(** The loop body of [calculate_filled_ratio]; the state is
    [(total_used_area, total_stock_area)]. *)
Definition filled_ratio_step (st : Z * Z) (stock : Stock) : Z * Z :=
  let '(total_used_area, total_stock_area) := st in
  if any_used stock then
    let '(stock_w, stock_h) := _get_stock_size_ stock in
    let stock_area := stock_w * stock_h in
    let used_area := used_cells stock in
    (total_used_area + used_area, total_stock_area + stock_area)
  else st.

Definition calculate_filled_ratio (observation : Observation) : Q :=
  let '(total_used_area, total_stock_area) :=
    fold_left filled_ratio_step (stocks observation) (0, 0) in
  if 0 <? total_stock_area
  then (inject_Z total_used_area / inject_Z total_stock_area)%Q
  else 0%Q.

(** ** Generalised advantage estimation *)

Definition gamma : Q := (99 # 100)%Q.
Definition gae_lambda : Q := (95 # 100)%Q.

(** A Python [bool] (or a 0/1 tensor entry) used as a number. *)
Definition of_bool (b : bool) : Q := if b then 1%Q else 0%Q.

(** [seq[t]] for [t] drawn from a [range]: never negative. *)
Definition get {A} (l : list A) (t : nat) : result A :=
  match nth_error l t with
  | Some a => Ok a
  | None => Raise IndexError
  end.

Fixpoint for_result {A S} (body : A -> S -> result S) (l : list A) (s : S)
  : result S :=
  match l with
  | [] => Ok s
  | a :: l' => rbind (body a s) (for_result body l')
  end.

(** The [delta] and the new [gae] of one step, from the numbers read. *)
Definition gae_update (reward next_value value : Q) (done : bool) (gae : Q)
  : Q :=
  let delta :=
    (reward + gamma * next_value * (1 - of_bool done) - value)%Q in
  (delta + gamma * gae_lambda * (1 - of_bool done) * gae)%Q.

(** The loop body of [compute_gae] at index [t]; the state is
    [(advantages, gae)], and [advantages.insert(0, gae)] is a cons. *)
Definition gae_step (rewards values : list Q) (dones : list bool) (t : nat)
  (st : list Q * Q) : result (list Q * Q) :=
  let '(advantages, gae) := st in
  (next_value <-
     (if Nat.eqb t (length rewards - 1) then Ok 0%Q else get values (t + 1)) ;;
   reward <- get rewards t ;;
   done <- get dones t ;;
   value <- get values t ;;
   let gae' := gae_update reward next_value value done gae in
   Ok (gae' :: advantages, gae'))%res.

Definition compute_gae (rewards values : list Q) (dones : list bool)
  : result (list Q) :=
  (st <- for_result (gae_step rewards values dones)
                    (rev (seq 0 (length rewards))) ([], 0%Q) ;;
   Ok (fst st))%res.

(** ** The running state normalizer *)

Definition qsum (l : list Q) : Q := fold_right Qplus 0%Q l.

(** [state.mean()]: one number, the mean over all entries of the tensor. *)
Definition tensor_mean (state : list Q) : Q :=
  (qsum state / inject_Z (len state))%Q.

(** [0.99 * old + 0.01 * scalar], broadcast over the entries of [old]. *)
Definition decay (old : list Q) (scalar : Q) : list Q :=
  map (fun o => ((99 # 100) * o + (1 # 100) * scalar)%Q) old.

(** The new [self.state_mean] of [update_state_normalizer]. *)
Definition next_state_mean (state_mean state : list Q) : list Q :=
  decay state_mean (tensor_mean state).

(** ** Placement strategies that rank candidates by a float score *)

(** [score > best] where [best] starts at [float('-inf')]. *)
Definition better (score : Q) (best : option Q) : bool :=
  match best with
  | None => true
  | Some b => negb (Qle_bool score b)
  end.

Definition size_eqb (a b : Z * Z) : bool :=
  (fst a =? fst b) && (snd a =? snd b).

Definition rotated (sz : Z * Z) : Z * Z := (snd sz, fst sz).

(** [sorted(..., key=area, reverse=True)]: stable, largest area first. *)
Fixpoint insert_by_area (p : Product) (l : list Product) : list Product :=
  match l with
  | [] => [p]
  | q :: l' =>
      if area p <? area q then q :: insert_by_area p l' else p :: q :: l'
  end.

Definition sorted_by_area (l : list Product) : list Product :=
  fold_right insert_by_area [] l.

Definition max_attempts : Z := 1000.

(** The local variables of [_get_greedy_action]; [tests] is a ghost counter
    of the calls of [_can_place_]. *)
Record GreedyState : Type := mkGreedy {
  best_action : option Action;
  best_score : option Q;
  attempts : Z;
  tests : nat
}.

Section Strategies.

(** The float-valued heuristics [evaluate_placement_pattern] and
    [_calculate_placement_score] (the latter raises 2.0 to a fractional
    power) are taken as given: any functions with finite values. *)
Variable evaluate_placement_pattern : Stock -> Z -> Z -> Z -> Z -> Q.
Variable _calculate_placement_score :
  Stock -> Z -> Z -> Z -> Z -> Z -> Z -> Q.

(** [randint k high] is what the [k]-th call of numpy's generator returns
    for [np.random.randint(0, high)] when [0 < high]. *)
Variable randint : nat -> Z -> Z.

(** *** Greedy search *)

(** The body of the innermost loop, at position [(x, y)]. *)
Definition greedy_position (prod : Product) (prod_size : Z * Z)
  (stock_idx : Z) (stock : Stock) (stock_w stock_h : Z) (y x : Z)
  (st : GreedyState) : GreedyState + GreedyState :=
  let attempts' := attempts st + 1 in
  if max_attempts <=? attempts' then
    inl (mkGreedy (best_action st) (best_score st) attempts' (tests st))
  else
    let tests' := S (tests st) in
    if _can_place_ stock (x, y) prod_size then
      let score :=
        _calculate_placement_score stock x y (fst prod_size) (snd prod_size)
                                   stock_w stock_h in
      let score :=
        if negb (size_eqb prod_size (size prod)) then
          if negb (Qle_bool score 0) then (score * (105 # 100))%Q else score
        else score in
      if better score (best_score st) then
        inr (mkGreedy (Some (mkAction stock_idx prod_size (x, y)))
                      (Some score) attempts' tests')
      else inr (mkGreedy (best_action st) (best_score st) attempts' tests')
    else inr (mkGreedy (best_action st) (best_score st) attempts' tests').

(** The body of the loop over the stocks. *)
Definition greedy_stock (prod : Product) (prod_size : Z * Z)
  (entry : Z * Stock) (st : GreedyState) : GreedyState + GreedyState :=
  let '(stock_idx, stock) := entry in
  if max_attempts <=? attempts st then inl st
  else
    let '(stock_w, stock_h) := _get_stock_size_ stock in
    if (stock_w <? fst prod_size) || (stock_h <? snd prod_size) then inr st
    else
      for_each (fun y =>
          for_each (greedy_position prod prod_size stock_idx stock
                                    stock_w stock_h y)
                   (range 0 (stock_w - fst prod_size + 1)))
        (range 0 (stock_h - snd prod_size + 1)) st.

Definition orientations (prod : Product) : list (Z * Z) :=
  [size prod; rotated (size prod)].

Definition greedy_product (observation : Observation) (prod : Product)
  : GreedyState -> GreedyState + GreedyState :=
  for_each (fun prod_size =>
      for_each (greedy_stock prod prod_size)
               (enumerate (stocks observation)))
    (orientations prod).

Definition greedy_run (observation : Observation) : GreedyState :=
  let start := mkGreedy None None 0 0 in
  let prods :=
    sorted_by_area
      (filter (fun prod => 0 <? quantity prod) (products observation)) in
  match prods with
  | [] => start
  | _ =>
      match for_each (greedy_product observation) prods start with
      | inl st => st
      | inr st => st
      end
  end.

Definition _get_greedy_action (observation : Observation) : option Action :=
  best_action (greedy_run observation).

(** *** Random fallback *)

(** One of the ten trials; the loop state is the number of draws made. *)
Definition random_trial (stock_idx : Z) (stock : Stock)
  (stock_w stock_h : Z) (prod_size : Z * Z) (_ : Z) (draws : nat)
  : (result (option Action) * nat) + nat :=
  let '(prod_w, prod_h) := prod_size in
  if stock_w - prod_w + 1 <=? 0 then inl (Raise ValueError, draws)
  else
    let pos_x := randint draws (stock_w - prod_w + 1) in
    if stock_h - prod_h + 1 <=? 0 then inl (Raise ValueError, S draws)
    else
      let pos_y := randint (S draws) (stock_h - prod_h + 1) in
      if _can_place_ stock (pos_x, pos_y) (prod_w, prod_h) then
        inl (Ok (Some (mkAction stock_idx (prod_w, prod_h) (pos_x, pos_y))),
             S (S draws))
      else inr (S (S draws)).

Definition random_product (allow_rotation : bool) (stock_idx : Z)
  (stock : Stock) (stock_w stock_h : Z) (prod : Product) (draws : nat)
  : (result (option Action) * nat) + nat :=
  if 0 <? quantity prod then
    for_each (fun prod_size =>
        for_each (random_trial stock_idx stock stock_w stock_h prod_size)
                 (range 0 10))
      (size prod :: if allow_rotation then [rotated (size prod)] else [])
      draws
  else inr draws.

Definition _get_random_valid_action (observation : Observation)
  (allow_rotation : bool) (draws : nat) : result (option Action) * nat :=
  match
    for_each (fun entry : Z * Stock =>
        let '(stock_idx, stock) := entry in
        let '(stock_w, stock_h) := _get_stock_size_ stock in
        for_each (random_product allow_rotation stock_idx stock
                                 stock_w stock_h)
                 (products observation))
      (enumerate (stocks observation)) draws
  with
  | inl r => r
  | inr draws' => (Ok None, draws')
  end.

(** *** Decoding a discrete action *)

(** The body of the loop over the two orientations; the state is
    [(best_action, best_pattern_score)]. *)
Definition convert_orientation (stock_idx : Z) (stock : Stock)
  (stock_w stock_h pos_x pos_y : Z) (prod : Product)
  (st : option Action * option Q) (prod_size : Z * Z)
  : option Action * option Q :=
  let scaled_x :=
    Z.min (Z.quot (pos_x * stock_w) 5) (stock_w - fst prod_size) in
  let scaled_y :=
    Z.min (Z.quot (pos_y * stock_h) 5) (stock_h - snd prod_size) in
  if _can_place_ stock (scaled_x, scaled_y) prod_size then
    let pattern_score :=
      evaluate_placement_pattern stock scaled_x scaled_y
                                 (fst prod_size) (snd prod_size) in
    let pattern_score :=
      if negb (size_eqb prod_size (size prod))
      then (pattern_score * (11 # 10))%Q else pattern_score in
    if better pattern_score (snd st) then
      (Some (mkAction stock_idx prod_size (scaled_x, scaled_y)),
       Some pattern_score)
    else st
  else st.

Definition convert_product (observation : Observation)
  (stock_idx pos_x pos_y : Z) (prod : Product)
  (st : option Action * option Q) : result (option Action * option Q) :=
  if 0 <? quantity prod then
    (stock <- py_index (stocks observation) stock_idx ;;
     let '(stock_w, stock_h) := _get_stock_size_ stock in
     Ok (fold_left (convert_orientation stock_idx stock stock_w stock_h
                                        pos_x pos_y prod)
                   (orientations prod) st))%res
  else Ok st.

Definition convert_action (action_idx : Z) (observation : Observation)
  (draws : nat) : result (option Action) * nat :=
  let max_stocks := len (stocks observation) in
  let is_rotated := max_stocks * 25 <=? action_idx in
  let action_idx :=
    if is_rotated then action_idx - max_stocks * 25 else action_idx in
  let stock_idx := Z.min (action_idx / 25) (max_stocks - 1) in
  let position := action_idx mod 25 in
  let pos_x := position / 5 in
  let pos_y := position mod 5 in
  match for_result (convert_product observation stock_idx pos_x pos_y)
                   (products observation) (None, None) with
  | Raise e => (Raise e, draws)
  | Ok (Some best, _) => (Ok (Some best), draws)
  | Ok (None, _) => _get_random_valid_action observation true draws
  end.

End Strategies.

(** ** Choosing the stock the actor is biased towards *)

Definition Qlt_bool (a b : Q) : bool := negb (Qle_bool b a).

(** The loop over [partially_filled_stocks]; the state is
    [(best_stock_idx, best_score)]. *)
Definition best_partial_step (st : option Z * option Q) (entry : Z * Stock)
  : option Z * option Q :=
  let '(idx, stock) := entry in
  let '(stock_w, stock_h) := _get_stock_size_ stock in
  let utilization :=
    (inject_Z (used_cells stock) / inject_Z (stock_w * stock_h))%Q in
  if Qlt_bool utilization (8 # 10) then
    let score := (100 + ((8 # 10) - utilization) * 50)%Q in
    if better score (snd st) then (Some idx, Some score) else st
  else st.

Definition find_best_fitting_stock (observation : Observation)
  (product_size : Z * Z) : option Z :=
  let indexed := enumerate (stocks observation) in
  let partially_filled_stocks :=
    filter (fun entry : Z * Stock =>
              let '(stock_w, stock_h) := _get_stock_size_ (snd entry) in
              (0 <? used_cells (snd entry))
              && (used_cells (snd entry) <? stock_w * stock_h)) indexed in
  let empty_stocks :=
    filter (fun entry : Z * Stock =>
              let '(stock_w, stock_h) := _get_stock_size_ (snd entry) in
              negb ((0 <? used_cells (snd entry))
                    && (used_cells (snd entry) <? stock_w * stock_h))
              && (used_cells (snd entry) =? 0)) indexed in
  match fst (fold_left best_partial_step partially_filled_stocks
                       (None, None)) with
  | Some idx => Some idx
  | None =>
      match empty_stocks with
      | [] => None
      | entry :: _ => Some (fst entry)
      end
  end.

(** ** The experience buffer *)

Record PPOMemory : Type := mkMemory {
  states : list (list Q);
  actions : list Z;
  rewards : list Q;
  values : list Q;
  log_probs : list Q;
  dones : list bool
}.

Definition memory_clear (_ : PPOMemory) : PPOMemory :=
  mkMemory [] [] [] [] [] [].

Definition memory_add (m : PPOMemory) (state : list Q) (action : Z)
  (reward value log_prob : Q) (done : bool) : PPOMemory :=
  mkMemory (states m ++ [state]) (actions m ++ [action])
           (rewards m ++ [reward]) (values m ++ [value])
           (log_probs m ++ [log_prob]) (dones m ++ [done]).

(** [l[-1] = x] *)
Definition set_last {A} (l : list A) (x : A) : result (list A) :=
  match l with
  | [] => Raise IndexError
  | _ => Ok (removelast l ++ [x])
  end.

(** The six lists of the buffer grow and shrink together. *)
Definition memory_aligned (m : PPOMemory) : Prop :=
  length (actions m) = length (states m)
  /\ length (rewards m) = length (states m)
  /\ length (values m) = length (states m)
  /\ length (log_probs m) = length (states m)
  /\ length (dones m) = length (states m).

(** [info]: the environment's dictionary, with the keys this file reads. *)
Record Info : Type := mkInfo {
  filled_ratio : option Q;
  info_observation : option Observation
}.

(** ** The policy object *)

Section Agent.

(** torch: the parameters of a network and the state of an optimizer
    (with its scheduler), both as their [state_dict]. *)
Variables Params OptState : Type.

(** What [initialize_networks] fixes at the first observation. *)
Record Dims : Type := mkDims {
  max_products : Z;
  initial_products : Z;
  prev_total_products : Z;
  state_dim : Z
}.

(** The attributes that [save_model] writes and [load_model] reads. *)
Record Model : Type := mkModel {
  actor : Params;
  critic : Params;
  actor_optimizer : OptState;
  critic_optimizer : OptState;
  state_mean : list Q;
  state_std : list Q
}.

(** [self].  [dims] and [model] are [None] until [initialize_networks] has
    run; [loss_computations] is a ghost counter of the loss evaluations;
    [draws] counts the random numbers drawn so far. *)
Record Policy : Type := mkPolicy {
  dims : option Dims;
  model : option Model;
  training : bool;
  memory : PPOMemory;
  steps : Z;
  running_filled_ratio : list Q;
  last_losses : option (Q * Q);
  loss_computations : nat;
  draws : nat
}.

Definition set_model (mdl : Model) (self : Policy) : Policy :=
  mkPolicy (dims self) (Some mdl) (training self) (memory self)
           (steps self) (running_filled_ratio self) (last_losses self)
           (loss_computations self) (draws self).

Definition set_memory (m : PPOMemory) (self : Policy) : Policy :=
  mkPolicy (dims self) (model self) (training self) m
           (steps self) (running_filled_ratio self) (last_losses self)
           (loss_computations self) (draws self).

Definition set_steps (n : Z) (self : Policy) : Policy :=
  mkPolicy (dims self) (model self) (training self) (memory self)
           n (running_filled_ratio self) (last_losses self)
           (loss_computations self) (draws self).

Definition set_running_filled_ratio (l : list Q) (self : Policy) : Policy :=
  mkPolicy (dims self) (model self) (training self) (memory self)
           (steps self) l (last_losses self)
           (loss_computations self) (draws self).

Definition set_draws (n : nat) (self : Policy) : Policy :=
  mkPolicy (dims self) (model self) (training self) (memory self)
           (steps self) (running_filled_ratio self) (last_losses self)
           (loss_computations self) n.

(** [__init__] *)
Definition new_policy : Policy :=
  mkPolicy None None true (mkMemory [] [] [] [] [] []) 0 [] None 0 0.

(** A method: it may raise, and what it did to [self] before stays. *)
Definition M (A : Type) : Type := Policy -> result A * Policy.

Definition ret {A} (a : A) : M A := fun self => (Ok a, self).

Definition raise {A} (e : exn) : M A := fun self => (Raise e, self).

Definition bind {A B} (m : M A) (k : A -> M B) : M B :=
  fun self =>
    match m self with
    | (Ok a, self') => k a self'
    | (Raise e, self') => (Raise e, self')
    end.

Definition lift {A} (r : result A) : M A := fun self => (r, self).

Definition modify (f : Policy -> Policy) : M unit :=
  fun self => (Ok tt, f self).

Definition read {A} (f : Policy -> A) : M A :=
  fun self => (Ok (f self), self).

(** [self.actor], [self.critic], ...: absent before initialisation. *)
Definition the_model : M Model :=
  fun self =>
    match model self with
    | Some mdl => (Ok mdl, self)
    | None => (Raise AttributeError, self)
    end.

(** [d[key]] for a dictionary entry that may be missing. *)
Definition key {A} (entry : option A) : M A :=
  fun self =>
    match entry with
    | Some a => (Ok a, self)
    | None => (Raise KeyError, self)
    end.

Declare Scope method_scope.
Delimit Scope method_scope with M.
Notation "x <- m ;; k" := (bind m (fun x => k))
  (at level 61, m at next level, right associativity) : method_scope.
Notation "m ;;; k" := (bind m (fun _ => k))
  (at level 61, right associativity) : method_scope.

(** *** First observation *)

Variable new_actor : Z -> Z -> Params.
Variable new_critic : Z -> Params.
Variable new_optimizer : Params -> OptState.

Definition action_dim : Z := 100 * 25 * 2.

Definition total_quantity (observation : Observation) : Z :=
  fold_right Z.add 0 (map quantity (products observation)).

(** Returns the dimensions in force together with the new [self]. *)
Definition initialize_networks (observation : Observation) (self : Policy)
  : Dims * Policy :=
  match dims self with
  | Some d => (d, self)
  | None =>
      let max_products := len (products observation) in
      let initial_products := total_quantity observation in
      let state_dim := 100 * 3 + max_products * 3 + 2 in
      let d := mkDims max_products initial_products initial_products
                      state_dim in
      let a := new_actor state_dim action_dim in
      let c := new_critic state_dim in
      let mdl := mkModel a c (new_optimizer a) (new_optimizer c)
                         (repeat 0%Q (Z.to_nat state_dim))
                         (repeat 1%Q (Z.to_nat state_dim)) in
      (d, mkPolicy (Some d) (Some mdl) (training self) (memory self)
                   (steps self) (running_filled_ratio self)
                   (last_losses self) (loss_computations self)
                   (draws self))
  end.

(** *** One decision *)

Variable evaluate_placement_pattern : Stock -> Z -> Z -> Z -> Z -> Q.
Variable _calculate_placement_score :
  Stock -> Z -> Z -> Z -> Z -> Z -> Z -> Q.
Variable randint : nat -> Z -> Z.

(** torch: encoding and normalising the observation, the actor's logits
    with the boost for [best_stock_idx] and the temperature, one sample of
    the categorical distribution, its log-probability and the critic's
    value; the result is [(state, action, value, log_prob)]. *)
Variable sample_action :
  Policy -> Observation -> Info -> Z -> result (list Q * Z * Q * Q).

(** The block under [if largest_product:]; [None] when it leaves the local
    variable [action] unassigned. *)
Definition choose_action (observation : Observation) (info : Info)
  : M (option Z) :=
  match _get_largest_product observation with
  | None => ret None
  | Some largest_product =>
      match find_best_fitting_stock observation (size largest_product) with
      | None => ret None
      | Some best_stock_idx =>
          (self <- read (fun self => self) ;;
           sampled <- lift (sample_action self observation info
                                          best_stock_idx) ;;
           let '(state, action, value, log_prob) := sampled in
           modify (fun self => set_draws (S (draws self)) self) ;;;
           (if training self then
              modify (fun self =>
                set_memory (memory_add (memory self) state action 0%Q
                                       value log_prob false) self)
            else ret tt) ;;;
           ret (Some action))%M
      end
  end.

(** [self.steps < 2000 or remaining_products > 0.7 * self.initial_products] *)
Definition structured_first (d : Dims) (self : Policy)
  (remaining_products : Z) : bool :=
  (steps self <? 2000)
  || Qlt_bool ((7 # 10) * inject_Z (initial_products d))
              (inject_Z remaining_products).

(** The rest of [get_action], reached when the structured strategy was
    skipped or found nothing. *)
Definition learned_decision (observation : Observation) (info : Info)
  : M (option Action) :=
  (chosen <- choose_action observation info ;;
   action <- (match chosen with
              | Some action => ret action
              | None => raise UnboundLocalError
              end) ;;
   placement_action <-
     (fun self =>
        let '(r, n) :=
          convert_action evaluate_placement_pattern randint
                         action observation (draws self) in
        (r, set_draws n self)) ;;
   let placement_action :=
     match placement_action with
     | Some a => Some a
     | None =>
         _get_greedy_action _calculate_placement_score observation
     end in
   modify (fun self => set_steps (steps self + 1) self) ;;;
   ret placement_action)%M.

Definition get_action (observation : Observation) (info : Info)
  : M (option Action) :=
  fun self0 =>
    let '(d, self) := initialize_networks observation self0 in
    let remaining_products := total_quantity observation in
    let structured :=
      if structured_first d self remaining_products
      then _get_structured_placement observation
      else None in
    match structured with
    | Some placement_action => (Ok (Some placement_action), self)
    | None => learned_decision observation info self
    end.

(** *** The normalizer *)

(** The square root of floats. *)
Variable sqrt : Q -> Q.

(** [state.std()]: one number, torch's unbiased standard deviation over
    all entries of the tensor. *)
Definition tensor_std (state : list Q) : Q :=
  let mu := tensor_mean state in
  sqrt (qsum (map (fun x => (x - mu) * (x - mu)) state)
        / (inject_Z (len state) - 1))%Q.

Definition next_state_std (state_std state : list Q) : list Q :=
  decay state_std (tensor_std state).

Definition update_state_normalizer (state : list Q) : M unit :=
  (mdl <- the_model ;;
   let mean' := next_state_mean (state_mean mdl) state in
   modify (set_model (mkModel (actor mdl) (critic mdl) (actor_optimizer mdl)
                              (critic_optimizer mdl) mean' (state_std mdl)))
   ;;;
   let std' := next_state_std (state_std mdl) state in
   modify (set_model (mkModel (actor mdl) (critic mdl) (actor_optimizer mdl)
                              (critic_optimizer mdl) mean' std')))%M.

(** *** The PPO update *)

(** torch: one pass of the loop of [_update_networks] over the whole
    buffer (losses, backward pass, clipping, optimizer steps); it returns
    the new networks and [(actor_loss, critic_loss)]. *)
Variable ppo_epoch : Model -> PPOMemory -> Model * (Q * Q).

(** torch: the two [scheduler.step] calls after the passes. *)
Variable scheduler_step : Model -> PPOMemory -> option (Q * Q) -> Model.

Definition num_epochs : Z := 10.

(** The body of [for _ in range(self.num_epochs)]. *)
Definition epoch_step (m : PPOMemory) (st : Model * option (Q * Q) * nat)
  (_ : Z) : Model * option (Q * Q) * nat :=
  let '(mdl, _, count) := st in
  let '(mdl', losses) := ppo_epoch mdl m in
  (mdl', Some losses, S count).

Definition _update_networks : M unit :=
  fun self =>
    if negb (training self) || (len (states (memory self)) =? 0) then
      (Ok tt, self)
    else
      match model self with
      | None => (Raise AttributeError, self)
      | Some mdl =>
          let '(mdl', losses, count) :=
            fold_left (epoch_step (memory self)) (range 0 num_epochs)
                      (mdl, last_losses self, loss_computations self) in
          let mdl'' := scheduler_step mdl' (memory self) losses in
          (Ok tt,
           mkPolicy (dims self) (Some mdl'') (training self) (memory self)
                    (steps self) (running_filled_ratio self) losses
                    count (draws self))
      end.

(** The metrics branch of [update_policy]: the last entry of the recent
    filled ratios, when there is one. *)
Definition record_filled_ratio (info : option Info) : M unit :=
  match info with
  | Some (mkInfo _ (Some observation)) =>
      let correct_filled_ratio := calculate_filled_ratio observation in
      (recent <- read running_filled_ratio ;;
       if 0 <? len recent then
         recent' <- lift (set_last recent correct_filled_ratio) ;;
         modify (set_running_filled_ratio recent')
       else ret tt)%M
  | _ => ret tt
  end.

(** The first [if] of [update_policy]: the reward and the terminal flag of
    the last entry of the buffer are written once the outcome is known. *)
Definition close_last_entry (reward : option Q) (done : bool)
  (info : option Info) : M unit :=
  match reward with
  | Some r =>
      (m <- read memory ;;
       if 0 <? len (rewards m) then
         rewards' <- lift (set_last (rewards m) r) ;;
         modify (fun self =>
           set_memory (mkMemory (states m) (actions m) rewards' (values m)
                                (log_probs m) (dones m)) self) ;;;
         dones' <- lift (set_last (dones m) done) ;;
         modify (fun self =>
           set_memory (mkMemory (states m) (actions m) rewards' (values m)
                                (log_probs m) dones') self) ;;;
         record_filled_ratio info
       else ret tt)%M
  | None => ret tt
  end.

Definition update_policy (reward : option Q) (done : bool)
  (info : option Info) : M unit :=
  (close_last_entry reward done info ;;;
   m <- read memory ;;
   if 128 <=? len (states m) then
     _update_networks ;;;
     modify (fun self => set_memory (memory_clear (memory self)) self)
   else ret tt)%M.

(** *** Checkpoints *)

(** The bundle of [save_model]: a dictionary, any key of which may be
    missing from a file written by something else. *)
Record Checkpoint : Type := mkCheckpoint {
  actor_state_dict : option Params;
  critic_state_dict : option Params;
  actor_optimizer_state_dict : option OptState;
  critic_optimizer_state_dict : option OptState;
  checkpoint_state_mean : option (list Q);
  checkpoint_state_std : option (list Q)
}.

(** torch: [torch.load] of a path; it raises when the file is missing or
    cannot be read as a bundle. *)
Variable torch_load : String.string -> result Checkpoint.

(** torch: [module.load_state_dict] and [optimizer.load_state_dict]; the
    result is the object after the call and whether the call returned
    ([true]) or raised ([false]). *)
Variable load_state_dict : Params -> Params -> Params * bool.
Variable optimizer_load_state_dict : OptState -> OptState -> OptState * bool.

Definition checked {A} (loaded : A * bool) (store : A -> Model) : M unit :=
  (modify (set_model (store (fst loaded))) ;;;
   if snd loaded then ret tt else raise RuntimeError)%M.

(** The [try] block of [load_model]. *)
Definition load_model_try (filename : String.string) : M unit :=
  (checkpoint <- lift (torch_load filename) ;;
   mdl <- the_model ;;
   sd <- key (actor_state_dict checkpoint) ;;
   checked (load_state_dict (actor mdl) sd)
     (fun a => mkModel a (critic mdl) (actor_optimizer mdl)
                       (critic_optimizer mdl) (state_mean mdl)
                       (state_std mdl)) ;;;
   mdl <- the_model ;;
   sd <- key (critic_state_dict checkpoint) ;;
   checked (load_state_dict (critic mdl) sd)
     (fun c => mkModel (actor mdl) c (actor_optimizer mdl)
                       (critic_optimizer mdl) (state_mean mdl)
                       (state_std mdl)) ;;;
   mdl <- the_model ;;
   sd <- key (actor_optimizer_state_dict checkpoint) ;;
   checked (optimizer_load_state_dict (actor_optimizer mdl) sd)
     (fun o => mkModel (actor mdl) (critic mdl) o
                       (critic_optimizer mdl) (state_mean mdl)
                       (state_std mdl)) ;;;
   mdl <- the_model ;;
   sd <- key (critic_optimizer_state_dict checkpoint) ;;
   checked (optimizer_load_state_dict (critic_optimizer mdl) sd)
     (fun o => mkModel (actor mdl) (critic mdl) (actor_optimizer mdl)
                       o (state_mean mdl) (state_std mdl)) ;;;
   mdl <- the_model ;;
   mean <- key (checkpoint_state_mean checkpoint) ;;
   modify (set_model (mkModel (actor mdl) (critic mdl) (actor_optimizer mdl)
                              (critic_optimizer mdl) mean (state_std mdl)))
   ;;;
   mdl <- the_model ;;
   std <- key (checkpoint_state_std checkpoint) ;;
   modify (set_model (mkModel (actor mdl) (critic mdl) (actor_optimizer mdl)
                              (critic_optimizer mdl) (state_mean mdl) std)))%M.

(** [try: ...; return True; except: return False] *)
Definition load_model (filename : String.string) (self : Policy)
  : bool * Policy :=
  match load_model_try filename self with
  | (Ok _, self') => (true, self')
  | (Raise _, self') => (false, self')
  end.

End Agent.

(** ** Grids and observations used in the examples *)

Definition empty_stock (w h : nat) : Stock := repeat (repeat EMPTY w) h.

(** A [w] by [h] grid whose cells all hold the product identifier [id]. *)
Definition full_stock (id : Z) (w h : nat) : Stock := repeat (repeat id w) h.

(** A 10 by 10 grid whose upper five rows are occupied. *)
Definition half_filled_stock : Stock :=
  full_stock 0 10 5 ++ empty_stock 10 5.

Definition three_stocks : Observation :=
  mkObservation [empty_stock 10 10; half_filled_stock; full_stock 0 5 5] [].

(** A 4 by 4 grid with one occupied cell, at [x = 0], [y = 2]. *)
Definition left_neighbour_stock : Stock :=
  [ [-1; -1; -1; -1];
    [-1; -1; -1; -1];
    [ 7; -1; -1; -1];
    [-1; -1; -1; -1] ].

(** A 3 by 3 grid with one occupied cell, at [x = 0], [y = 2]. *)
Definition diagonal_neighbour_stock : Stock :=
  [ [-1; -1; -1];
    [-1; -1; -1];
    [ 7; -1; -1] ].

(** The end-to-end scenario: one empty 10 by 10 stock, one 4 by 4 product. *)
Definition first_observation : Observation :=
  mkObservation [empty_stock 10 10] [mkProduct (4, 4) 1].

(** The same after the environment has cut the product at [(0, 0)]. *)
Definition second_observation : Observation :=
  mkObservation
    [ map (fun row => repeat 0 4 ++ skipn 4 row)
          (firstn 4 (empty_stock 10 10))
      ++ skipn 4 (empty_stock 10 10) ]
    [mkProduct (4, 4) 0].

Definition no_info : Info := mkInfo None None.

(** ** Quantities the properties are stated with *)

Definition sum_Z (l : list Z) : Z := fold_right Z.add 0 l.

Definition stock_area (stock : Stock) : Z :=
  fst (_get_stock_size_ stock) * snd (_get_stock_size_ stock).

(** [V(t+1)] in [compute_gae]: 0 at the last index. *)
Definition next_value_at (rewards values : list Q) (t : nat) : Q :=
  if Nat.eqb t (length rewards - 1) then 0%Q else nth (t + 1) values 0%Q.

(** The advantage at [t] from the accumulator [gae] left by [t + 1]. *)
Definition advantage_at (rewards values : list Q) (dones : list bool)
  (t : nat) (gae : Q) : Q :=
  gae_update (nth t rewards 0%Q) (next_value_at rewards values t)
             (nth t values 0%Q) (nth t dones false) gae.

(** What holds of [(advantages, gae)] in [compute_gae] once the indices from
    [j] on are done. *)
Definition gae_invariant (rewards values : list Q) (dones : list bool)
  (j : nat) (st : list Q * Q) : Prop :=
  length (fst st) = (length rewards - j)%nat
  /\ snd st = nth 0 (fst st) 0%Q
  /\ forall i, (i < length rewards - j)%nat ->
       nth i (fst st) 0%Q
       = advantage_at rewards values dones (j + i) (nth (S i) (fst st) 0%Q).

(** What [get_action] and [update_policy] maintain: the six lists of the
    buffer have one length, and before the networks exist no dimension is
    fixed and nothing is buffered. *)
Definition consistent {Params OptState : Type}
  (self : Policy Params OptState) : Prop :=
  memory_aligned (memory self)
  /\ (model self = None -> dims self = None /\ states (memory self) = []).

(** A buffer of [n] entries, and a policy after its first observation that
    holds it. *)
Definition buffer_of (n : nat) : PPOMemory :=
  mkMemory (repeat [] n) (repeat 0 n) (repeat 0%Q n) (repeat 0%Q n)
           (repeat 0%Q n) (repeat false n).

Definition policy_with (m : PPOMemory) : Policy unit unit :=
  mkPolicy (Some (mkDims 1 1 1 305))
           (Some (mkModel tt tt tt tt [0; 0; 0]%Q [1; 1; 1]%Q))
           true m 0 [] None 0 0.

(** What a failed [load_model] leaves as it was: everything outside the
    checkpointed attributes, an absent model, and the normalizer's standard
    deviation (the last attribute to be assigned). *)
Definition kept_by_failed_load {Params OptState : Type}
  (s s' : Policy Params OptState) : Prop :=
  dims s' = dims s
  /\ training s' = training s
  /\ memory s' = memory s
  /\ steps s' = steps s
  /\ running_filled_ratio s' = running_filled_ratio s
  /\ last_losses s' = last_losses s
  /\ loss_computations s' = loss_computations s
  /\ draws s' = draws s
  /\ option_map (@state_std Params OptState) (model s')
     = option_map (@state_std Params OptState) (model s)
  /\ (model s = None -> model s' = None).

(** A stand-in for torch's [load_state_dict]: parameters are a list of
    numbers, and a list of another length is a shape mismatch, which leaves
    the current parameters as they are. *)
Definition load_same_shape (current loaded : list Z) : list Z * bool :=
  if (length current =? length loaded)%nat then (loaded, true)
  else (current, false).

(** A bundle whose actor entry fits the policy below and whose critic entry
    does not. *)
Definition mismatched_bundle : Checkpoint (list Z) (list Z) :=
  mkCheckpoint (Some [5; 5]) (Some [5; 5; 5]) (Some []) (Some [])
               (Some [0]%Q) (Some [1]%Q).

Definition small_policy : Policy (list Z) (list Z) :=
  mkPolicy (Some (mkDims 1 1 1 305))
           (Some (mkModel [1; 1] [2; 2] [] [] [0]%Q [1]%Q))
           true (buffer_of 0) 0 [] None 0 0.

(** One placement attempt of the greedy search: a product, an orientation,
    a stock with its index, and a position. *)
Record Candidate : Type := mkCandidate {
  cand_prod : Product;
  cand_size : Z * Z;
  cand_stock_idx : Z;
  cand_stock : Stock;
  cand_y : Z;
  cand_x : Z
}.

(** The attempts of the greedy search in the order of its five loops:
    products by decreasing area, both orientations, the stocks the
    orientation fits in, rows, columns. *)
Definition stock_candidates (prod : Product) (prod_size : Z * Z)
  (entry : Z * Stock) : list Candidate :=
  let '(stock_w, stock_h) := _get_stock_size_ (snd entry) in
  if (stock_w <? fst prod_size) || (stock_h <? snd prod_size) then []
  else
    flat_map (fun y =>
        map (mkCandidate prod prod_size (fst entry) (snd entry) y)
            (range 0 (stock_w - fst prod_size + 1)))
      (range 0 (stock_h - snd prod_size + 1)).

Definition greedy_candidates (observation : Observation) : list Candidate :=
  flat_map (fun prod =>
      flat_map (fun prod_size =>
          flat_map (stock_candidates prod prod_size)
                   (enumerate (stocks observation)))
        (orientations prod))
    (sorted_by_area
       (filter (fun prod => 0 <? quantity prod) (products observation))).

(** The score the greedy search gives a candidate, with the bonus for a
    rotated placement of positive score. *)
Definition candidate_score
  (score_of : Stock -> Z -> Z -> Z -> Z -> Z -> Z -> Q) (c : Candidate) : Q :=
  let '(stock_w, stock_h) := _get_stock_size_ (cand_stock c) in
  let score :=
    score_of (cand_stock c) (cand_x c) (cand_y c)
             (fst (cand_size c)) (snd (cand_size c)) stock_w stock_h in
  if negb (size_eqb (cand_size c) (size (cand_prod c))) then
    if negb (Qle_bool score 0) then (score * (105 # 100))%Q else score
  else score.

Definition candidate_fits (c : Candidate) : bool :=
  _can_place_ (cand_stock c) (cand_x c, cand_y c) (cand_size c).

Definition candidate_action (c : Candidate) : Action :=
  mkAction (cand_stock_idx c) (cand_size c) (cand_x c, cand_y c).

(** Keeping the best placement so far: a candidate that can be placed
    replaces it when its score is strictly higher. *)
Definition consider (score_of : Stock -> Z -> Z -> Z -> Z -> Z -> Z -> Q)
  (best : option Action * option Q) (c : Candidate)
  : option Action * option Q :=
  if candidate_fits c && better (candidate_score score_of c) (snd best) then
    (Some (candidate_action c), Some (candidate_score score_of c))
  else best.

(** The state of either exit of a loop. *)
Definition final_state {S : Type} (r : S + S) : S :=
  match r with
  | inl s => s
  | inr s => s
  end.

(** The innermost loop body of the greedy search at a candidate. *)
Definition visit (score_of : Stock -> Z -> Z -> Z -> Z -> Z -> Z -> Q)
  (c : Candidate) : GreedyState -> GreedyState + GreedyState :=
  greedy_position score_of (cand_prod c) (cand_size c) (cand_stock_idx c)
                  (cand_stock c) (fst (_get_stock_size_ (cand_stock c)))
                  (snd (_get_stock_size_ (cand_stock c)))
                  (cand_y c) (cand_x c).

Definition within_budget (st : GreedyState) : Prop :=
  0 <= attempts st < max_attempts.

(** What is kept of the candidates [l]: see [consider_fold]. *)
Definition kept_best (score_of : Stock -> Z -> Z -> Z -> Z -> Z -> Z -> Q)
  (l : list Candidate) (r : option Action * option Q) : Prop :=
  (fst r = None <-> snd r = None)
  /\ (fst r = None -> forall c, In c l -> candidate_fits c = false)
  /\ (forall a s, r = (Some a, Some s) ->
        (exists c, In c l /\ candidate_fits c = true
                   /\ a = candidate_action c
                   /\ s = candidate_score score_of c)
        /\ (forall c, In c l -> candidate_fits c = true ->
              (candidate_score score_of c <= s)%Q)).

(** A placement on a stock of the observation that passes [_can_place_]. *)
Definition placement_accepted (observation : Observation) (a : Action)
  (stock : Stock) : Prop :=
  py_index (stocks observation) (stock_idx a) = Ok stock
  /\ _can_place_ stock (position a) (action_size a) = true.

(** The rectangle of the placement lies within the grid and every cell it
    covers is there and empty. *)
Definition rectangle_free (stock : Stock) (a : Action) : Prop :=
  let '(pos_x, pos_y) := position a in
  let '(prod_w, prod_h) := action_size a in
  0 <= pos_x /\ 0 <= pos_y
  /\ pos_x + prod_w <= shape1 stock /\ pos_y + prod_h <= shape0 stock
  /\ forall x y, pos_x <= x < pos_x + prod_w -> pos_y <= y < pos_y + prod_h ->
       cell_at stock y x = Some EMPTY.

(** One empty 10 by 10 stock and six unit products: 1200 candidates for the
    greedy search. *)
Definition crowded_observation : Observation :=
  mkObservation [empty_stock 10 10] (repeat (mkProduct (1, 1) 1) 6).

(** ** Quantities the further properties are stated with *)

(** A product that is still to be cut. *)
Definition demanded (p : Product) : Prop := 0 < quantity p.

(** The position touches one of the four sides of the stock. *)
Definition on_edge (stock : Stock) (sz pos : Z * Z) : Prop :=
  fst pos = 0 \/ snd pos = 0
  \/ fst pos = shape1 stock - fst sz \/ snd pos = shape0 stock - snd sz.

(** The share of occupied cells of a stock, as [find_best_fitting_stock]
    computes it. *)
Definition utilization (stock : Stock) : Q :=
  (inject_Z (used_cells stock) / inject_Z (shape1 stock * shape0 stock))%Q.

(** A stock the actor may be biased towards before any empty one: partly
    filled, and less than 80% full. *)
Definition biasable (stock : Stock) : Prop :=
  0 < used_cells stock < shape1 stock * shape0 stock
  /\ (utilization stock < 8 # 10)%Q.

(** ** More of the geometry *)

(** [np.where(stock != -1)]: the (row, column) pairs of the occupied cells,
    row by row. *)
Definition filled_positions (stock : Stock) : list (Z * Z) :=
  flat_map (fun yrow : Z * list Z =>
      flat_map (fun xc : Z * Z =>
          if negb (snd xc =? EMPTY) then [(fst yrow, fst xc)] else [])
        (enumerate (snd yrow)))
    (enumerate stock).

Definition _get_distance_to_filled (stock : Stock) (pos_x pos_y : Z) : Z :=
  let filled := filled_positions stock in
  if len filled =? 0 then 0
  else
    let distances :=
      map (fun rc => Z.abs (fst rc - pos_y) + Z.abs (snd rc - pos_x))
          filled in
    match distances with
    | [] => 0
    | d :: rest => fold_left Z.min rest d
    end.

(** The body of the two nested loops of [_count_empty_neighbors] at the
    offset [(dx, dy)]: what is added to [empty_count]. *)
Definition empty_neighbor_at (stock : Stock) (pos_x pos_y size_w size_h : Z)
  (dx dy : Z) : Z :=
  let check_x := pos_x + dx in
  let check_y := pos_y + dy in
  if (0 <=? dx) && (dx <? size_w) && (0 <=? dy) && (dy <? size_h) then 0
  else if (0 <=? check_x) && (check_x <? shape1 stock)
          && (0 <=? check_y) && (check_y <? shape0 stock) then
    if cell stock check_y check_x =? EMPTY then 1 else 0
  else 0.

Definition _count_empty_neighbors (stock : Stock)
  (pos_x pos_y size_w size_h : Z) : Z :=
  let padding := 1 in
  fold_left (fun empty_count dx =>
    fold_left (fun empty_count dy =>
        empty_count
        + empty_neighbor_at stock pos_x pos_y size_w size_h dx dy)
      (range (- padding) (size_h + padding)) empty_count)
    (range (- padding) (size_w + padding)) 0.

(** [stock[i, j]] for a numpy array: a negative index counts from the end,
    an index out of range raises. *)
Definition np_get (stock : Stock) (i j : Z) : result Z :=
  let i' := if i <? 0 then shape0 stock + i else i in
  let j' := if j <? 0 then shape1 stock + j else j in
  if (0 <=? i') && (i' <? shape0 stock) && (0 <=? j') && (j' <? shape1 stock)
  then Ok (cell stock i' j')
  else Raise IndexError.

(** [sum(1 for k in ks if read(k) != -1)] *)
Definition count_occupied (read : Z -> result Z) (ks : list Z) : result Z :=
  for_result (fun k n =>
      (c <- read k ;; Ok (if negb (c =? EMPTY) then n + 1 else n))%res)
    ks 0.

(** The body of the loop of [_is_perfect_fit] over the four directions; the
    state is [(perfect_fits, alignment_quality)].  The quotient
    [aligned_cells / prod_h] is the rational one: for an extent of 0 Python
    divides 0 by 0, which is outside this model. *)
Definition perfect_fit_step (stock : Stock) (pos_x pos_y prod_w prod_h : Z)
  (dir : Z * Z) (st : Z * Q) : result (Z * Q) :=
  let '(dx, dy) := dir in
  let '(perfect_fits, alignment_quality) := st in
  let check_x := pos_x + dx * prod_w in
  let check_y := pos_y + dy * prod_h in
  if (0 <=? check_x) && (check_x <? shape1 stock)
     && (0 <=? check_y) && (check_y <? shape0 stock) then
    if negb (dx =? 0) then
      (aligned_cells <-
         count_occupied (fun y => np_get stock y check_x)
                        (range pos_y (pos_y + prod_h)) ;;
       if aligned_cells =? prod_h then
         Ok (perfect_fits + 1,
             (alignment_quality
              + inject_Z aligned_cells / inject_Z prod_h)%Q)
       else Ok st)%res
    else if negb (dy =? 0) then
      (aligned_cells <-
         count_occupied (fun x => np_get stock check_y x)
                        (range pos_x (pos_x + prod_w)) ;;
       if aligned_cells =? prod_w then
         Ok (perfect_fits + 1,
             (alignment_quality
              + inject_Z aligned_cells / inject_Z prod_w)%Q)
       else Ok st)%res
    else Ok st
  else Ok st.

Definition perfect_fit_loop (stock : Stock) (pos_x pos_y prod_w prod_h : Z)
  : result (Z * Q) :=
  for_result (perfect_fit_step stock pos_x pos_y prod_w prod_h)
             [(0, 1); (0, -1); (1, 0); (-1, 0)] (0, 0%Q).

Definition _is_perfect_fit (stock : Stock) (pos_x pos_y prod_w prod_h : Z)
  : result bool :=
  (st <- perfect_fit_loop stock pos_x pos_y prod_w prod_h ;;
   Ok ((2 <=? fst st) || Qle_bool (15 # 10) (snd st)))%res.

(** ** Episode metrics *)

(** The attributes of [CuttingStockMetrics] that this file writes;
    [best_reward] starts at [float('-inf')], here [None]. *)
Record CuttingStockMetrics : Type := mkMetrics {
  episode_numbers : list Z;
  episode_filled_ratios : list Q;
  episode_rewards : list Q;
  best_filled_ratio : Q;
  best_reward : option Q;
  best_episode : Z;
  edge_utilization : list Z;
  corner_placements : list Z
}.

Definition new_metrics : CuttingStockMetrics :=
  mkMetrics [] [] [] 0%Q None (-1) [] [].

Definition add_episode_data (episode_number : Z) (filled_ratio : Q)
  (total_reward : Q) (m : CuttingStockMetrics) : CuttingStockMetrics :=
  let best_ratio :=
    if Qlt_bool (best_filled_ratio m) filled_ratio then filled_ratio
    else best_filled_ratio m in
  let improved := better total_reward (best_reward m) in
  mkMetrics (episode_numbers m ++ [episode_number])
            (episode_filled_ratios m ++ [filled_ratio])
            (episode_rewards m ++ [total_reward])
            best_ratio
            (if improved then Some total_reward else best_reward m)
            (if improved then episode_number else best_episode m)
            (edge_utilization m) (corner_placements m).

(** [log_episode_summary]; [self.metrics] is all it touches. *)
Definition log_episode_summary (steps_taken : Z) (filled_ratio : Q)
  (episode_reward : Q) (observation : Observation)
  (m : CuttingStockMetrics) : CuttingStockMetrics :=
  let remaining_products :=
    fold_right Z.add 0 (map quantity (products observation)) in
  if remaining_products =? 0 then
    let current_episode := len (episode_numbers m) in
    add_episode_data current_episode filled_ratio episode_reward m
  else m.

(** The dictionary returned by [evaluate_cutting_pattern]. *)
Record PatternReport : Type := mkReport {
  edge_contact : Z;
  is_corner : bool;
  piece_area : Z;
  position_quality : bool
}.

Definition evaluate_cutting_pattern (observation : Observation)
  (action : option Action) (m : CuttingStockMetrics)
  : result (option PatternReport) * CuttingStockMetrics :=
  match action with
  | None => (Ok None, m)
  | Some a =>
      match py_index (stocks observation) (stock_idx a) with
      | Raise e => (Raise e, m)
      | Ok stock =>
          let '(stock_w, stock_h) := _get_stock_size_ stock in
          let '(pos_x, pos_y) := position a in
          let '(size_w, size_h) := action_size a in
          let at_x := (pos_x =? 0) || (pos_x + size_w =? stock_w) in
          let at_y := (pos_y =? 0) || (pos_y + size_h =? stock_h) in
          let edge_contact :=
            (if at_x then 1 else 0) + (if at_y then 1 else 0) in
          let is_corner := at_x && at_y in
          (Ok (Some (mkReport edge_contact is_corner (size_w * size_h)
                              ((pos_x =? 0) || (pos_y =? 0)))),
           mkMetrics (episode_numbers m) (episode_filled_ratios m)
                     (episode_rewards m) (best_filled_ratio m)
                     (best_reward m) (best_episode m)
                     (edge_utilization m ++ [edge_contact])
                     (corner_placements m ++ [if is_corner then 1 else 0]))
      end
  end.

(** The occupied cells the halo of a rectangle holds, counted by the same
    two loops as [_count_adjacent_pieces]. *)
Definition occupied_neighbor_at (stock : Stock)
  (pos_x pos_y size_w size_h : Z) (dx dy : Z) : Z :=
  let check_x := pos_x + dx in
  let check_y := pos_y + dy in
  if (0 <=? dx) && (dx <? size_w) && (0 <=? dy) && (dy <? size_h) then 0
  else if (0 <=? check_x) && (check_x <? shape1 stock)
          && (0 <=? check_y) && (check_y <? shape0 stock) then
    if negb (cell stock check_y check_x =? EMPTY) then 1 else 0
  else 0.

Definition occupied_neighbors (stock : Stock)
  (pos_x pos_y size_w size_h : Z) : Z :=
  fold_left (fun count dx =>
    fold_left (fun count dy =>
        count + occupied_neighbor_at stock pos_x pos_y size_w size_h dx dy)
      (range (-1) (size_h + 1)) count)
    (range (-1) (size_w + 1)) 0.

(** The cells of the halo that lie within the grid. *)
Definition halo_cell_at (stock : Stock) (pos_x pos_y size_w size_h : Z)
  (dx dy : Z) : Z :=
  let check_x := pos_x + dx in
  let check_y := pos_y + dy in
  if (0 <=? dx) && (dx <? size_w) && (0 <=? dy) && (dy <? size_h) then 0
  else if (0 <=? check_x) && (check_x <? shape1 stock)
          && (0 <=? check_y) && (check_y <? shape0 stock) then 1
  else 0.

Definition halo_cells (stock : Stock) (pos_x pos_y size_w size_h : Z) : Z :=
  fold_left (fun count dx =>
    fold_left (fun count dy =>
        count + halo_cell_at stock pos_x pos_y size_w size_h dx dy)
      (range (-1) (size_h + 1)) count)
    (range (-1) (size_w + 1)) 0.

(** ** The score of a placement pattern *)

(** [l[lo:hi]] *)
Definition py_slice {A} (l : list A) (lo hi : Z) : list A :=
  let norm i := if i <? 0 then Z.max 0 (len l + i) else Z.min i (len l) in
  firstn (Z.to_nat (norm hi - norm lo)) (skipn (Z.to_nat (norm lo)) l).

(** [np.sum(region == prod_id)] *)
Definition count_cells (region : list (list Z)) (prod_id : Z) : Z :=
  len (filter (fun c => c =? prod_id) (concat region)).

(** [np.unique(region[region != -1])]: the distinct identifiers in the
    region; numpy sorts them, which the loops over them do not depend on. *)
Definition unique_products (region : list (list Z)) : list Z :=
  nodup Z.eq_dec (filter (fun c => negb (c =? EMPTY)) (concat region)).

Definition _count_nearby_small_pieces (stock : Stock)
  (pos_x pos_y size_w size_h : Z) : Z :=
  let padding := 3 in
  let x_start := Z.max 0 (pos_x - padding) in
  let x_end := Z.min (shape1 stock) (pos_x + size_w + padding) in
  let y_start := Z.max 0 (pos_y - padding) in
  let y_end := Z.min (shape0 stock) (pos_y + size_h + padding) in
  let region :=
    map (fun row => py_slice row x_start x_end)
        (py_slice stock y_start y_end) in
  fold_left (fun small_pieces prod_id =>
      if count_cells region prod_id <? 20 then small_pieces + 1
      else small_pieces)
    (unique_products region) 0.

(** [evaluate_placement_pattern]; the quotient [used_space / total_space]
    is the rational one (numpy yields nan for a grid without cells). *)
Definition evaluate_placement_pattern (stock : Stock)
  (pos_x pos_y size_w size_h : Z) : Q :=
  let '(stock_w, stock_h) := _get_stock_size_ stock in
  let piece_area := size_w * size_h in
  let is_small_piece := piece_area <? 20 in
  if is_small_piece then
    let score :=
      if (pos_x =? 0) && (pos_y =? 0) then 3%Q
      else if (pos_x =? 0) || (pos_y =? 0) then 2%Q
      else 0%Q in
    let nearby_small :=
      _count_nearby_small_pieces stock pos_x pos_y size_w size_h in
    let score := (score + inject_Z nearby_small * (15 # 10))%Q in
    let distance_to_filled := _get_distance_to_filled stock pos_x pos_y in
    (score - inject_Z distance_to_filled * (5 # 10))%Q
  else
    let at_x := (pos_x =? 0) || (pos_x + size_w =? stock_w) in
    let at_y := (pos_y =? 0) || (pos_y + size_h =? stock_h) in
    let score := (0 + (if at_x then 2 else 0))%Q in
    let score := (score + (if at_y then 2 else 0))%Q in
    let score := (score + (if at_x && at_y then 3 else 0))%Q in
    let used_space := used_cells stock in
    let total_space := stock_w * stock_h in
    let utilization := (inject_Z used_space / inject_Z total_space)%Q in
    (score + utilization * 2)%Q.

(** ** Connected empty areas *)

(** [(x, y) in visited] *)
Definition mem (p : Z * Z) (l : list (Z * Z)) : bool :=
  existsb (fun q => (fst q =? fst p) && (snd q =? snd p)) l.

Definition directions : list (Z * Z) := [(-1, 0); (1, 0); (0, -1); (0, 1)].

(** The body of the loop over the four directions in [_get_empty_area_size]:
    the neighbour of [(x, y)] is pushed when it is an empty cell of the grid
    not visited yet.  The head of the list is the top of the stack. *)
Definition flood_push (stock : Stock) (visited : list (Z * Z)) (p : Z * Z)
  (stack : list (Z * Z)) (d : Z * Z) : list (Z * Z) :=
  let '(x, y) := p in
  let '(dx, dy) := d in
  let new_x := x + dx in
  let new_y := y + dy in
  if (0 <=? new_x) && (new_x <? shape1 stock)
     && (0 <=? new_y) && (new_y <? shape0 stock)
     && (cell stock new_y new_x =? EMPTY)
     && negb (mem (new_x, new_y) visited)
  then (new_x, new_y) :: stack
  else stack.

(** [while stack: ...]; [None] when the fuel runs out before the stack is
    empty. *)
Fixpoint flood_loop (fuel : nat) (stock : Stock)
  (stack visited : list (Z * Z)) (area : Z) : option Z :=
  match stack with
  | [] => Some area
  | p :: stack =>
      match fuel with
      | O => None
      | S fuel =>
          if mem p visited then flood_loop fuel stock stack visited area
          else
            let visited := p :: visited in
            flood_loop fuel stock
                       (fold_left (flood_push stock visited p) directions
                                  stack)
                       visited (area + 1)
      end
  end.

(** Enough iterations for any run of the loop on this grid. *)
Definition flood_fuel (stock : Stock) : nat :=
  S (4 * (Z.to_nat (shape1 stock) * Z.to_nat (shape0 stock))).

Definition _get_empty_area_size (stock : Stock) (start_x start_y : Z)
  : option Z :=
  if (start_x <? 0) || (start_y <? 0) || (shape1 stock <=? start_x)
     || (shape0 stock <=? start_y) then Some 0
  else if negb (cell stock start_y start_x =? EMPTY) then Some 0
  else flood_loop (flood_fuel stock) stock [(start_x, start_y)] [] 0.

(** An empty cell of the grid, as the pair [(x, y)]. *)
Definition free (stock : Stock) (p : Z * Z) : Prop :=
  0 <= fst p < shape1 stock /\ 0 <= snd p < shape0 stock
  /\ cell stock (snd p) (fst p) = EMPTY.

(** [q] is the left, right, upper or lower neighbour of [p]. *)
Definition adjacent (p q : Z * Z) : Prop :=
  In q (map (fun d => (fst p + fst d, snd p + snd d)) directions).

(** The empty cells joined to [start] by a path of empty cells. *)
Inductive connected (stock : Stock) (start : Z * Z) : Z * Z -> Prop :=
| connected_start : free stock start -> connected stock start start
| connected_step (p q : Z * Z) :
    connected stock start p -> adjacent p q -> free stock q ->
    connected stock start q.

(** The cells of the grid, as pairs [(x, y)]. *)
Definition all_cells (stock : Stock) : list (Z * Z) :=
  list_prod (range 0 (shape1 stock)) (range 0 (shape0 stock)).

(** What the loop of [_get_empty_area_size] keeps. *)
Definition flood_invariant (stock : Stock) (start : Z * Z)
  (stack visited : list (Z * Z)) (area : Z) : Prop :=
  (forall p, In p stack -> connected stock start p)
  /\ (forall p, In p visited -> connected stock start p)
  /\ NoDup visited
  /\ area = len visited
  /\ (forall p q, In p visited -> adjacent p q -> free stock q ->
                  In q visited \/ In q stack)
  /\ (In start visited \/ In start stack).

(** ** Penalties for small and isolated areas *)

(** The body of the two loops of [_calculate_small_gap_penalty] at the
    offset [(dx, dy)]: what is added to [penalty]; [None] when the flood
    fill does not return. *)
Definition small_gap_at (stock : Stock) (pos_x pos_y : Z) (dx dy : Z)
  : option Z :=
  let check_x := pos_x + dx in
  let check_y := pos_y + dy in
  if (0 <=? check_x) && (check_x <? shape1 stock)
     && (0 <=? check_y) && (check_y <? shape0 stock) then
    if cell stock check_y check_x =? EMPTY then
      match _get_empty_area_size stock check_x check_y with
      | Some gap_size =>
          Some (if (0 <? gap_size) && (gap_size <? 4) then 1 else 0)
      | None => None
      end
    else Some 0
  else Some 0.

(** [penalty += n], for a term that may not have returned. *)
Definition add_penalty (penalty added : option Z) : option Z :=
  match penalty, added with
  | Some p, Some n => Some (p + n)
  | _, _ => None
  end.

Definition _calculate_small_gap_penalty (stock : Stock)
  (pos_x pos_y prod_w prod_h : Z) : option Z :=
  let padding := 2 in
  fold_left (fun penalty dx =>
    fold_left (fun penalty dy =>
        add_penalty penalty (small_gap_at stock pos_x pos_y dx dy))
      (range (- padding) (prod_h + padding)) penalty)
    (range (- padding) (prod_w + padding)) (Some 0).

(** The body of the loop of [_calculate_isolation_penalty] for one
    direction: what is added to [penalty]. *)
Definition isolation_at (stock : Stock) (pos_x pos_y prod_w prod_h : Z)
  (d : Z * Z) : option Z :=
  let '(stock_w, stock_h) := _get_stock_size_ stock in
  let '(dx, dy) := d in
  let check_x := pos_x + dx * prod_w in
  let check_y := pos_y + dy * prod_h in
  if (0 <=? check_x) && (check_x <? stock_w)
     && (0 <=? check_y) && (check_y <? stock_h) then
    match _get_empty_area_size stock check_x check_y with
    | Some area_size =>
        Some (if (0 <? area_size) && (area_size <? prod_w * prod_h)
              then 1 else 0)
    | None => None
    end
  else Some 0.

Definition _calculate_isolation_penalty (stock : Stock)
  (pos_x pos_y prod_w prod_h : Z) : option Z :=
  fold_left (fun penalty d =>
      add_penalty penalty (isolation_at stock pos_x pos_y prod_w prod_h d))
    directions (Some 0).

(** ** Empty cells above a placement *)

(** The loops of [_count_gaps_above]; the cells are read as numpy reads
    them, so an index beyond the grid raises. *)
Definition _count_gaps_above (stock : Stock) (pos_x pos_y width : Z)
  : result Z :=
  for_result (fun x gaps =>
      for_result (fun y gaps =>
          (c <- np_get stock y x ;;
           Ok (if c =? EMPTY then gaps + 1 else gaps))%res)
        (range 0 pos_y) gaps)
    (range pos_x (pos_x + width)) 0.

(** ** Scores of a stock *)

(** [calculate_space_utilization]; the quotients are the rational ones. *)
Definition calculate_space_utilization (stock : Stock)
  (pos_x pos_y size_w size_h : Z) : Q :=
  let '(stock_w, stock_h) := _get_stock_size_ stock in
  let remaining_areas : list Z := [] in
  let remaining_areas :=
    if pos_x + size_w <? stock_w then
      let right_w := stock_w - (pos_x + size_w) in
      let right_h := stock_h in
      remaining_areas ++ [right_w * right_h]
    else remaining_areas in
  let remaining_areas :=
    if pos_y + size_h <? stock_h then
      let top_w := size_w in
      let top_h := stock_h - (pos_y + size_h) in
      remaining_areas ++ [top_w * top_h]
    else remaining_areas in
  let total_remaining := fold_right Z.add 0 remaining_areas in
  let stock_area := stock_w * stock_h in
  let used_area := size_w * size_h in
  let space_efficiency := (inject_Z used_area / inject_Z stock_area)%Q in
  let remaining_ratio := (inject_Z total_remaining / inject_Z stock_area)%Q in
  (space_efficiency * 3 + remaining_ratio * 2)%Q.

(** [np.any(stock > 0)] *)
Definition any_positive (stock : Stock) : bool :=
  existsb (fun row => existsb (fun c => 0 <? c) row) stock.

(** [calculate_stock_penalty] *)
Definition calculate_stock_penalty (observation : Observation) : Q :=
  let used_stocks := len (filter any_positive (stocks observation)) in
  (- (2 # 10) * inject_Z used_stocks)%Q.

(** ** Checkpoint files *)

(** [s.endswith(suffix)] *)
Definition endswith (s suffix : String.string) : bool :=
  (String.length suffix <=? String.length s)%nat
  && String.eqb (String.substring (String.length s - String.length suffix)
                                  (String.length suffix) s)
                suffix.

(** [os.path.join(a, b)] of posixpath, for two components. *)
Definition os_path_join (a b : String.string) : String.string :=
  if String.prefix "/" b then b
  else if String.eqb a "" || endswith a "/" then (a ++ b)%string
  else (a ++ "/" ++ b)%string.

Definition model_path : String.string := "saved_models/".

(** The name [save_model] writes to. *)
Definition with_suffix (filename : String.string) : String.string :=
  if negb (endswith filename ".pt") then (filename ++ ".pt")%string
  else filename.

Section Files.

Variables Params OptState : Type.

(** The files under which bundles are stored: what [torch.load] finds at a
    path.  Failures of the file system itself are not modelled. *)
Definition Files : Type :=
  String.string -> option (Checkpoint Params OptState).

(** [torch.save(bundle, path)] *)
Definition torch_save (bundle : Checkpoint Params OptState)
  (path : String.string) (files : Files) : Files :=
  fun p => if String.eqb p path then Some bundle else files p.

(** [save_model]; [self.actor] is absent before [initialize_networks]. *)
Definition save_model (filename : String.string)
  (self : Policy Params OptState) (files : Files) : result unit * Files :=
  let filename := with_suffix filename in
  match model self with
  | None => (Raise AttributeError, files)
  | Some mdl =>
      (Ok tt,
       torch_save (mkCheckpoint (Some (actor mdl)) (Some (critic mdl))
                                (Some (actor_optimizer mdl))
                                (Some (critic_optimizer mdl))
                                (Some (state_mean mdl))
                                (Some (state_std mdl)))
                  (os_path_join model_path filename) files)
  end.

(** [torch.load(os.path.join(self.model_path, filename))] on these files;
    [missing] is what it raises when there is no file at the path. *)
Definition torch_load_from (missing : exn) (files : Files)
  (filename : String.string) : result (Checkpoint Params OptState) :=
  match files (os_path_join model_path filename) with
  | Some bundle => Ok bundle
  | None => Raise missing
  end.

End Files.

(** ** The state vector *)

(** [l[:n]] *)
Definition py_slice_to {A} (l : list A) (n : Z) : list A :=
  firstn (Z.to_nat (if n <? 0 then len l + n else n)) l.

(** [while len(features) < target: features.extend([0, 0, 0])] *)
Function pad_features (target : Z) (features : list Q)
  {measure (fun features => Z.to_nat (target - len features)) features}
  : list Q :=
  if len features <? target
  then pad_features target (features ++ [0%Q; 0%Q; 0%Q])
  else features.
Proof.
  intros target features Hlt. apply Z.ltb_lt in Hlt. unfold len in *.
  rewrite length_app. cbn [length]. lia.
Defined.

(** The first loop of [preprocess_observation].  The quotient
    [used_space / total_space] is the rational one: for a grid without cells
    numpy yields nan, which is outside this model. *)
Definition stock_features_of (stocks : list Stock) : list Q :=
  fold_left (fun stock_features stock =>
      let '(stock_w, stock_h) := _get_stock_size_ stock in
      let used_space := used_cells stock in
      let total_space := stock_w * stock_h in
      stock_features
      ++ [inject_Z stock_w / 10; inject_Z stock_h / 10;
          inject_Z used_space / inject_Z total_space]%Q)
    (py_slice_to stocks 100) [].

(** The second loop of [preprocess_observation]. *)
Definition prod_features_of (max_products : Z) (products : list Product)
  : list Q :=
  fold_left (fun prod_features prod =>
      if 0 <? quantity prod then
        prod_features
        ++ [inject_Z (fst (size prod)) / 10; inject_Z (snd (size prod)) / 10;
            inject_Z (Z.min (quantity prod) 10) / 10]%Q
      else prod_features)
    (py_slice_to products max_products) [].

(** [preprocess_observation], as a function of the two attributes of
    [self] it reads; the result is the list of the entries of the tensor. *)
Definition preprocess_observation (max_products steps : Z)
  (observation : Observation) (info : Info) : list Q :=
  let stock_features :=
    pad_features 300 (stock_features_of (stocks observation)) in
  let prod_features :=
    pad_features (max_products * 3)
                 (prod_features_of max_products (products observation)) in
  let global_features :=
    [match filled_ratio info with Some r => r | None => 0%Q end;
     (inject_Z steps / 1000)%Q] in
  stock_features ++ prod_features ++ global_features.

(** A call of [log_episode_summary]: its arguments
    [(steps, filled_ratio, episode_reward, observation)]. *)
Definition SummaryCall : Type := Z * Q * Q * Observation.

(** The metrics after a sequence of calls of [log_episode_summary]. *)
Definition log_all (calls : list SummaryCall) (m : CuttingStockMetrics)
  : CuttingStockMetrics :=
  fold_left (fun m (c : SummaryCall) =>
      let '(steps_taken, filled_ratio, episode_reward, observation) := c in
      log_episode_summary steps_taken filled_ratio episode_reward
                          observation m)
    calls m.

(** The call comes with an observation whose demand is met. *)
Definition completed (c : SummaryCall) : bool :=
  fold_right Z.add 0 (map quantity (products (snd c))) =? 0.

(** What the best scores say about the recorded history. *)
Definition best_scores_ok (m : CuttingStockMetrics) : Prop :=
  (0 <= best_filled_ratio m)%Q
  /\ Forall (fun r => (r <= best_filled_ratio m)%Q) (episode_filled_ratios m)
  /\ match best_reward m with
     | None => episode_numbers m = [] /\ best_episode m = -1
     | Some b =>
         0 <= best_episode m < len (episode_numbers m)
         /\ nth_error (episode_rewards m) (Z.to_nat (best_episode m)) = Some b
         /\ Forall (fun r => (r <= b)%Q) (episode_rewards m)
         /\ forall i r, (i < Z.to_nat (best_episode m))%nat ->
                        nth_error (episode_rewards m) i = Some r ->
                        (r < b)%Q
     end.

(** * Properties *)

(** ** Loops and sequences *)

Lemma range_length (lo hi : Z) : length (range lo hi) = Z.to_nat (hi - lo).
Proof. unfold range. now rewrite length_map, length_seq. Qed.

Lemma range_In (lo hi x : Z) : In x (range lo hi) <-> lo <= x < hi.
Proof.
  unfold range. rewrite in_map_iff. split.
  - intros (k & <- & Hk). apply in_seq in Hk. lia.
  - intros H. exists (Z.to_nat (x - lo)). split; [lia|].
    apply in_seq. lia.
Qed.

Lemma get_nth {A} (l : list A) (t : nat) (d : A) :
  (t < length l)%nat -> get l t = Ok (nth t l d).
Proof.
  intros H. unfold get. now rewrite (nth_error_nth' l d H).
Qed.

Lemma enumerate_from_index {A} (l : list A) (start idx : Z) (a : A) :
  In (idx, a) (enumerate_from start l) ->
  start <= idx < start + len l
  /\ nth_error l (Z.to_nat (idx - start)) = Some a.
Proof.
  revert start. induction l as [|b l IH]; intros start Hin; [easy|].
  unfold len. cbn [enumerate_from length] in *.
  destruct Hin as [Heq | Hin].
  - inversion Heq; subst. rewrite Z.sub_diag. split; [lia | reflexivity].
  - apply IH in Hin. unfold len in Hin. destruct Hin as [Hr Hn]. split; [lia|].
    replace (Z.to_nat (idx - start)) with (S (Z.to_nat (idx - (start + 1))))
      by lia.
    exact Hn.
Qed.

Lemma enumerate_py_index {A} (l : list A) (idx : Z) (a : A) :
  In (idx, a) (enumerate l) -> py_index l idx = Ok a.
Proof.
  intros Hin. apply enumerate_from_index in Hin. destruct Hin as [Hr Hn].
  unfold py_index. rewrite Z.sub_0_r in Hn.
  destruct (idx <? 0) eqn:E; [lia|].
  replace ((0 <=? idx) && (idx <? len l)) with true
    by (symmetry; apply andb_true_iff; split; lia).
  now rewrite Hn.
Qed.

(** ** Adjacency weight *)

(** C7. The claim gives every occupied cell that touches a side of the
    rectangle the weight 2.0 and every occupied cell that touches only a
    corner the weight 0.25.  The test of the code, [dx in [0, size_w] or
    dy in [0, size_h]], does something else.  For the 2 by 2 rectangle at
    (1, 1) of a 4 by 4 grid whose only occupied cell is the left neighbour
    (0, 2), the code returns 0.25 and not 2.0; for the 1 by 1 rectangle at
    (1, 1) of a 3 by 3 grid whose only occupied cell is the diagonal
    neighbour (0, 2), the code returns 2.0 and not 0.25. *)
Theorem C7_adjacent_weight_misses_sides :
  (_count_adjacent_pieces left_neighbour_stock 1 1 2 2 == 1 # 4)%Q
  /\ ~ (_count_adjacent_pieces left_neighbour_stock 1 1 2 2 == 2)%Q
  /\ (_count_adjacent_pieces diagonal_neighbour_stock 1 1 1 1 == 2)%Q
  /\ ~ (_count_adjacent_pieces diagonal_neighbour_stock 1 1 1 1 == 1 # 4)%Q.
Proof.
  repeat split; try (vm_compute; reflexivity);
    intros H; vm_compute in H; discriminate H.
Qed.

(** ** Corrected filled ratio *)

Lemma filled_ratio_loop (l : list Stock) (u a : Z) :
  fold_left filled_ratio_step l (u, a)
  = (u + sum_Z (map used_cells (filter any_used l)),
     a + sum_Z (map stock_area (filter any_used l))).
Proof.
  revert u a. induction l as [|s l IH]; intros u a; cbn [fold_left filter].
  - cbn. now rewrite !Z.add_0_r.
  - unfold filled_ratio_step at 2. destruct (any_used s) eqn:E.
    + cbn [_get_stock_size_]. rewrite IH. cbn [map].
      unfold sum_Z. cbn [fold_right]. fold (stock_area s).
      f_equal; symmetry; apply Z.add_assoc.
    + apply IH.
Qed.

(** C4. The corrected filled ratio is the number of occupied cells of the
    stocks that hold at least one occupied cell, divided by the total area
    of those same stocks (and 0 when that area is 0, so when no stock is
    used); an empty stock adds to neither sum.  With one empty 10 by 10
    stock, one half-filled 10 by 10 stock and one full 5 by 5 stock the
    ratio is (50 + 25) / (100 + 25) = 0.6. *)
Theorem C4_filled_ratio_over_used_stocks :
  (forall observation : Observation,
      let used_stocks := filter any_used (stocks observation) in
      let occupied := sum_Z (map used_cells used_stocks) in
      let total := sum_Z (map stock_area used_stocks) in
      calculate_filled_ratio observation
      = if 0 <? total then (inject_Z occupied / inject_Z total)%Q else 0%Q)
  /\ filter any_used (stocks three_stocks)
     = [half_filled_stock; full_stock 0 5 5]
  /\ (calculate_filled_ratio three_stocks
      == inject_Z (50 + 25) / inject_Z (100 + 25))%Q
  /\ (calculate_filled_ratio three_stocks == 6 # 10)%Q.
Proof.
  split; [|repeat split; vm_compute; reflexivity].
  intros observation. unfold calculate_filled_ratio.
  rewrite filled_ratio_loop. cbn zeta. now rewrite !Z.add_0_l.
Qed.

(** A used grid has a positive area, so the ratio of a rectangular
    observation with a used stock is a true quotient. *)
Lemma used_stock_area_positive (stock : Stock) :
  rectangular stock -> any_used stock = true -> 0 < stock_area stock.
Proof.
  unfold rectangular, any_used, stock_area. cbn [_get_stock_size_ fst snd].
  intros Hrect Hused. apply existsb_exists in Hused.
  destruct Hused as (row & Hin & Hrow).
  apply existsb_exists in Hrow. destruct Hrow as (c & Hc & _).
  rewrite Forall_forall in Hrect. specialize (Hrect row Hin).
  assert (0 < len row) by (unfold len; destruct row; [easy | cbn; lia]).
  assert (0 < shape0 stock)
    by (unfold shape0, len; destruct stock; [easy | cbn; lia]).
  nia.
Qed.

Lemma filled_ratio_of_used_stocks (observation : Observation) :
  Forall rectangular (stocks observation) ->
  existsb any_used (stocks observation) = true ->
  let used_stocks := filter any_used (stocks observation) in
  (calculate_filled_ratio observation
   == inject_Z (sum_Z (map used_cells used_stocks))
      / inject_Z (sum_Z (map stock_area used_stocks)))%Q
  /\ 0 < sum_Z (map stock_area used_stocks).
Proof.
  intros Hrect Hused. cbv zeta.
  assert (Hpos : 0 < sum_Z (map stock_area
                             (filter any_used (stocks observation)))).
  { apply existsb_exists in Hused. destruct Hused as (s0 & Hin & Hs0).
    assert (Hnonneg : forall l : list Stock,
      Forall rectangular l ->
      0 <= sum_Z (map stock_area (filter any_used l))).
    { induction 1 as [|s l Hs _ IH]; cbn [filter]; [cbn; lia|].
      destruct (any_used s) eqn:E; [|exact IH].
      cbn [map sum_Z fold_right]. fold (sum_Z (map stock_area
                                                 (filter any_used l))).
      pose proof (used_stock_area_positive Hs E). lia. }
    revert Hin. induction Hrect as [|s l Hs Hl IH]; intros Hin; [easy|].
    cbn [filter]. destruct Hin as [-> | Hin].
    - rewrite Hs0. cbn [map sum_Z fold_right].
      fold (sum_Z (map stock_area (filter any_used l))).
      pose proof (used_stock_area_positive Hs Hs0).
      pose proof (Hnonneg l Hl). lia.
    - destruct (any_used s) eqn:E; [|now apply IH].
      cbn [map sum_Z fold_right].
      fold (sum_Z (map stock_area (filter any_used l))).
      pose proof (used_stock_area_positive Hs E).
      specialize (IH Hin). lia. }
  split; [|exact Hpos].
  unfold calculate_filled_ratio. rewrite filled_ratio_loop.
  rewrite !Z.add_0_l.
  replace (0 <? _) with true by (symmetry; now apply Z.ltb_lt).
  reflexivity.
Qed.

(** ** Generalised advantage estimation *)

Section Trajectory.

Variables rewards values : list Q.
Variable dones : list bool.
Hypothesis values_length : length values = length rewards.
Hypothesis dones_length : length dones = length rewards.

Local Abbreviation next_value_at := (next_value_at rewards values).
Local Abbreviation advantage_at := (advantage_at rewards values dones).
Local Abbreviation gae_invariant := (gae_invariant rewards values dones).

Lemma gae_step_invariant (j : nat) (st : list Q * Q) :
  (j < length rewards)%nat ->
  gae_invariant (S j) st ->
  exists st', gae_step rewards values dones j st = Ok st'
              /\ gae_invariant j st'.
Proof.
  intros Hj (Hlen & Hgae & Hrec). destruct st as [advantages gae].
  cbn [fst snd] in *. unfold gae_step.
  assert (Hnext :
    (if Nat.eqb j (length rewards - 1) then Ok 0%Q else get values (j + 1))
    = Ok (next_value_at j)).
  { unfold next_value_at. destruct (Nat.eqb j (length rewards - 1)) eqn:E;
      [reflexivity|].
    apply Nat.eqb_neq in E. apply get_nth. lia. }
  rewrite Hnext. cbn [rbind].
  rewrite (get_nth rewards 0%Q Hj). cbn [rbind].
  rewrite (get_nth dones false) by lia. cbn [rbind].
  rewrite (get_nth values 0%Q) by lia. cbn [rbind].
  eexists. split; [reflexivity|].
  repeat split; cbn [fst snd length].
  - lia.
  - intros [|i] Hi.
    + cbn [nth]. rewrite Nat.add_0_r, Hgae. reflexivity.
    + cbn [nth]. rewrite Hrec by lia.
      now replace (S j + i)%nat with (j + S i)%nat by lia.
Qed.

Lemma gae_loop (j : nat) (st : list Q * Q) :
  (j <= length rewards)%nat ->
  gae_invariant j st ->
  exists st', for_result (gae_step rewards values dones)
                         (rev (seq 0 j)) st = Ok st'
              /\ gae_invariant 0 st'.
Proof.
  revert st. induction j as [|j IH]; intros st Hj Hinv.
  - exists st. split; [reflexivity | assumption].
  - rewrite seq_S, rev_app_distr. cbn [rev app for_result Nat.add].
    destruct (@gae_step_invariant j st) as (st1 & Hstep & Hinv1);
      [lia | assumption |].
    rewrite Hstep. cbn [rbind]. apply IH; [lia | assumption].
Qed.

Lemma compute_gae_recurrence :
  exists advantages,
    compute_gae rewards values dones = Ok advantages
    /\ length advantages = length rewards
    /\ forall t, (t < length rewards)%nat ->
         nth t advantages 0%Q
         = advantage_at t (nth (S t) advantages 0%Q).
Proof.
  destruct (@gae_loop (length rewards) ([], 0%Q)) as (st & Hrun & Hinv);
    [lia | |].
  - repeat split; cbn [fst snd length]; [lia | lia].
  - unfold compute_gae. rewrite Hrun. cbn [rbind].
    destruct Hinv as (Hlen & _ & Hrec). exists (fst st).
    split; [reflexivity|]. split; [lia|].
    intros t Ht. apply Hrec. lia.
Qed.

End Trajectory.

(** C3. For rewards, values and dones of one length n, [compute_gae] returns
    n advantages, and the advantage at every index t is
    delta + 0.99 * 0.95 * (1 - done[t]) * gae, where
    delta = reward[t] + 0.99 * V(t+1) * (1 - done[t]) - V(t), V(t+1) is 0 at
    the last index, and gae is the advantage at t + 1 (0 past the end: the
    loop runs from n - 1 down to 0).  For a single step that is done the
    advantage is reward[0] - value[0]. *)
Theorem C3_compute_gae_recurrence (rewards values : list Q)
  (dones : list bool) :
  length values = length rewards ->
  length dones = length rewards ->
  gamma = (99 # 100)%Q /\ gae_lambda = (95 # 100)%Q
  /\ exists advantages,
      compute_gae rewards values dones = Ok advantages
      /\ length advantages = length rewards
      /\ (forall t, (t < length rewards)%nat ->
            let next_value :=
              if Nat.eqb t (length rewards - 1) then 0%Q
              else nth (t + 1) values 0%Q in
            let live := (1 - of_bool (nth t dones false))%Q in
            let delta :=
              (nth t rewards 0 + gamma * next_value * live - nth t values 0)%Q
            in
            nth t advantages 0%Q
            = (delta + gamma * gae_lambda * live * nth (S t) advantages 0)%Q)
      /\ (length rewards = 1%nat -> nth 0 dones false = true ->
          (nth 0 advantages 0 == nth 0 rewards 0 - nth 0 values 0)%Q).
Proof.
  intros Hv Hd. split; [reflexivity|]. split; [reflexivity|].
  destruct (@compute_gae_recurrence rewards values dones Hv Hd)
    as (adv & Hrun & Hlen & Hrec).
  exists adv. split; [assumption|]. split; [assumption|]. split.
  - intros t Ht. exact (Hrec t Ht).
  - intros Hone Hdone. assert (H0 : (0 < length rewards)%nat) by lia.
    rewrite (Hrec 0%nat H0).
    unfold advantage_at, gae_update, next_value_at.
    rewrite Hone, Hdone. cbn [Nat.sub Nat.eqb of_bool]. ring.
Qed.

Lemma C3_compute_gae_recurrence_witness :
  length [1 # 2; 1 # 4]%Q = length [1; 2]%Q
  /\ length [false; true] = length [1; 2]%Q
  /\ exists advantages,
      compute_gae [1; 2]%Q [1 # 2; 1 # 4]%Q [false; true] = Ok advantages
      /\ length advantages = 2%nat.
Proof.
  split; [reflexivity|]. split; [reflexivity|].
  destruct (@C3_compute_gae_recurrence
              [1; 2]%Q [1 # 2; 1 # 4]%Q [false; true] eq_refl eq_refl)
    as (_ & _ & advantages & Hrun & Hlen & _).
  exists advantages. split; [exact Hrun | exact Hlen].
Defined.

(** ** The running normalizer *)

Lemma decay_nth (old : list Q) (scalar : Q) (i : nat) :
  (i < length old)%nat ->
  nth i (decay old scalar) 0%Q
  = ((99 # 100) * nth i old 0 + (1 # 100) * scalar)%Q.
Proof.
  intros Hi. unfold decay.
  rewrite (nth_indep _ 0%Q ((99 # 100) * 0 + (1 # 100) * scalar)%Q)
    by now rewrite length_map.
  exact (map_nth (fun o => ((99 # 100) * o + (1 # 100) * scalar)%Q) old 0%Q i).
Qed.

(** C8, as stated, fails.  The claim adds 0.01 times the feature's own new
    value to 0.99 times its old mean.  With the old mean (0, 0, 0) and the
    new state (0, 1, 2) that would give (0, 0.01, 0.02); the code adds 0.01
    times the mean of the whole state, 1, to every feature and gives
    (0.01, 0.01, 0.01). *)
Lemma C8_counterexample :
  next_state_mean [0; 0; 0]%Q [0; 1; 2]%Q
  = [(99 # 100) * 0 + (1 # 100) * (3 / 3);
     (99 # 100) * 0 + (1 # 100) * (3 / 3);
     (99 # 100) * 0 + (1 # 100) * (3 / 3)]%Q
  /\ ~ (forall i, (i < 3)%nat ->
          (nth i (next_state_mean [0; 0; 0] [0; 1; 2]) 0
           == (99 # 100) * nth i [0; 0; 0] 0 + (1 # 100) * nth i [0; 1; 2] 0)%Q).
Proof.
  split.
  - vm_compute. reflexivity.
  - intros H. specialize (H 0%nat ltac:(lia)). vm_compute in H. discriminate H.
Qed.

(** C8, amended.  The normalizer keeps a mean and a standard deviation per
    feature; [update_state_normalizer] replaces every feature's mean by 0.99
    times its old mean plus 0.01 times the mean of the new state over all its
    features, and every feature's standard deviation by 0.99 times its old
    value plus 0.01 times the standard deviation of the new state over all
    its features.  Nothing else of the policy changes. *)
Theorem C8_normalizer_uses_whole_state_statistics
  (Params OptState : Type) (sqrt : Q -> Q) (state : list Q)
  (self : Policy Params OptState) (mdl : Model Params OptState) :
  model self = Some mdl ->
  exists mdl',
    update_state_normalizer sqrt state self = (Ok tt, set_model mdl' self)
    /\ length (state_mean mdl') = length (state_mean mdl)
    /\ length (state_std mdl') = length (state_std mdl)
    /\ (forall i, (i < length (state_mean mdl))%nat ->
          nth i (state_mean mdl') 0%Q
          = ((99 # 100) * nth i (state_mean mdl) 0
             + (1 # 100) * tensor_mean state)%Q)
    /\ (forall i, (i < length (state_std mdl))%nat ->
          nth i (state_std mdl') 0%Q
          = ((99 # 100) * nth i (state_std mdl) 0
             + (1 # 100) * tensor_std sqrt state)%Q)
    /\ actor mdl' = actor mdl /\ critic mdl' = critic mdl
    /\ actor_optimizer mdl' = actor_optimizer mdl
    /\ critic_optimizer mdl' = critic_optimizer mdl.
Proof.
  intros Hmodel.
  exists (mkModel (actor mdl) (critic mdl) (actor_optimizer mdl)
                  (critic_optimizer mdl)
                  (next_state_mean (state_mean mdl) state)
                  (next_state_std sqrt (state_std mdl) state)).
  split.
  - unfold update_state_normalizer, bind, the_model, modify.
    rewrite Hmodel. reflexivity.
  - cbn [state_mean state_std actor critic actor_optimizer critic_optimizer].
    unfold next_state_mean, next_state_std.
    repeat split; try (unfold decay; now rewrite length_map);
      intros i Hi; now apply decay_nth.
Qed.

Lemma C8_normalizer_uses_whole_state_statistics_witness :
  let mdl := mkModel tt tt tt tt [0; 0; 0]%Q [1; 1; 1]%Q in
  let self := set_model mdl (@new_policy unit unit) in
  model self = Some mdl
  /\ exists mdl',
      update_state_normalizer (fun q => q) [0; 1; 2]%Q self
      = (Ok tt, set_model mdl' self)
      /\ (nth 0 (state_mean mdl') 0 == 1 # 100)%Q.
Proof.
  intros mdl self. split; [reflexivity|].
  destruct (@C8_normalizer_uses_whole_state_statistics
              unit unit (fun q => q) [0; 1; 2]%Q self mdl eq_refl)
    as (mdl' & Hrun & _ & _ & Hmean & _).
  exists mdl'. split; [exact Hrun|].
  rewrite (Hmean 0%nat ltac:(cbn; lia)). vm_compute. reflexivity.
Defined.

(** ** One decision *)

Lemma largest_step_without_demand (l : list Product) :
  Forall (fun prod => quantity prod <= 0) l ->
  fold_left largest_step l (None, 0) = (None, 0).
Proof.
  induction 1 as [|prod l Hq _ IH]; [reflexivity|].
  cbn [fold_left]. unfold largest_step at 2.
  destruct (0 <? quantity prod) eqn:E; [lia | exact IH].
Qed.

Lemma largest_product_without_demand (observation : Observation) :
  Forall (fun prod => quantity prod <= 0) (products observation) ->
  _get_largest_product observation = None.
Proof.
  intros H. unfold _get_largest_product.
  now rewrite largest_step_without_demand.
Qed.

Section Decision.

Variables Params OptState : Type.
Variable new_actor : Z -> Z -> Params.
Variable new_critic : Z -> Params.
Variable new_optimizer : Params -> OptState.
Variable evaluate_placement_pattern : Stock -> Z -> Z -> Z -> Z -> Q.
Variable _calculate_placement_score : Stock -> Z -> Z -> Z -> Z -> Z -> Z -> Q.
Variable randint : nat -> Z -> Z.
Variable sample_action :
  Policy Params OptState -> Observation -> Info -> Z
  -> result (list Q * Z * Q * Q).

Local Abbreviation decide :=
  (get_action new_actor new_critic new_optimizer evaluate_placement_pattern
              _calculate_placement_score randint sample_action).

Local Abbreviation initialise :=
  (initialize_networks new_actor new_critic new_optimizer).

(** With no demand left, [largest_product] is [None], the block that assigns
    [action] is skipped, and [action.item()] raises. *)
Lemma get_action_without_demand (observation : Observation) (info : Info)
  (self : Policy Params OptState) :
  Forall (fun prod => quantity prod <= 0) (products observation) ->
  decide observation info self
  = (Raise UnboundLocalError, snd (initialise observation self)).
Proof.
  intros H. unfold get_action.
  destruct (initialise observation self) as [d self1]. cbn [snd].
  unfold _get_structured_placement, learned_decision, choose_action.
  rewrite (largest_product_without_demand _ H).
  destruct (structured_first d self1 (total_quantity observation));
    reflexivity.
Qed.

(** The path after the structured strategy: the step counter stays (when an
    exception leaves the method) or advances by one. *)
Lemma fall_through_steps_by_one (observation : Observation) (info : Info)
  (self self1 : Policy Params OptState) :
  steps self1 = steps self ->
  let outcome :=
    learned_decision evaluate_placement_pattern _calculate_placement_score
                     randint sample_action observation info self1 in
  steps (snd outcome) = steps self \/ steps (snd outcome) = steps self + 1.
Proof.
  intros Hsteps. cbv zeta.
  match goal with
  | |- steps (snd ?o) = _ \/ _ => remember o as outcome eqn:Hout
  end.
  unfold learned_decision in Hout. unfold bind at 1 in Hout.
  assert (Hchoose :
    steps (snd (choose_action sample_action observation info self1))
    = steps self1).
  { unfold choose_action.
    destruct (_get_largest_product observation); [|reflexivity].
    destruct (find_best_fitting_stock observation (size p)); [|reflexivity].
    unfold bind, read, lift, modify, ret.
    destruct (sample_action self1 observation info z)
      as [[[[state action] value] log_prob]|e]; [|reflexivity].
    destruct (training self1); reflexivity. }
  destruct (choose_action sample_action observation info self1)
    as [[[action|]|e] self2]; cbn [snd] in Hchoose.
  - unfold bind, ret, modify in Hout.
    destruct (convert_action evaluate_placement_pattern randint action
                             observation (draws self2)) as [[placement|e] n];
      subst outcome; cbn [snd set_draws set_steps steps]; [right | left]; lia.
  - left. subst outcome. cbn. lia.
  - left. subst outcome. cbn. lia.
Qed.

(** C2.  In the scenario with one empty 10 by 10 stock and one 4 by 4 product
    of quantity 1, the first decision of a new policy returns the placement
    on stock 0 at (0, 0) with size (4, 4).  At the next decision, with the
    quantity at 0, the claim has the decision function return none; the code
    raises [UnboundLocalError] instead: no product is left, so the local
    variable [action] is never assigned before [action.item()] is read. *)
Theorem C2_second_decision_raises (info1 info2 : Info) :
  let first := decide first_observation info1 (new_policy Params OptState) in
  let second := decide second_observation info2 (snd first) in
  fst first = Ok (Some (mkAction 0 (4, 4) (0, 0)))
  /\ map quantity (products second_observation) = [0]
  /\ fst second = Raise UnboundLocalError
  /\ fst second <> Ok None.
Proof.
  cbv zeta. split; [vm_compute; reflexivity|]. split; [reflexivity|].
  rewrite get_action_without_demand
    by (repeat constructor; cbn; lia).
  split; [reflexivity | discriminate].
Qed.

(** C10.  When the structured strategy is tried and produces a placement,
    [get_action] returns that placement, appends nothing to the experience
    buffer and leaves the step counter as it was; so a decision after which
    the buffer or the step counter differs is one where the structured
    strategy was skipped or produced nothing, and then the counter has
    advanced by exactly one. *)
Theorem C10_structured_decision_leaves_buffer_and_steps
  (observation : Observation) (info : Info) (self : Policy Params OptState) :
  let d := fst (initialise observation self) in
  let self1 := snd (initialise observation self) in
  let tried := structured_first d self1 (total_quantity observation) in
  let outcome := decide observation info self in
  (forall placement,
      tried = true ->
      _get_structured_placement observation = Some placement ->
      fst outcome = Ok (Some placement)
      /\ memory (snd outcome) = memory self
      /\ steps (snd outcome) = steps self)
  /\ (memory (snd outcome) <> memory self
      \/ steps (snd outcome) <> steps self ->
      (tried = false \/ _get_structured_placement observation = None)
      /\ (steps (snd outcome) = steps self
          \/ steps (snd outcome) = steps self + 1)).
Proof.
  cbv zeta. unfold get_action.
  assert (Hinit : memory (snd (initialise observation self)) = memory self
                  /\ steps (snd (initialise observation self)) = steps self).
  { unfold initialize_networks. destruct (dims self); split; reflexivity. }
  destruct (initialise observation self) as [d self1]. cbn [fst snd] in *.
  destruct Hinit as [Hmem Hsteps]. split.
  - intros placement Htried Hplaced. rewrite Htried, Hplaced. cbn [fst snd].
    repeat split; assumption.
  - intros Hchanged.
    destruct (structured_first d self1 (total_quantity observation)) eqn:Et;
      [|split; [now left|]].
    + destruct (_get_structured_placement observation) eqn:Es;
        [|split; [now right|]].
      * cbn [fst snd] in Hchanged. tauto.
      * apply fall_through_steps_by_one. assumption.
    + apply fall_through_steps_by_one. assumption.
Qed.

Lemma new_policy_consistent : consistent (new_policy Params OptState).
Proof. split; [repeat split | now split]. Qed.

Lemma memory_add_aligned (m : PPOMemory) (state : list Q) (action : Z)
  (reward value log_prob : Q) (done : bool) :
  memory_aligned m ->
  memory_aligned (memory_add m state action reward value log_prob done).
Proof.
  unfold memory_aligned, memory_add. intros H.
  cbn [states actions rewards values log_probs dones].
  rewrite !length_app. cbn [length]. lia.
Qed.

(** [get_action] maintains [consistent]: an entry is buffered only after
    [initialize_networks] has created the networks. *)
Lemma get_action_consistent (observation : Observation) (info : Info)
  (self : Policy Params OptState) :
  consistent self -> consistent (snd (decide observation info self)).
Proof.
  intros [Haligned Hmodel]. unfold get_action.
  assert (Hinit :
    memory_aligned (memory (snd (initialise observation self)))
    /\ model (snd (initialise observation self)) <> None).
  { unfold initialize_networks. destruct (dims self) eqn:Ed; cbn [snd].
    - split; [exact Haligned|]. intros E.
      destruct (Hmodel E) as [Hd _]. congruence.
    - split; [exact Haligned | discriminate]. }
  destruct (initialise observation self) as [d self1]. cbn [snd] in Hinit.
  destruct Hinit as [Hal1 Hmo1].
  assert (Hgoal : forall s : Policy Params OptState,
    memory_aligned (memory s) -> model s <> None -> consistent s).
  { intros s Ha Hm. split; [exact Ha | intros E; contradiction]. }
  assert (Hrest :
    consistent (snd (learned_decision evaluate_placement_pattern
                       _calculate_placement_score randint sample_action
                       observation info self1))).
  { unfold learned_decision. unfold bind at 1.
    assert (Hchoose :
      memory_aligned
        (memory (snd (choose_action sample_action observation info self1)))
      /\ model (snd (choose_action sample_action observation info self1))
         <> None).
    { unfold choose_action.
      destruct (_get_largest_product observation); [|now split].
      destruct (find_best_fitting_stock observation (size p)); [|now split].
      unfold bind, read, lift, modify, ret.
      destruct (sample_action self1 observation info z)
        as [[[[state action] value] log_prob]|e]; [|now split].
      destruct (training self1); cbn [snd memory model set_memory set_draws];
        split; try assumption.
      now apply memory_add_aligned. }
    destruct (choose_action sample_action observation info self1)
      as [[[action|]|e] self2]; cbn [snd] in Hchoose;
      destruct Hchoose as [Hal2 Hmo2]; try (now apply Hgoal).
    unfold bind, ret, modify.
    destruct (convert_action evaluate_placement_pattern randint action
                             observation (draws self2)) as [[placement|e] n];
      cbn [snd]; now apply Hgoal. }
  destruct (structured_first d self1 (total_quantity observation));
    [destruct (_get_structured_placement observation)|];
    try exact Hrest.
  cbn [snd]. now apply Hgoal.
Qed.

End Decision.

(** ** The PPO update *)

Lemma set_last_length {A} (l l' : list A) (x : A) :
  set_last l x = Ok l' -> length l' = length l.
Proof.
  unfold set_last. destruct l as [|a l0] eqn:El; [discriminate|].
  rewrite <- El. intros H. injection H as <-.
  assert (Hne : l <> []) by (rewrite El; discriminate).
  pose proof (app_removelast_last a Hne) as E.
  apply (f_equal (@length A)) in E.
  rewrite length_app in *. cbn [length] in *. lia.
Qed.

Lemma set_last_nonempty {A} (l : list A) (x : A) :
  l <> [] -> exists l', set_last l x = Ok l'.
Proof.
  destruct l; [congruence | intros _; eexists; reflexivity].
Qed.

Section Update.

Variables Params OptState : Type.
Variable ppo_epoch :
  Model Params OptState -> PPOMemory -> Model Params OptState * (Q * Q).
Variable scheduler_step :
  Model Params OptState -> PPOMemory -> option (Q * Q)
  -> Model Params OptState.

Lemma epoch_loop_count (m : PPOMemory) (l : list Z)
  (st : Model Params OptState * option (Q * Q) * nat) :
  snd (fold_left (epoch_step ppo_epoch m) l st) = (snd st + length l)%nat.
Proof.
  revert st. induction l as [|x l IH]; intros st; cbn [fold_left length].
  - lia.
  - rewrite IH. destruct st as [[mdl ls] c]. unfold epoch_step.
    destruct (ppo_epoch mdl m). cbn [snd]. lia.
Qed.

(** [_update_networks] on a consistent policy: it returns, the buffer is as
    before, and ten losses are computed when the policy is training and the
    buffer is not empty, none otherwise. *)
Lemma update_networks_effect (self : Policy Params OptState) :
  (model self = None -> states (memory self) = []) ->
  exists self',
    _update_networks ppo_epoch scheduler_step self = (Ok tt, self')
    /\ memory self' = memory self
    /\ loss_computations self'
       = (loss_computations self
          + if training self && negb (len (states (memory self)) =? 0)%Z
            then 10 else 0)%nat
    /\ (training self = false \/ states (memory self) = [] -> self' = self)
    /\ dims self' = dims self
    /\ (model self' = None -> model self = None).
Proof.
  intros Hmodel. unfold _update_networks.
  destruct (negb (training self) || (len (states (memory self)) =? 0))
    eqn:Eskip.
  - exists self. split; [reflexivity|]. split; [reflexivity|].
    split; [|easy].
    apply orb_true_iff in Eskip. destruct Eskip as [Ht | Hl].
    + apply negb_true_iff in Ht. rewrite Ht. cbn. lia.
    + rewrite Hl. rewrite andb_false_r. lia.
  - apply orb_false_iff in Eskip. destruct Eskip as [Ht Hl].
    apply negb_false_iff in Ht.
    destruct (model self) as [mdl|] eqn:Em.
    + pose proof (epoch_loop_count (memory self) (range 0 num_epochs)
                    (mdl, last_losses self, loss_computations self)) as Hc.
      destruct (fold_left (epoch_step ppo_epoch (memory self))
                          (range 0 num_epochs)
                          (mdl, last_losses self, loss_computations self))
        as [[mdl' losses] count].
      cbn [snd] in Hc. rewrite range_length in Hc.
      eexists. split; [reflexivity|]. cbn [memory loss_computations].
      split; [reflexivity|]. split; [|split; [|split]].
      * rewrite Ht, Hl. cbn [andb negb]. rewrite Hc. reflexivity.
      * intros [Hf | He]; [congruence|].
        rewrite He in Hl. discriminate Hl.
      * reflexivity.
      * cbn [model]. discriminate.
    + rewrite (Hmodel eq_refl) in Hl. discriminate Hl.
Qed.

(** Writing the outcome into the last entry: the method returns, no list of
    the buffer changes its length, the networks and the loss counter stay,
    and with an empty buffer nothing is written at all. *)
Lemma close_last_entry_effect (reward : option Q) (done : bool)
  (info : option Info) (self : Policy Params OptState) :
  memory_aligned (memory self) ->
  exists self',
    close_last_entry reward done info self = (Ok tt, self')
    /\ memory_aligned (memory self')
    /\ length (states (memory self')) = length (states (memory self))
    /\ model self' = model self
    /\ training self' = training self
    /\ loss_computations self' = loss_computations self
    /\ dims self' = dims self
    /\ (states (memory self) = [] -> self' = self).
Proof.
  intros (Ha & Hr & Hv & Hl & Hd). unfold close_last_entry.
  destruct reward as [r|]; [|exists self; repeat split; easy].
  unfold bind at 1. unfold read at 1.
  destruct (0 <? len (rewards (memory self))) eqn:Epos.
  - assert (Hne : rewards (memory self) <> []).
    { intros E. rewrite E in Epos. discriminate Epos. }
    assert (Hne' : dones (memory self) <> []).
    { intros E. rewrite E in Hd. cbn in Hd.
      destruct (rewards (memory self)); [congruence|].
      cbn in Hr. lia. }
    destruct (set_last_nonempty r Hne) as (rewards' & Hrs).
    destruct (set_last_nonempty done Hne') as (dones' & Hds).
    pose proof (set_last_length _ _ Hrs) as Hrl.
    pose proof (set_last_length _ _ Hds) as Hdl.
    unfold bind, lift, modify. rewrite Hrs, Hds.
    assert (Hrec : forall s : Policy Params OptState,
      exists s', record_filled_ratio info s = (Ok tt, s')
                 /\ memory s' = memory s /\ model s' = model s
                 /\ training s' = training s
                 /\ loss_computations s' = loss_computations s
                 /\ dims s' = dims s).
    { intros s. unfold record_filled_ratio.
      destruct info as [[fr [obs|]]|];
        try (exists s; repeat split; reflexivity).
      unfold bind, read, lift, modify, ret.
      destruct (0 <? len (running_filled_ratio s)) eqn:E;
        [|exists s; repeat split; reflexivity].
      destruct (running_filled_ratio s) as [|x l]; [discriminate E|].
      eexists. repeat split; reflexivity. }
    match goal with
    | |- exists self', record_filled_ratio info ?s = _ /\ _ =>
        destruct (Hrec s) as (s' & Hrun & Hm & Hmo & Htr & Hlc & Hdi)
    end.
    exists s'. split; [exact Hrun|]. rewrite Hm, Hmo, Htr, Hlc, Hdi.
    cbn [memory set_memory model training loss_computations dims states
         actions rewards values log_probs dones].
    unfold memory_aligned.
    cbn [states actions rewards values log_probs dones].
    repeat split; try congruence.
    intros E. rewrite E in Hr. destruct (rewards (memory self)); easy.
  - exists self. repeat split; easy.
Qed.

(** C6.  On a consistent policy [update_policy] returns, and it runs the
    PPO update exactly when the buffer holds at least 128 entries: then the
    state after the call is the state after [_update_networks] with the
    buffer cleared, so the buffer has length 0 (and a training policy has
    computed ten losses); below 128 entries the state is the one left by
    closing the last entry, with the same networks, loss counter and buffer
    length.  With an empty buffer the call changes nothing and computes no
    loss, and neither does [_update_networks] called on its own. *)
Theorem C6_update_trigger_and_noop (reward : option Q) (done : bool)
  (info : option Info) (self : Policy Params OptState) :
  consistent self ->
  let closed := snd (close_last_entry reward done info self) in
  let outcome := update_policy ppo_epoch scheduler_step reward done info self in
  fst outcome = Ok tt
  /\ (128 <= len (states (memory self)) ->
      snd outcome
      = set_memory (mkMemory [] [] [] [] [] [])
          (snd (_update_networks ppo_epoch scheduler_step closed))
      /\ len (states (memory (snd outcome))) = 0
      /\ loss_computations (snd outcome)
         = (loss_computations self + if training self then 10 else 0)%nat)
  /\ (len (states (memory self)) < 128 ->
      snd outcome = closed
      /\ model (snd outcome) = model self
      /\ loss_computations (snd outcome) = loss_computations self
      /\ len (states (memory (snd outcome))) = len (states (memory self)))
  /\ (states (memory self) = [] ->
      snd outcome = self
      /\ loss_computations (snd outcome) = loss_computations self
      /\ _update_networks ppo_epoch scheduler_step self = (Ok tt, self)).
Proof.
  intros [Haligned Hmodel] closed outcome.
  destruct (@close_last_entry_effect reward done info self Haligned)
    as (self1 & Hclose & Hal1 & Hlen & Hmo & Htr & Hlc & _ & Hnoop).
  assert (Hlen' : len (states (memory self1)) = len (states (memory self)))
    by (unfold len; now rewrite Hlen).
  assert (Hmodel1 : model self1 = None -> states (memory self1) = []).
  { intros E. rewrite Hmo in E. destruct (Hmodel E) as [_ Hempty].
    rewrite Hempty in Hlen. now destruct (states (memory self1)). }
  destruct (@update_networks_effect self1 Hmodel1)
    as (self2 & Hupd & Hmem2 & Hlc2 & _).
  clear Hal1.
  assert (Hclosed : closed = self1) by (subst closed; now rewrite Hclose).
  assert (Hout :
    outcome
    = if 128 <=? len (states (memory self1))
      then (Ok tt, set_memory (mkMemory [] [] [] [] [] []) self2)
      else (Ok tt, self1)).
  { subst outcome. unfold update_policy, bind, read, modify, ret.
    rewrite Hclose.
    destruct (128 <=? len (states (memory self1))); [rewrite Hupd|];
      reflexivity. }
  clearbody closed outcome. subst closed outcome. rewrite Hupd.
  destruct (128 <=? len (states (memory self1))) eqn:Etrig; cbn [fst snd].
  - split; [reflexivity|]. split; [|split; [lia|]].
    + intros _. split; [reflexivity|]. split; [reflexivity|].
      cbn [loss_computations set_memory]. rewrite Hlc2, Hlc, Htr.
      replace (negb (len (states (memory self1)) =? 0)) with true
        by (symmetry; apply negb_true_iff; lia).
      now rewrite andb_true_r.
    + intros E. rewrite E in Hlen'. cbn in Hlen'. lia.
  - split; [reflexivity|]. split; [lia|]. split.
    + intros _. repeat split; congruence.
    + intros E. rewrite (Hnoop E). split; [reflexivity|].
      split; [reflexivity|].
      unfold _update_networks. rewrite E. cbn [length len Z.of_nat Z.eqb].
      now rewrite orb_true_r.
Qed.

(** [update_policy] maintains [consistent]. *)
Lemma update_policy_consistent (reward : option Q) (done : bool)
  (info : option Info) (self : Policy Params OptState) :
  consistent self ->
  consistent (snd (update_policy ppo_epoch scheduler_step reward done info
                                 self)).
Proof.
  intros [Haligned Hmodel].
  destruct (@close_last_entry_effect reward done info self Haligned)
    as (self1 & Hclose & Hal1 & Hlen & Hmo & _ & _ & Hdi & _).
  assert (Hmodel1 : model self1 = None ->
                    dims self1 = None /\ states (memory self1) = []).
  { intros E. rewrite Hmo in E. destruct (Hmodel E) as [Hd Hempty].
    rewrite Hdi. split; [exact Hd|].
    rewrite Hempty in Hlen. now destruct (states (memory self1)). }
  destruct (@update_networks_effect self1 (fun E => proj2 (Hmodel1 E)))
    as (self2 & Hupd & Hmem2 & _ & _ & Hdi2 & Hmo2).
  unfold update_policy, bind, read, modify, ret. rewrite Hclose.
  destruct (128 <=? len (states (memory self1))).
  - rewrite Hupd. cbn [snd]. split.
    + repeat split.
    + cbn [model dims set_memory memory memory_clear states].
      intros E. split; [|reflexivity].
      rewrite Hdi2. now apply Hmodel1, Hmo2.
  - cbn [snd]. split; assumption.
Qed.

End Update.

Lemma C6_update_trigger_and_noop_witness :
  let epoch := fun (mdl : Model unit unit) (_ : PPOMemory) => (mdl, (0, 0)%Q) in
  let schedule :=
    fun (mdl : Model unit unit) (_ : PPOMemory) (_ : option (Q * Q)) => mdl in
  consistent (policy_with (buffer_of 128))
  /\ fst (update_policy epoch schedule (Some 1%Q) true None
                        (policy_with (buffer_of 128))) = Ok tt
  /\ len (states (memory (snd
       (update_policy epoch schedule (Some 1%Q) true None
                      (policy_with (buffer_of 128)))))) = 0.
Proof.
  intros epoch schedule.
  assert (H : consistent (policy_with (buffer_of 128))).
  { split; [repeat split | discriminate]. }
  split; [exact H|].
  destruct (@C6_update_trigger_and_noop
              unit unit epoch schedule (Some 1%Q) true None
              (policy_with (buffer_of 128)) H)
    as (Hok & Htrig & _).
  split; [exact Hok|].
  apply Htrig. vm_compute. discriminate.
Defined.

(** ** Loading a checkpoint *)

Section Checkpoints.

Variables Params OptState : Type.
Variable torch_load : String.string -> result (Checkpoint Params OptState).
Variable load_state_dict : Params -> Params -> Params * bool.
Variable optimizer_load_state_dict : OptState -> OptState -> OptState * bool.

Local Abbreviation load :=
  (load_model torch_load load_state_dict optimizer_load_state_dict).
Local Abbreviation try_load :=
  (load_model_try torch_load load_state_dict optimizer_load_state_dict).
Local Abbreviation kept := (@kept_by_failed_load Params OptState).

Lemma kept_refl (s : Policy Params OptState) : kept s s.
Proof. unfold kept_by_failed_load. repeat split; auto. Qed.

Lemma kept_trans (s1 s2 s3 : Policy Params OptState) :
  kept s1 s2 -> kept s2 s3 -> kept s1 s3.
Proof.
  unfold kept_by_failed_load. intros H1 H2.
  repeat match goal with H : _ /\ _ |- _ => destruct H end.
  repeat split; try congruence; auto.
Qed.

Ltac kept_after_failure Hrun Em :=
  injection Hrun as _ <-;
  unfold kept_by_failed_load;
  cbn [set_model dims training memory steps running_filled_ratio
       last_losses loss_computations draws model];
  rewrite ?Em; cbn [option_map state_std];
  repeat split; try reflexivity; intros; discriminate.

(** Whatever step of the [try] block raises, what [kept_by_failed_load]
    lists is as before. *)
Lemma load_model_try_failure (filename : String.string)
  (s s' : Policy Params OptState) (e : exn) :
  try_load filename s = (Raise e, s') -> kept s s'.
Proof.
  intros Hrun.
  unfold load_model_try, checked in Hrun.
  unfold bind, lift, the_model, key, modify, ret, raise in Hrun.
  destruct (torch_load filename) as [ck|e0];
    [|injection Hrun as _ <-; apply kept_refl].
  destruct (model s) as [mdl|] eqn:Em;
    [|injection Hrun as _ <-; apply kept_refl].
  destruct (actor_state_dict ck) as [sd1|];
    [|injection Hrun as _ <-; apply kept_refl].
  destruct (load_state_dict (actor mdl) sd1) as [a1 [|]];
    cbn [fst snd set_model model actor critic actor_optimizer
         critic_optimizer state_mean state_std] in Hrun;
    [|kept_after_failure Hrun Em].
  destruct (critic_state_dict ck) as [sd2|];
    [|kept_after_failure Hrun Em].
  destruct (load_state_dict (critic mdl) sd2) as [a2 [|]];
    cbn [fst snd set_model model actor critic actor_optimizer
         critic_optimizer state_mean state_std] in Hrun;
    [|kept_after_failure Hrun Em].
  destruct (actor_optimizer_state_dict ck) as [sd3|];
    [|kept_after_failure Hrun Em].
  destruct (optimizer_load_state_dict (actor_optimizer mdl) sd3) as [a3 [|]];
    cbn [fst snd set_model model actor critic actor_optimizer
         critic_optimizer state_mean state_std] in Hrun;
    [|kept_after_failure Hrun Em].
  destruct (critic_optimizer_state_dict ck) as [sd4|];
    [|kept_after_failure Hrun Em].
  destruct (optimizer_load_state_dict (critic_optimizer mdl) sd4)
    as [a4 [|]];
    cbn [fst snd set_model model actor critic actor_optimizer
         critic_optimizer state_mean state_std] in Hrun;
    [|kept_after_failure Hrun Em].
  destruct (checkpoint_state_mean ck) as [mean|];
    [|kept_after_failure Hrun Em].
  cbn [fst snd set_model model actor critic actor_optimizer
       critic_optimizer state_mean state_std] in Hrun.
  destruct (checkpoint_state_std ck) as [std|];
    [discriminate Hrun | kept_after_failure Hrun Em].
Qed.

(** C9, amended.  [load_model] never raises: it returns a boolean.  When the
    bundle cannot be read (missing or corrupt file), or the networks do not
    exist yet, it returns false and the policy is exactly as before.  Every
    other failing load returns false as well and leaves everything outside
    the checkpointed attributes, and the normalizer's standard deviation, as
    before; the actor, the critic, the optimizers and the normalizer's mean
    are assigned one after the other and may already hold what the bundle
    gave them. *)
Theorem C9_failed_load_keeps_the_rest (filename : String.string)
  (self : Policy Params OptState) :
  (forall e, torch_load filename = Raise e -> load filename self = (false, self))
  /\ (model self = None -> load filename self = (false, self))
  /\ (fst (load filename self) = false ->
      kept self (snd (load filename self))).
Proof.
  unfold load_model. split; [|split].
  - intros e He. unfold load_model_try, bind, lift. now rewrite He.
  - intros Hm. unfold load_model_try, bind, lift, the_model. rewrite Hm.
    destruct (torch_load filename); reflexivity.
  - destruct (try_load filename self) as [[u|e] s'] eqn:Hrun; cbn [fst snd].
    + discriminate.
    + intros _. eapply load_model_try_failure. exact Hrun.
Qed.

(** [load_model] maintains [consistent]: it leaves the dimensions and the
    buffer, and it creates or removes no model. *)
Lemma load_model_consistent (filename : String.string)
  (self : Policy Params OptState) :
  consistent self -> consistent (snd (load filename self)).
Proof.
  intros [Haligned Hmodel].
  assert (Hframe :
    dims (snd (try_load filename self)) = dims self
    /\ memory (snd (try_load filename self)) = memory self
    /\ (model (snd (try_load filename self)) = None -> model self = None)).
  { unfold load_model_try, checked.
    unfold bind, lift, the_model, key, modify, ret, raise.
    destruct (torch_load filename) as [ck|e0]; [|now repeat split].
    destruct (model self) as [mdl|] eqn:Em; [|now repeat split].
    repeat first
      [ progress cbn [fst snd set_model model dims memory]
      | match goal with
        | |- context [match ?x with Some _ => _ | None => _ end] =>
            destruct x
        | |- context [if snd ?x then _ else _] => destruct x as [? [|]]
        end ];
      repeat split; try discriminate; congruence. }
  destruct Hframe as (Hd & Hm & Hmo). unfold load_model.
  destruct (try_load filename self) as [[u|e] s']; cbn [snd] in *;
    (split; [now rewrite Hm|]); intros E; rewrite Hd, Hm; now apply Hmodel, Hmo.
Qed.

End Checkpoints.

(** C9, as stated, fails.  The bundle read from the file has an actor entry
    of the right shape and a critic entry of the wrong one.  The load fails
    and returns false, but the actor's parameters (1, 1) have already been
    replaced by the bundle's (5, 5). *)
Lemma C9_counterexample :
  let outcome :=
    load_model (fun _ => Ok mismatched_bundle) load_same_shape load_same_shape
               "checkpoint.pt"%string small_policy in
  fst outcome = false
  /\ option_map (@actor _ _) (model small_policy) = Some [1; 1]
  /\ option_map (@actor _ _) (model (snd outcome)) = Some [5; 5]
  /\ snd outcome <> small_policy.
Proof.
  cbv zeta. repeat split; try reflexivity.
  intros H. apply (f_equal (fun s => option_map (@actor _ _) (model s))) in H.
  vm_compute in H. discriminate H.
Qed.

Lemma C9_failed_load_keeps_the_rest_witness :
  let outcome :=
    load_model (fun _ => Ok mismatched_bundle) load_same_shape load_same_shape
               "checkpoint.pt"%string small_policy in
  fst outcome = false
  /\ memory (snd outcome) = memory small_policy
  /\ option_map (@state_std _ _) (model (snd outcome)) = Some [1]%Q.
Proof.
  intros outcome.
  assert (Hfail : fst outcome = false) by reflexivity.
  split; [exact Hfail|].
  destruct (@C9_failed_load_keeps_the_rest
              (list Z) (list Z) (fun _ => Ok mismatched_bundle)
              load_same_shape load_same_shape "checkpoint.pt"%string
              small_policy) as (_ & _ & Hkept).
  destruct (Hkept Hfail) as (_ & _ & Hmem & _ & _ & _ & _ & _ & Hstd & _).
  split; [exact Hmem | exact Hstd].
Defined.

(** ** Greedy search *)

Lemma for_each_app {A S R} (body : A -> S -> R + S) (l1 l2 : list A) (s : S) :
  for_each body (l1 ++ l2) s
  = match for_each body l1 s with
    | inl r => inl r
    | inr s' => for_each body l2 s'
    end.
Proof.
  revert s. induction l1 as [|a l1 IH]; intros s; cbn [app for_each].
  - reflexivity.
  - destruct (body a s); [reflexivity | apply IH].
Qed.

Lemma for_each_map {A B S R} (f : A -> B) (body : B -> S -> R + S)
  (l : list A) (s : S) :
  for_each body (map f l) s = for_each (fun a => body (f a)) l s.
Proof.
  revert s. induction l as [|a l IH]; intros s; cbn [map for_each].
  - reflexivity.
  - destruct (body (f a) s); [reflexivity | apply IH].
Qed.

(** A property of the loop state that every iteration going on preserves
    holds when the loop goes on to its end. *)
Lemma for_each_invariant {A S R} (I : S -> Prop) (body : A -> S -> R + S)
  (l : list A) :
  (forall a s s', I s -> body a s = inr s' -> I s') ->
  forall s s', I s -> for_each body l s = inr s' -> I s'.
Proof.
  intros Hbody. induction l as [|a l IH]; intros s s' Hs Hrun;
    cbn [for_each] in Hrun.
  - now injection Hrun as <-.
  - destruct (body a s) as [r|s1] eqn:E; [discriminate|].
    eapply IH; [eapply Hbody; eassumption | exact Hrun].
Qed.

(** Two nested loops are one loop over the concatenated inner ranges. *)
Lemma for_each_nested {A B S R} (I : S -> Prop) (f : A -> list B)
  (outer : A -> S -> R + S) (body : B -> S -> R + S) (l : list A) :
  (forall a s, I s -> outer a s = for_each body (f a) s) ->
  (forall b s s', I s -> body b s = inr s' -> I s') ->
  forall s, I s -> for_each outer l s = for_each body (flat_map f l) s.
Proof.
  intros Houter Hbody. induction l as [|a l IH]; intros s Hs;
    cbn [for_each flat_map].
  - reflexivity.
  - rewrite for_each_app, Houter by exact Hs.
    destruct (for_each body (f a) s) as [r|s1] eqn:E; [reflexivity|].
    apply IH. eapply for_each_invariant; eassumption.
Qed.

(** A loop left by [return] was left by one of its iterations. *)
Lemma for_each_returned {A S R} (body : A -> S -> R + S) (l : list A)
  (s : S) (r : R) :
  for_each body l s = inl r -> exists a s0, In a l /\ body a s0 = inl r.
Proof.
  revert s. induction l as [|a l IH]; intros s Hrun; cbn [for_each] in Hrun.
  - discriminate.
  - destruct (body a s) as [r1|s1] eqn:E.
    + injection Hrun as ->. exists a, s. split; [now left | exact E].
    + destruct (IH _ Hrun) as (b & s0 & Hin & Hb).
      exists b, s0. split; [now right | exact Hb].
Qed.

Section Greedy.

Variable score_of : Stock -> Z -> Z -> Z -> Z -> Z -> Z -> Q.

Lemma visit_continues (c : Candidate) (st st' : GreedyState) :
  within_budget st -> visit score_of c st = inr st' -> within_budget st'.
Proof.
  unfold within_budget, visit, greedy_position. intros Hst Hrun.
  destruct (max_attempts <=? attempts st + 1) eqn:E; [discriminate|].
  destruct (_can_place_ _ _ _);
    [destruct (better _ _)|]; injection Hrun as <-; cbn [attempts]; lia.
Qed.

Lemma greedy_stock_flat (prod : Product) (prod_size : Z * Z)
  (entry : Z * Stock) (st : GreedyState) :
  within_budget st ->
  greedy_stock score_of prod prod_size entry st
  = for_each (visit score_of) (stock_candidates prod prod_size entry) st.
Proof.
  intros Hst. unfold greedy_stock, stock_candidates.
  destruct entry as [stock_idx stock]. cbn [fst snd].
  replace (max_attempts <=? attempts st) with false
    by (symmetry; apply Z.leb_gt; apply Hst).
  unfold _get_stock_size_.
  destruct ((shape1 stock <? fst prod_size)
            || (shape0 stock <? snd prod_size)); [reflexivity|].
  apply (for_each_nested within_budget); [| |exact Hst].
  - intros y s _. now rewrite for_each_map.
  - intros c s s'. apply visit_continues.
Qed.

Lemma greedy_product_flat (observation : Observation) (prod : Product)
  (st : GreedyState) :
  within_budget st ->
  greedy_product score_of observation prod st
  = for_each (visit score_of)
      (flat_map (fun prod_size =>
           flat_map (stock_candidates prod prod_size)
                    (enumerate (stocks observation)))
         (orientations prod)) st.
Proof.
  intros Hst. unfold greedy_product.
  apply (for_each_nested within_budget); [| |exact Hst].
  - intros prod_size s Hs.
    apply (for_each_nested within_budget); [| |exact Hs].
    + intros entry s0 Hs0. now apply greedy_stock_flat.
    + intros c s0 s'. apply visit_continues.
  - intros c s s'. apply visit_continues.
Qed.

(** The five loops are one loop over [greedy_candidates]. *)
Lemma greedy_run_flat (observation : Observation) :
  greedy_run score_of observation
  = final_state (for_each (visit score_of) (greedy_candidates observation)
                          (mkGreedy None None 0 0)).
Proof.
  unfold greedy_run, greedy_candidates.
  set (prods := sorted_by_area _).
  assert (Hstart : within_budget (mkGreedy None None 0 0))
    by (unfold within_budget, max_attempts; cbn; lia).
  assert (Hflat :
    for_each (greedy_product score_of observation) prods
             (mkGreedy None None 0 0)
    = for_each (visit score_of)
        (flat_map (fun prod =>
             flat_map (fun prod_size =>
                 flat_map (stock_candidates prod prod_size)
                          (enumerate (stocks observation)))
               (orientations prod)) prods)
        (mkGreedy None None 0 0)).
  { apply (for_each_nested within_budget); [| |exact Hstart].
    - intros prod s Hs. now apply greedy_product_flat.
    - intros c s s'. apply visit_continues. }
  rewrite <- Hflat. destruct prods; [reflexivity|].
  now destruct (for_each _ _ _).
Qed.

(** One candidate: either the counter reaches the budget and the search
    returns without testing it, or it is tested and considered. *)
Lemma visit_step (c : Candidate) (st : GreedyState) :
  (max_attempts <= attempts st + 1
   /\ visit score_of c st
      = inl (mkGreedy (best_action st) (best_score st) (attempts st + 1)
                      (tests st)))
  \/ (attempts st + 1 < max_attempts
      /\ exists st1,
          visit score_of c st = inr st1
          /\ (best_action st1, best_score st1)
             = consider score_of (best_action st, best_score st) c
          /\ attempts st1 = attempts st + 1
          /\ tests st1 = S (tests st)).
Proof.
  unfold visit, greedy_position, consider, candidate_fits, candidate_score.
  unfold _get_stock_size_. cbn [fst snd].
  destruct (max_attempts <=? attempts st + 1) eqn:E.
  - left. apply Z.leb_le in E. split; [exact E | reflexivity].
  - right. apply Z.leb_gt in E. split; [exact E|].
    destruct (_can_place_ _ _ _); [destruct (better _ _)|];
      eexists; repeat split.
Qed.

(** The single loop: it tests candidates until the counter reaches the
    budget, and keeps the best of those it tested. *)
Lemma visit_all (cands : list Candidate) (st : GreedyState) :
  within_budget st ->
  let fs := final_state (for_each (visit score_of) cands st) in
  (best_action fs, best_score fs)
  = fold_left (consider score_of)
      (firstn (Z.to_nat (max_attempts - 1 - attempts st)) cands)
      (best_action st, best_score st)
  /\ tests fs
     = (tests st
        + Nat.min (length cands) (Z.to_nat (max_attempts - 1 - attempts st)))%nat
  /\ attempts fs
     = attempts st
       + Z.of_nat (Nat.min (length cands)
                           (Z.to_nat (max_attempts - attempts st))).
Proof.
  revert st. induction cands as [|c cands IH]; intros st Hst; cbv zeta.
  - cbn [for_each final_state length Nat.min]. rewrite firstn_nil.
    cbn [fold_left]. repeat split; lia.
  - cbn [for_each]. unfold within_budget in Hst.
    destruct (visit_step c st) as [[E Hv] | (E & st1 & Hv & Hbest & Hatt & Ht)];
      rewrite Hv.
    + cbn [final_state best_action best_score tests attempts].
      replace (Z.to_nat (max_attempts - 1 - attempts st)) with 0%nat by lia.
      replace (Z.to_nat (max_attempts - attempts st)) with 1%nat by lia.
      cbn [firstn fold_left length]. repeat split; try reflexivity; lia.
    + assert (Hst1 : within_budget st1) by (unfold within_budget; lia).
      destruct (IH st1 Hst1) as (Hb & Hts & Ha). cbv zeta in *.
      rewrite Hb, Hts, Ha, Hbest, Hatt, Ht.
      replace (Z.to_nat (max_attempts - 1 - attempts st))
        with (S (Z.to_nat (max_attempts - 1 - (attempts st + 1)))) by lia.
      replace (Z.to_nat (max_attempts - attempts st))
        with (S (Z.to_nat (max_attempts - (attempts st + 1)))) by lia.
      cbn [firstn fold_left length]. repeat split; try reflexivity; lia.
Qed.

(** What is kept after the candidates [l] have been considered: nothing
    when none of them could be placed, otherwise one of them that could be
    placed and that no other such candidate beats. *)
Lemma consider_fold (l : list Candidate) :
  kept_best score_of l (fold_left (consider score_of) l (None, None)).
Proof.
  induction l as [|c l IH] using rev_ind.
  - cbn [fold_left]. unfold kept_best. cbn [fst snd].
    repeat split; try discriminate; easy.
  - rewrite fold_left_app. cbn [fold_left].
    set (r := fold_left (consider score_of) l (None, None)) in *.
    destruct IH as (Hshape & Hnone & Hsome).
    unfold consider.
    destruct (candidate_fits c && better (candidate_score score_of c) (snd r))
      eqn:E.
    + apply andb_true_iff in E. destruct E as [Ef Eb].
      unfold kept_best. cbn [fst snd].
      split; [split; discriminate|]. split; [discriminate|].
      intros a s Heq. injection Heq as <- <-. split.
      * exists c. split; [apply in_or_app; right; now left|]. now repeat split.
      * intros c' Hin Hf'. apply in_app_or in Hin.
        destruct Hin as [Hin | [<- | []]]; [|apply Qle_refl].
        destruct r as [[a0|] [b|]]; cbn [fst snd] in *.
        -- destruct (Hsome a0 b eq_refl) as [_ Hmax].
           apply Qle_trans with b; [now apply Hmax|].
           apply negb_true_iff in Eb. apply Qlt_le_weak, Qnot_le_lt.
           intros Hle. apply Qle_bool_iff in Hle. congruence.
        -- destruct Hshape as [_ H]. discriminate (H eq_refl).
        -- destruct Hshape as [H _]. discriminate (H eq_refl).
        -- rewrite (Hnone eq_refl c' Hin) in Hf'. discriminate Hf'.
    + unfold kept_best. split; [exact Hshape|]. split.
      * intros Hr c' Hin. apply in_app_or in Hin.
        destruct Hin as [Hin | [<- | []]]; [now apply Hnone|].
        destruct Hshape as [Hs _]. rewrite (Hs Hr) in E. cbn [better] in E.
        now rewrite andb_true_r in E.
      * intros a s Heq. destruct (Hsome a s Heq) as [(c0 & Hin & Hc0) Hmax].
        split.
        -- exists c0. split; [apply in_or_app; now left | exact Hc0].
        -- intros c' Hin' Hf'. apply in_app_or in Hin'.
           destruct Hin' as [Hin' | [<- | []]]; [now apply Hmax|].
           rewrite Heq in E. cbn [snd better] in E. rewrite Hf' in E.
           cbn [andb] in E. apply negb_false_iff in E.
           now apply Qle_bool_iff.
Qed.

(** C5.  The greedy search is a loop over the candidates in the order of its
    five nested loops.  Its counter [attempts] ends at the number of
    candidates or at 1000, whichever is smaller; it calls [_can_place_] on
    the candidates before the 1000th only, so at most 999 times; and what it
    returns is what was kept from the candidates it tested: none when none
    of them could be placed, otherwise one of them that could be placed and
    whose score none of the others that could be placed exceeds.  The model
    is a total function: the search returns for every observation. *)
Theorem C5_greedy_search_within_budget (observation : Observation) :
  let final := greedy_run score_of observation in
  let cands := greedy_candidates observation in
  let tested := firstn 999 cands in
  max_attempts = 1000
  /\ attempts final = Z.of_nat (Nat.min (length cands) 1000)
  /\ attempts final <= 1000
  /\ tests final = length tested
  /\ (tests final <= 999)%nat
  /\ _get_greedy_action score_of observation
     = fst (fold_left (consider score_of) tested (None, None))
  /\ (_get_greedy_action score_of observation = None <->
      forall c, In c tested -> candidate_fits c = false)
  /\ (forall a, _get_greedy_action score_of observation = Some a ->
      exists c, In c tested /\ candidate_fits c = true
                /\ a = candidate_action c
                /\ forall c', In c' tested -> candidate_fits c' = true ->
                      (candidate_score score_of c'
                       <= candidate_score score_of c)%Q).
Proof.
  cbv zeta. unfold _get_greedy_action. rewrite greedy_run_flat.
  assert (Hstart : within_budget (mkGreedy None None 0 0))
    by (unfold within_budget, max_attempts; cbn; lia).
  destruct (visit_all (greedy_candidates observation) Hstart)
    as (Hbest & Htests & Hattempts).
  cbv zeta in Hbest, Htests, Hattempts.
  set (final := final_state _) in *.
  cbn [attempts tests best_action best_score] in Hbest, Htests, Hattempts.
  change (Z.to_nat (max_attempts - 1 - 0)) with 999%nat in *.
  change (Z.to_nat (max_attempts - 0)) with 1000%nat in *.
  pose proof (consider_fold (firstn 999 (greedy_candidates observation)))
    as (Hshape & Hnone & Hsome).
  rewrite <- Hbest in Hshape, Hnone, Hsome. cbn [fst snd] in *.
  rewrite length_firstn.
  split; [reflexivity|]. split; [lia|]. split; [lia|]. split; [lia|].
  split; [lia|]. split; [now rewrite <- Hbest|]. split.
  - split; [exact Hnone|].
    intros Hall. destruct (best_action final) as [a|] eqn:Ea; [|reflexivity].
    destruct (best_score final) as [s|] eqn:Es.
    + destruct (Hsome a s eq_refl) as [(c & Hin & Hf & _) _].
      rewrite (Hall c Hin) in Hf. discriminate Hf.
    + destruct Hshape as [_ H]. discriminate (H eq_refl).
  - intros a Ha. destruct (best_score final) as [s|] eqn:Es.
    + rewrite Ha in Hsome.
      destruct (Hsome a s eq_refl) as [(c & Hin & Hf & Hact & Hsc) Hmax].
      exists c. repeat split; try assumption.
      intros c' Hin' Hf'. rewrite <- Hsc. now apply Hmax.
    + destruct Hshape as [_ H]. rewrite Ha in H. discriminate (H eq_refl).
Qed.

End Greedy.

(** ** Every strategy returns a placement that can be placed *)

Lemma can_place_rectangle_free (stock : Stock) (a : Action) :
  _can_place_ stock (position a) (action_size a) = true <->
  rectangle_free stock a.
Proof.
  unfold _can_place_, rectangle_free.
  destruct (position a) as [pos_x pos_y].
  destruct (action_size a) as [prod_w prod_h]. cbn [_get_stock_size_].
  rewrite !andb_true_iff, !Z.leb_le, forallb_forall. split.
  - intros [[[[Hx Hy] Hw] Hh] Hcells]. repeat split; try assumption.
    intros x y Hxr Hyr. specialize (Hcells y (proj2 (range_In _ _ _) Hyr)).
    rewrite forallb_forall in Hcells.
    specialize (Hcells x (proj2 (range_In _ _ _) Hxr)).
    destruct (cell_at stock y x) as [c|]; [|discriminate].
    apply Z.eqb_eq in Hcells. now subst c.
  - intros (Hx & Hy & Hw & Hh & Hcells). repeat split; try assumption.
    intros y Hyr. apply forallb_forall. intros x Hxr.
    apply range_In in Hyr. apply range_In in Hxr.
    now rewrite (Hcells x y Hxr Hyr).
Qed.

Lemma structured_placement_accepted (observation : Observation) (a : Action) :
  _get_structured_placement observation = Some a ->
  exists stock, placement_accepted observation a stock.
Proof.
  unfold _get_structured_placement.
  destruct (_get_largest_product observation) as [largest|]; [|discriminate].
  destruct (for_each _ _ _) as [r|u] eqn:E; [|discriminate].
  intros H. injection H as ->.
  apply for_each_returned in E. destruct E as ([idx stock] & [] & Hin & Hbody).
  unfold structured_in_stock in Hbody. cbn [_get_stock_size_] in Hbody.
  destruct (find _ _) as [pos|] eqn:Ef; [|discriminate].
  injection Hbody as <-. apply find_some in Ef. destruct Ef as [_ Hfits].
  exists stock. split; [now apply enumerate_py_index | exact Hfits].
Qed.

Lemma greedy_candidate_stock (observation : Observation) (c : Candidate) :
  In c (greedy_candidates observation) ->
  In (cand_stock_idx c, cand_stock c) (enumerate (stocks observation)).
Proof.
  unfold greedy_candidates. intros H.
  apply in_flat_map in H. destruct H as (prod & _ & H).
  apply in_flat_map in H. destruct H as (prod_size & _ & H).
  apply in_flat_map in H. destruct H as ([idx stock] & Hin & H).
  unfold stock_candidates in H. cbn [_get_stock_size_ fst snd] in H.
  destruct (_ || _); [contradiction|].
  apply in_flat_map in H. destruct H as (y & _ & H).
  apply in_map_iff in H. destruct H as (x & <- & _). exact Hin.
Qed.

Lemma In_firstn {A} (n : nat) (l : list A) (a : A) :
  In a (firstn n l) -> In a l.
Proof.
  intros H. rewrite <- (firstn_skipn n l). apply in_or_app. now left.
Qed.

Lemma for_result_invariant {A S} (I : S -> Prop) (body : A -> S -> result S)
  (l : list A) :
  (forall a s s', I s -> body a s = Ok s' -> I s') ->
  forall s s', I s -> for_result body l s = Ok s' -> I s'.
Proof.
  intros Hbody. induction l as [|a l IH]; intros s s' Hs Hrun;
    cbn [for_result] in Hrun.
  - now injection Hrun as <-.
  - destruct (body a s) as [s1|e] eqn:E; [|discriminate].
    cbn [rbind] in Hrun. eapply IH; [eapply Hbody; eassumption | exact Hrun].
Qed.

Section Accepted.

Variable evaluate_placement_pattern : Stock -> Z -> Z -> Z -> Z -> Q.
Variable _calculate_placement_score : Stock -> Z -> Z -> Z -> Z -> Z -> Z -> Q.
Variable randint : nat -> Z -> Z.

Lemma greedy_action_accepted (observation : Observation) (a : Action) :
  _get_greedy_action _calculate_placement_score observation = Some a ->
  exists stock, placement_accepted observation a stock.
Proof.
  unfold _get_greedy_action. rewrite greedy_run_flat.
  assert (Hstart : within_budget (mkGreedy None None 0 0))
    by (unfold within_budget, max_attempts; cbn; lia).
  destruct (visit_all _calculate_placement_score
                      (greedy_candidates observation) Hstart)
    as (Hbest & _).
  cbv zeta in Hbest. set (final := final_state _) in *.
  cbn [attempts best_action best_score] in Hbest.
  pose proof (consider_fold _calculate_placement_score
                (firstn (Z.to_nat (max_attempts - 1 - 0))
                        (greedy_candidates observation)))
    as (Hshape & _ & Hsome).
  rewrite <- Hbest in Hshape, Hsome. cbn [fst snd] in *.
  intros Ha. destruct (best_score final) as [s|] eqn:Es.
  - rewrite Ha in Hsome.
    destruct (Hsome a s eq_refl) as [(c & Hin & Hf & -> & _) _].
    exists (cand_stock c). split; [|exact Hf].
    apply enumerate_py_index, greedy_candidate_stock.
    eapply In_firstn. exact Hin.
  - destruct Hshape as [_ H]. rewrite Ha in H. discriminate (H eq_refl).
Qed.

Lemma random_action_accepted (observation : Observation)
  (allow_rotation : bool) (draws draws' : nat) (a : Action) :
  _get_random_valid_action randint observation allow_rotation draws
  = (Ok (Some a), draws') ->
  exists stock, placement_accepted observation a stock.
Proof.
  unfold _get_random_valid_action.
  destruct (for_each _ _ _) as [r|d] eqn:E; [|discriminate].
  intros ->. apply for_each_returned in E.
  destruct E as ([idx stock] & d0 & Hin & E).
  cbn [_get_stock_size_] in E. apply for_each_returned in E.
  destruct E as (prod & d1 & _ & E). unfold random_product in E.
  destruct (0 <? quantity prod); [|discriminate].
  apply for_each_returned in E. destruct E as (prod_size & d2 & _ & E).
  apply for_each_returned in E. destruct E as (k & d3 & _ & E).
  unfold random_trial in E. destruct prod_size as [prod_w prod_h].
  destruct (shape1 stock - prod_w + 1 <=? 0); [discriminate|].
  destruct (shape0 stock - prod_h + 1 <=? 0); [discriminate|].
  destruct (_can_place_ _ _ _) eqn:Ef; [|discriminate].
  injection E as <- _. exists stock.
  split; [now apply enumerate_py_index | exact Ef].
Qed.

Lemma convert_action_accepted (observation : Observation) (action_idx : Z)
  (draws draws' : nat) (a : Action) :
  convert_action evaluate_placement_pattern randint action_idx observation
                 draws = (Ok (Some a), draws') ->
  exists stock, placement_accepted observation a stock.
Proof.
  unfold convert_action.
  set (stock_idx := Z.min _ _). set (pos_x := _ / 5). set (pos_y := _ mod 5).
  destruct (for_result _ _ _) as [[best score]|e] eqn:E; [|discriminate].
  destruct best as [best|]; [|apply random_action_accepted].
  intros H. injection H as -> _.
  refine (for_result_invariant
            (fun st => forall b, fst st = Some b ->
                         exists stock, placement_accepted observation b stock)
            _ _ _ _ _ E a eq_refl); [|discriminate].
  intros prod st st' Hst Hbody. unfold convert_product in Hbody.
  destruct (0 <? quantity prod);
    [|injection Hbody as <-; apply Hst].
  destruct (py_index (stocks observation) stock_idx) as [stock|e0] eqn:Ei;
    [|discriminate].
  cbn [rbind _get_stock_size_] in Hbody. injection Hbody as <-.
  assert (Hstep : forall prod_size s,
    (forall b, fst s = Some b ->
               exists stock, placement_accepted observation b stock) ->
    forall b,
      fst (convert_orientation evaluate_placement_pattern stock_idx stock
             (shape1 stock) (shape0 stock) pos_x pos_y prod s prod_size)
      = Some b ->
      exists stock, placement_accepted observation b stock).
  { intros prod_size s Hs b. unfold convert_orientation.
    destruct (_can_place_ _ _ _) eqn:Ef; [|apply Hs].
    destruct (better _ _); [|apply Hs].
    cbn [fst]. intros H. injection H as <-. exists stock.
    split; [exact Ei | exact Ef]. }
  unfold orientations. cbn [fold_left]. apply Hstep, Hstep, Hst.
Qed.

End Accepted.

Section AcceptedDecision.

Variables Params OptState : Type.
Variable new_actor : Z -> Z -> Params.
Variable new_critic : Z -> Params.
Variable new_optimizer : Params -> OptState.
Variable evaluate_placement_pattern : Stock -> Z -> Z -> Z -> Z -> Q.
Variable _calculate_placement_score : Stock -> Z -> Z -> Z -> Z -> Z -> Z -> Q.
Variable randint : nat -> Z -> Z.
Variable sample_action :
  Policy Params OptState -> Observation -> Info -> Z
  -> result (list Q * Z * Q * Q).

Local Abbreviation decide :=
  (get_action new_actor new_critic new_optimizer evaluate_placement_pattern
              _calculate_placement_score randint sample_action).

Lemma get_action_accepted (observation : Observation) (info : Info)
  (self self' : Policy Params OptState) (a : Action) :
  decide observation info self = (Ok (Some a), self') ->
  exists stock, placement_accepted observation a stock.
Proof.
  unfold get_action.
  destruct (initialize_networks _ _ _ observation self) as [d self1].
  assert (Hrest :
    learned_decision evaluate_placement_pattern _calculate_placement_score
                     randint sample_action observation info self1
    = (Ok (Some a), self') ->
    exists stock, placement_accepted observation a stock).
  { intros Heq. unfold learned_decision in Heq. unfold bind at 1 in Heq.
    destruct (choose_action sample_action observation info self1)
      as [[[action|]|e] self2]; try discriminate Heq.
    unfold bind, ret, modify in Heq.
    destruct (convert_action evaluate_placement_pattern randint action
                             observation (draws self2))
      as [[placement|e] n] eqn:Ec; [|discriminate Heq].
    injection Heq as Hp _. destruct placement as [a0|].
    - injection Hp as ->. eapply convert_action_accepted. exact Ec.
    - eapply greedy_action_accepted. exact Hp. }
  destruct (structured_first d self1 (total_quantity observation)).
  - destruct (_get_structured_placement observation) as [p|] eqn:Es.
    + intros H. injection H as -> _.
      now apply structured_placement_accepted.
    + exact Hrest.
  - exact Hrest.
Qed.

(** C1.  A placement returned by the structured strategy, by the greedy
    search, by the decoding of a discrete action, by the random fallback, or
    by the decision function that combines them, names a stock of the
    observation for which [_can_place_] holds at the returned position and
    size: the rectangle lies within the bounds of that stock and every cell
    it covers is empty in the grid of the observation. *)
Theorem C1_returned_placement_can_be_placed
  (observation : Observation) (a : Action) :
  _get_structured_placement observation = Some a
  \/ _get_greedy_action _calculate_placement_score observation = Some a
  \/ (exists action_idx draws draws',
        convert_action evaluate_placement_pattern randint action_idx
                       observation draws = (Ok (Some a), draws'))
  \/ (exists allow_rotation draws draws',
        _get_random_valid_action randint observation allow_rotation draws
        = (Ok (Some a), draws'))
  \/ (exists info self self',
        decide observation info self = (Ok (Some a), self')) ->
  exists stock,
    py_index (stocks observation) (stock_idx a) = Ok stock
    /\ _can_place_ stock (position a) (action_size a) = true
    /\ rectangle_free stock a.
Proof.
  intros H.
  assert (Hacc : exists stock, placement_accepted observation a stock).
  { destruct H as [H | [H | [H | [H | H]]]].
    - now apply structured_placement_accepted.
    - now apply (greedy_action_accepted _calculate_placement_score).
    - destruct H as (action_idx & draws & draws' & H).
      eapply convert_action_accepted. exact H.
    - destruct H as (allow_rotation & draws & draws' & H).
      eapply random_action_accepted. exact H.
    - destruct H as (info & self & self' & H).
      eapply get_action_accepted. exact H. }
  destruct Hacc as (stock & Hidx & Hfits). exists stock.
  split; [exact Hidx|]. split; [exact Hfits|].
  now apply can_place_rectangle_free.
Qed.

End AcceptedDecision.

Lemma C1_returned_placement_can_be_placed_witness :
  _get_structured_placement first_observation
  = Some (mkAction 0 (4, 4) (0, 0))
  /\ exists stock,
      py_index (stocks first_observation) 0 = Ok stock
      /\ _can_place_ stock (0, 0) (4, 4) = true
      /\ rectangle_free stock (mkAction 0 (4, 4) (0, 0)).
Proof.
  split; [reflexivity|].
  apply (@C1_returned_placement_can_be_placed
           unit unit (fun _ _ => tt) (fun _ => tt) (fun _ => tt)
           (fun _ _ _ _ _ => 0%Q) (fun _ _ _ _ _ _ _ => 0%Q)
           (fun _ _ => 0) (fun _ _ _ _ => Raise RuntimeError)
           first_observation (mkAction 0 (4, 4) (0, 0))).
  left. reflexivity.
Defined.

Lemma C10_structured_decision_leaves_buffer_and_steps_witness :
  let decide :=
    get_action (fun _ _ => tt) (fun _ => tt) (fun _ => tt)
               (fun _ _ _ _ _ => 0%Q) (fun _ _ _ _ _ _ _ => 0%Q)
               (fun _ _ => 0) (fun _ _ _ _ => Raise RuntimeError) in
  let outcome := decide first_observation no_info (new_policy unit unit) in
  _get_structured_placement first_observation
  = Some (mkAction 0 (4, 4) (0, 0))
  /\ fst outcome = Ok (Some (mkAction 0 (4, 4) (0, 0)))
  /\ memory (snd outcome) = memory (new_policy unit unit)
  /\ steps (snd outcome) = 0.
Proof.
  intros decide outcome. split; [reflexivity|].
  destruct (@C10_structured_decision_leaves_buffer_and_steps
              unit unit (fun _ _ => tt) (fun _ => tt) (fun _ => tt)
              (fun _ _ _ _ _ => 0%Q) (fun _ _ _ _ _ _ _ => 0%Q)
              (fun _ _ => 0) (fun _ _ _ _ => Raise RuntimeError)
              first_observation no_info (new_policy unit unit))
    as [Hstructured _].
  exact (Hstructured (mkAction 0 (4, 4) (0, 0)) eq_refl eq_refl).
Defined.

Lemma C5_greedy_search_within_budget_witness :
  let score_of :=
    fun (_ : Stock) (_ _ _ _ _ _ : Z) => 0%Q in
  length (greedy_candidates crowded_observation) = 1200%nat
  /\ attempts (greedy_run score_of crowded_observation) = 1000
  /\ tests (greedy_run score_of crowded_observation) = 999%nat
  /\ _get_greedy_action score_of crowded_observation
     = Some (mkAction 0 (1, 1) (0, 0)).
Proof.
  intros score_of.
  destruct (@C5_greedy_search_within_budget score_of crowded_observation)
    as (_ & Hattempts & _ & Htests & _ & Hbest & _).
  split; [vm_compute; reflexivity|].
  split; [rewrite Hattempts; vm_compute; reflexivity|].
  split; [rewrite Htests; vm_compute; reflexivity|].
  rewrite Hbest. vm_compute. reflexivity.
Defined.

(** ** Checks of the model on small inputs *)

Lemma can_place_examples :
  let cut := hd [] (stocks second_observation) in
  _can_place_ cut (0, 0) (4, 4) = false
  /\ _can_place_ cut (4, 0) (4, 4) = true
  /\ _can_place_ cut (7, 7) (4, 4) = false
  /\ _can_place_ cut (6, 6) (4, 4) = true
  /\ _can_place_ cut (-1, 0) (1, 1) = false.
Proof. repeat split. Qed.

Lemma sorted_by_area_example :
  map size
      (sorted_by_area [mkProduct (2, 2) 1; mkProduct (3, 3) 1;
                       mkProduct (1, 4) 1; mkProduct (9, 1) 1])
  = [(3, 3); (9, 1); (2, 2); (1, 4)].
Proof. reflexivity. Qed.

Lemma structured_placement_example :
  _get_structured_placement first_observation
  = Some (mkAction 0 (4, 4) (0, 0))
  /\ _get_structured_placement
       (mkObservation (stocks second_observation) [mkProduct (4, 4) 1])
     = Some (mkAction 0 (4, 4) (4, 0))
  /\ _get_structured_placement second_observation = None.
Proof. repeat split. Qed.

Lemma compute_gae_example :
  compute_gae [1; 1]%Q [0; 0]%Q [false; true]
  = Ok [1 + (99 # 100) * 0 * (1 - 0) - 0
        + (99 # 100) * (95 # 100) * (1 - 0)
          * (1 + (99 # 100) * 0 * (1 - 1) - 0
             + (99 # 100) * (95 # 100) * (1 - 1) * 0);
        1 + (99 # 100) * 0 * (1 - 1) - 0
        + (99 # 100) * (95 # 100) * (1 - 1) * 0]%Q
  /\ compute_gae [1; 1]%Q [0]%Q [false; true] = Raise IndexError.
Proof. split; reflexivity. Qed.

(** * Further properties *)

(** ** The largest product *)

Lemma largest_fold (l : list Product) :
  let r := fold_left largest_step l (None, 0) in
  match fst r with
  | None =>
      snd r = 0 /\ forall q, In q l -> demanded q -> area q <= 0
  | Some p =>
      snd r = area p /\ demanded p /\ 0 < area p
      /\ exists l1 l2,
          l = l1 ++ p :: l2
          /\ (forall q, In q l1 -> demanded q -> area q < area p)
          /\ (forall q, In q l2 -> demanded q -> area q <= area p)
  end.
Proof.
  induction l as [|x l IH] using rev_ind; cbv zeta.
  - cbn. split; [reflexivity | easy].
  - rewrite fold_left_app. cbn [fold_left]. cbv zeta in IH.
    destruct (fold_left largest_step l (None, 0)) as [best a].
    cbn [fst snd] in IH. unfold largest_step. cbn [snd]. unfold demanded in *.
    destruct (0 <? quantity x) eqn:Eq.
    + apply Z.ltb_lt in Eq. destruct (a <? area x) eqn:Ea.
      * apply Z.ltb_lt in Ea. cbn [fst snd]. split; [reflexivity|].
        split; [exact Eq|]. destruct best as [p|].
        -- destruct IH as (-> & _ & Hpos & l1 & l2 & -> & H1 & H2).
           split; [lia|]. exists (l1 ++ p :: l2), []. split; [reflexivity|].
           split; [|easy]. intros q Hin Hq. apply in_app_or in Hin.
           destruct Hin as [Hin | [<- | Hin]];
             [specialize (H1 q Hin Hq) | | specialize (H2 q Hin Hq)]; lia.
        -- destruct IH as [-> Hall]. split; [exact Ea|].
           exists l, []. split; [reflexivity|]. split; [|easy].
           intros q Hin Hq. specialize (Hall q Hin Hq). lia.
      * apply Z.ltb_ge in Ea. cbn [fst snd]. destruct best as [p|].
        -- destruct IH as (-> & Hd & Hpos & l1 & l2 & -> & H1 & H2).
           split; [reflexivity|]. split; [exact Hd|]. split; [exact Hpos|].
           exists l1, (l2 ++ [x]). split; [now rewrite <- app_assoc|].
           split; [exact H1|]. intros q Hin Hq. apply in_app_or in Hin.
           destruct Hin as [Hin | [<- | []]]; [now apply H2 | exact Ea].
        -- destruct IH as [-> Hall]. split; [reflexivity|].
           intros q Hin Hq. apply in_app_or in Hin.
           destruct Hin as [Hin | [<- | []]]; [now apply Hall | exact Ea].
    + apply Z.ltb_ge in Eq. cbn [fst snd]. destruct best as [p|].
      * destruct IH as (-> & Hd & Hpos & l1 & l2 & -> & H1 & H2).
        split; [reflexivity|]. split; [exact Hd|]. split; [exact Hpos|].
        exists l1, (l2 ++ [x]). split; [now rewrite <- app_assoc|].
        split; [exact H1|]. intros q Hin Hq. apply in_app_or in Hin.
        destruct Hin as [Hin | [<- | []]]; [now apply H2 | lia].
      * destruct IH as [-> Hall]. split; [reflexivity|].
        intros q Hin Hq. apply in_app_or in Hin.
        destruct Hin as [Hin | [<- | []]]; [now apply Hall | lia].
Qed.

(** X1.  [_get_largest_product] returns the first product, in the order of
    the observation, among the demanded products of largest area, and only a
    product of positive area: every demanded product before it is strictly
    smaller, every one after it is no larger.  It returns none exactly when
    no demanded product has a positive area. *)
Theorem largest_product_is_first_maximum (observation : Observation) :
  (forall p, _get_largest_product observation = Some p ->
     demanded p /\ 0 < area p
     /\ exists l1 l2,
         products observation = l1 ++ p :: l2
         /\ (forall q, In q l1 -> demanded q -> area q < area p)
         /\ (forall q, In q l2 -> demanded q -> area q <= area p))
  /\ (_get_largest_product observation = None <->
      forall q, In q (products observation) -> demanded q -> area q <= 0).
Proof.
  unfold _get_largest_product.
  pose proof (largest_fold (products observation)) as H. cbv zeta in H.
  destruct (fst (fold_left largest_step (products observation) (None, 0)))
    as [p0|].
  - destruct H as (_ & Hd & Hpos & l1 & l2 & Hl & H1 & H2). split.
    + intros p Hp. injection Hp as <-. split; [exact Hd|].
      split; [exact Hpos|]. now exists l1, l2.
    + split; [discriminate|]. intros Hall.
      assert (Hin : In p0 (products observation))
        by (rewrite Hl; apply in_or_app; right; now left).
      specialize (Hall p0 Hin Hd). lia.
  - destruct H as [_ Hall]. split; [discriminate|]. now split.
Qed.

(** ** Structured placement *)

Lemma tried_on_edge (stock : Stock) (sz pos : Z * Z) :
  In pos ((if all_empty stock
           then corners (shape1 stock) (shape0 stock) sz else [])
          ++ edges (shape1 stock) (shape0 stock) sz) ->
  on_edge stock sz pos.
Proof.
  unfold on_edge, corners, edges. intros Hin.
  repeat (apply in_app_or in Hin; destruct Hin as [Hin | Hin]).
  - destruct (all_empty stock); [|contradiction].
    cbn [In] in Hin. destruct Hin as [<- | [<- | [<- | [<- | []]]]];
      cbn [fst snd]; auto.
  - apply in_map_iff in Hin. destruct Hin as (x & <- & _). cbn. auto.
  - apply in_map_iff in Hin. destruct Hin as (y & <- & _). cbn. auto.
  - apply in_map_iff in Hin. destruct Hin as (x & <- & _). cbn. auto.
  - apply in_map_iff in Hin. destruct Hin as (y & <- & _). cbn. auto.
Qed.

(** X2.  A placement of the structured strategy is for the largest product
    in its declared orientation (the strategy never rotates), on a stock of
    the observation, at a position that touches a side of that stock. *)
Theorem structured_placement_on_edge (observation : Observation) (a : Action) :
  _get_structured_placement observation = Some a ->
  exists p stock,
    _get_largest_product observation = Some p
    /\ action_size a = size p
    /\ py_index (stocks observation) (stock_idx a) = Ok stock
    /\ on_edge stock (size p) (position a).
Proof.
  unfold _get_structured_placement.
  destruct (_get_largest_product observation) as [p|]; [|discriminate].
  destruct (for_each _ _ _) as [r|u] eqn:E; [|discriminate].
  intros H. injection H as ->.
  apply for_each_returned in E. destruct E as ([idx stock] & [] & Hin & Hbody).
  unfold structured_in_stock in Hbody. cbn [_get_stock_size_] in Hbody.
  destruct (find _ _) as [pos|] eqn:Ef; [|discriminate].
  injection Hbody as <-. apply find_some in Ef. destruct Ef as [Htried _].
  exists p, stock. cbn [action_size stock_idx position].
  split; [reflexivity|]. split; [reflexivity|].
  split; [now apply enumerate_py_index | now apply tried_on_edge].
Qed.

Lemma structured_placement_on_edge_witness :
  _get_structured_placement first_observation
  = Some (mkAction 0 (4, 4) (0, 0))
  /\ exists p stock,
      _get_largest_product first_observation = Some p
      /\ (4, 4) = size p
      /\ py_index (stocks first_observation) 0 = Ok stock
      /\ on_edge stock (size p) (0, 0).
Proof.
  split; [reflexivity|].
  exact (@structured_placement_on_edge first_observation
           (mkAction 0 (4, 4) (0, 0)) eq_refl).
Defined.

Lemma empty_stock_can_place (stock : Stock) (x y w h : Z) :
  rectangular stock -> all_empty stock = true ->
  0 <= x -> 0 <= y -> x + w <= shape1 stock -> y + h <= shape0 stock ->
  _can_place_ stock (x, y) (w, h) = true.
Proof.
  intros Hrect Hempty Hx Hy Hw Hh.
  apply (can_place_rectangle_free stock (mkAction 0 (w, h) (x, y))).
  unfold rectangle_free. cbn [position action_size].
  repeat split; try assumption.
  intros x' y' Hxr Hyr. unfold cell_at.
  assert (Hrow : (Z.to_nat y' < length stock)%nat)
    by (unfold shape0, len in Hh; lia).
  rewrite (nth_error_nth' stock [] Hrow).
  assert (Hin : In (nth (Z.to_nat y') stock []) stock) by now apply nth_In.
  unfold rectangular in Hrect. rewrite Forall_forall in Hrect.
  specialize (Hrect _ Hin). unfold all_empty in Hempty.
  rewrite forallb_forall in Hempty. specialize (Hempty _ Hin).
  rewrite forallb_forall in Hempty.
  assert (Hcol : (Z.to_nat x' < length (nth (Z.to_nat y') stock []))%nat)
    by (unfold len in Hrect; lia).
  rewrite (nth_error_nth' _ EMPTY Hcol). f_equal.
  apply Z.eqb_eq, Hempty. now apply nth_In.
Qed.

(** X3.  When the first stock is entirely empty and the largest product
    fits in it in its declared orientation, the structured strategy cuts it
    at the top-left corner of the first stock: it tries no other corner, no
    edge position and no other stock before. *)
Theorem structured_placement_first_corner (observation : Observation)
  (p : Product) (stock : Stock) (rest : list Stock) :
  _get_largest_product observation = Some p ->
  stocks observation = stock :: rest ->
  rectangular stock -> all_empty stock = true ->
  0 <= fst (size p) <= shape1 stock ->
  0 <= snd (size p) <= shape0 stock ->
  _get_structured_placement observation
  = Some (mkAction 0 (size p) (0, 0)).
Proof.
  intros Hp Hs Hrect Hempty Hw Hh. unfold _get_structured_placement.
  rewrite Hp, Hs. unfold enumerate. cbn [enumerate_from for_each].
  unfold structured_in_stock. cbn [_get_stock_size_]. rewrite Hempty.
  unfold corners. cbn [app find].
  destruct (size p) as [w h] eqn:Esz. cbn [fst snd] in *.
  rewrite empty_stock_can_place by (assumption || lia). reflexivity.
Qed.

Lemma structured_placement_first_corner_witness :
  _get_largest_product first_observation = Some (mkProduct (4, 4) 1)
  /\ rectangular (empty_stock 10 10)
  /\ _get_structured_placement first_observation
     = Some (mkAction 0 (4, 4) (0, 0)).
Proof.
  assert (Hrect : rectangular (empty_stock 10 10))
    by (unfold rectangular; repeat constructor).
  split; [reflexivity|]. split; [exact Hrect|].
  apply (@structured_placement_first_corner first_observation
           (mkProduct (4, 4) 1) (empty_stock 10 10) []);
    try reflexivity; try exact Hrect; cbn; lia.
Defined.

(** ** The order in which the greedy search takes the products *)

Lemma insert_by_area_permutation (p : Product) (l : list Product) :
  Permutation (insert_by_area p l) (p :: l).
Proof.
  induction l as [|q l IH]; cbn [insert_by_area]; [reflexivity|].
  destruct (area p <? area q); [|reflexivity].
  rewrite IH. apply perm_swap.
Qed.

Lemma insert_by_area_sorted (p : Product) (l : list Product) :
  StronglySorted (fun a b => area b <= area a) l ->
  StronglySorted (fun a b => area b <= area a) (insert_by_area p l).
Proof.
  induction 1 as [|q l Hs IH Hq]; cbn [insert_by_area].
  - repeat constructor.
  - destruct (area p <? area q) eqn:E.
    + apply Z.ltb_lt in E. constructor; [exact IH|].
      apply (Permutation_Forall
               (Permutation_sym (insert_by_area_permutation p l))).
      constructor; [lia | exact Hq].
    + apply Z.ltb_ge in E. constructor; [now constructor|].
      constructor; [exact E|].
      eapply Forall_impl; [|exact Hq]. cbn. intros x Hx. lia.
Qed.

Lemma insert_by_area_filter (k : Z) (p : Product) (l : list Product) :
  filter (fun x => area x =? k) (insert_by_area p l)
  = filter (fun x => area x =? k) (p :: l).
Proof.
  induction l as [|q l IH]; cbn [insert_by_area]; [reflexivity|].
  destruct (area p <? area q) eqn:E; [|reflexivity].
  apply Z.ltb_lt in E. cbn [filter] in *. rewrite IH.
  destruct (area p =? k) eqn:Ep; [|reflexivity].
  apply Z.eqb_eq in Ep.
  replace (area q =? k) with false by (symmetry; apply Z.eqb_neq; lia).
  reflexivity.
Qed.

(** X4.  The greedy search takes the demanded products in an order that is
    a rearrangement of the given one, by decreasing area, and that keeps the
    products of equal area in the order of the observation. *)
Theorem sorted_by_area_stable (l : list Product) :
  Permutation (sorted_by_area l) l
  /\ StronglySorted (fun a b => area b <= area a) (sorted_by_area l)
  /\ forall k, filter (fun x => area x =? k) (sorted_by_area l)
               = filter (fun x => area x =? k) l.
Proof.
  induction l as [|p l (IHp & IHs & IHf)]; cbn [sorted_by_area fold_right].
  - repeat split; constructor.
  - fold (sorted_by_area l). split; [|split].
    + rewrite insert_by_area_permutation. now constructor.
    + now apply insert_by_area_sorted.
    + intros k. rewrite insert_by_area_filter. cbn [filter].
      now rewrite IHf.
Qed.

(** ** Decoding a discrete action *)

Section Decoding.

Variable evaluate_placement_pattern : Stock -> Z -> Z -> Z -> Z -> Q.
Variable randint : nat -> Z -> Z.

Local Abbreviation decode :=
  (convert_action evaluate_placement_pattern randint).

(** X5.  The upper half of the action space decodes like the lower half:
    an index [k + 25 * len(stocks)] gives the placement of the index [k].
    The rotation flag only shifts the index; both orientations are tried
    for either half. *)
Theorem convert_action_rotation_half (observation : Observation)
  (action_idx : Z) (draws : nat) :
  0 <= action_idx < len (stocks observation) * 25 ->
  decode (action_idx + len (stocks observation) * 25) observation draws
  = decode action_idx observation draws.
Proof.
  intros H. unfold convert_action. cbv zeta.
  replace (len (stocks observation) * 25
           <=? action_idx + len (stocks observation) * 25)
    with true by (symmetry; apply Z.leb_le; lia).
  replace (len (stocks observation) * 25 <=? action_idx)
    with false by (symmetry; apply Z.leb_gt; lia).
  replace (action_idx + len (stocks observation) * 25
           - len (stocks observation) * 25) with action_idx by lia.
  reflexivity.
Qed.

Lemma random_raises_value_error_only (observation : Observation)
  (allow_rotation : bool) (draws : nat) :
  (exists r, fst (_get_random_valid_action randint observation
                    allow_rotation draws) = Ok r)
  \/ fst (_get_random_valid_action randint observation allow_rotation draws)
     = Raise ValueError.
Proof.
  unfold _get_random_valid_action.
  destruct (for_each _ _ _) as [r|d] eqn:E; [|left; now eexists].
  apply for_each_returned in E.
  destruct E as ([idx stock] & d0 & _ & E).
  cbn [_get_stock_size_] in E. apply for_each_returned in E.
  destruct E as (prod & d1 & _ & E). unfold random_product in E.
  destruct (0 <? quantity prod); [|discriminate].
  apply for_each_returned in E. destruct E as (prod_size & d2 & _ & E).
  apply for_each_returned in E. destruct E as (k & d3 & _ & E).
  unfold random_trial in E. destruct prod_size as [prod_w prod_h].
  destruct (shape1 stock - prod_w + 1 <=? 0);
    [injection E as <-; now right|].
  destruct (shape0 stock - prod_h + 1 <=? 0);
    [injection E as <-; now right|].
  destruct (_can_place_ _ _ _); [|discriminate].
  injection E as <-. left. now eexists.
Qed.

(** X6.  With no stock and a demanded product, decoding raises
    [IndexError] (it indexes the empty list of stocks).  With at least one
    stock and a non-negative index it never does: the decoded stock index is
    clamped into range, and the only exception left is the [ValueError] of
    the random fallback. *)
Theorem convert_action_exceptions (observation : Observation)
  (action_idx : Z) (draws : nat) :
  (stocks observation = [] ->
   (exists p, In p (products observation) /\ demanded p) ->
   decode action_idx observation draws = (Raise IndexError, draws))
  /\ (stocks observation <> [] -> 0 <= action_idx ->
      (exists r, fst (decode action_idx observation draws) = Ok r)
      \/ fst (decode action_idx observation draws) = Raise ValueError).
Proof.
  split.
  - intros Hs (p & Hin & Hp). unfold convert_action. cbv zeta.
    rewrite Hs. cbn [len length Z.of_nat].
    set (idx := Z.min _ _). set (px := _ / 5). set (py := _ mod 5).
    assert (Hloop : forall l st,
      In p l ->
      for_result (convert_product evaluate_placement_pattern observation
                                  idx px py) l st = Raise IndexError).
    { induction l as [|q l IH]; intros st Hl; [easy|].
      cbn [for_result]. unfold convert_product at 1.
      destruct (0 <? quantity q) eqn:Eq.
      - rewrite Hs. unfold py_index. cbn [len length Z.of_nat].
        replace ((0 <=? (if idx <? 0 then 0 + idx else idx))
                 && ((if idx <? 0 then 0 + idx else idx) <? 0))
          with false; [reflexivity|].
        symmetry. apply andb_false_iff. destruct (idx <? 0) eqn:Ei; lia.
      - cbn [rbind]. destruct Hl as [-> | Hl]; [|now apply IH].
        unfold demanded in Hp. lia. }
    now rewrite Hloop.
  - intros Hs Ha. unfold convert_action. cbv zeta.
    set (n := len (stocks observation)).
    assert (Hn : 1 <= n).
    { unfold n, len. destruct (stocks observation); [easy | cbn; lia]. }
    set (a' := if n * 25 <=? action_idx then action_idx - n * 25
               else action_idx).
    assert (Ha' : 0 <= a') by (unfold a'; destruct (n * 25 <=? action_idx) eqn:E; lia).
    set (idx := Z.min (a' / 25) (n - 1)).
    assert (Hidx : 0 <= idx < n).
    { unfold idx. pose proof (Z.div_pos a' 25 Ha' ltac:(lia)). lia. }
    assert (Hstock : exists stock, py_index (stocks observation) idx = Ok stock).
    { unfold py_index. fold n.
      replace (idx <? 0) with false by (symmetry; apply Z.ltb_ge; lia).
      replace ((0 <=? idx) && (idx <? n)) with true
        by (symmetry; apply andb_true_iff; split; lia).
      destruct (nth_error (stocks observation) (Z.to_nat idx)) eqn:E;
        [now eexists|].
      apply nth_error_None in E. unfold n, len in Hidx. lia. }
    destruct Hstock as (stock & Hstock).
    assert (Hloop : forall l st, exists st',
      for_result (convert_product evaluate_placement_pattern observation
                                  idx (a' mod 25 / 5) ((a' mod 25) mod 5))
                 l st = Ok st').
    { induction l as [|q l IH]; intros st; [now eexists|].
      cbn [for_result]. unfold convert_product at 1.
      destruct (0 <? quantity q); [rewrite Hstock|]; cbn [rbind]; apply IH. }
    destruct (Hloop (products observation) (None, None)) as ([best sc] & ->).
    destruct best; [left; now eexists|].
    apply random_raises_value_error_only.
Qed.

End Decoding.

Lemma convert_action_rotation_half_witness :
  let epp := fun (_ : Stock) (_ _ _ _ : Z) => 0%Q in
  0 <= 7 < len (stocks first_observation) * 25
  /\ convert_action epp (fun _ _ => 0) (7 + 25) first_observation 0
     = convert_action epp (fun _ _ => 0) 7 first_observation 0.
Proof.
  intros epp. split; [cbn; lia|].
  apply (@convert_action_rotation_half epp (fun _ _ => 0)
           first_observation 7 0%nat).
  cbn; lia.
Defined.

Lemma convert_action_exceptions_witness :
  let epp := fun (_ : Stock) (_ _ _ _ : Z) => 0%Q in
  convert_action epp (fun _ _ => 0) 3
                 (mkObservation [] [mkProduct (4, 4) 1]) 5
  = (Raise IndexError, 5%nat).
Proof.
  intros epp.
  apply (@convert_action_exceptions epp (fun _ _ => 0)
           (mkObservation [] [mkProduct (4, 4) 1]) 3 5%nat).
  - reflexivity.
  - exists (mkProduct (4, 4) 1). split; [now left | unfold demanded; cbn; lia].
Defined.

(** ** The random fallback *)

Section RandomFallback.

Variable randint : nat -> Z -> Z.

Lemma random_products_skipped (allow_rotation : bool) (stock_idx : Z)
  (stock : Stock) (l : list Product) (draws : nat) :
  (forall q, In q l -> quantity q <= 0) ->
  for_each (random_product randint allow_rotation stock_idx stock
                           (shape1 stock) (shape0 stock)) l draws
  = inr draws.
Proof.
  induction l as [|q l IH]; intros Hl; [reflexivity|].
  cbn [for_each]. unfold random_product at 1.
  replace (0 <? quantity q) with false
    by (symmetry; apply Z.ltb_ge; apply Hl; now left).
  apply IH. intros q' Hq'. apply Hl. now right.
Qed.

(** X7.  Without a stock, or without a demanded product, the random
    fallback returns none and draws nothing.  When the first demanded
    product is wider than the first stock, it raises [ValueError] at its
    first draw ([np.random.randint(0, high)] with [high <= 0]) instead of
    going on to the other orientation, the other products or the other
    stocks. *)
Theorem random_fallback_edge_cases (observation : Observation)
  (allow_rotation : bool) (draws : nat) :
  (stocks observation = []
   \/ (forall q, In q (products observation) -> quantity q <= 0) ->
   _get_random_valid_action randint observation allow_rotation draws
   = (Ok None, draws))
  /\ (forall stock rest l1 p l2,
        stocks observation = stock :: rest ->
        products observation = l1 ++ p :: l2 ->
        (forall q, In q l1 -> quantity q <= 0) ->
        demanded p ->
        shape1 stock < fst (size p) ->
        _get_random_valid_action randint observation allow_rotation draws
        = (Raise ValueError, draws)).
Proof.
  split.
  - intros [Hs | Hq]; unfold _get_random_valid_action.
    + rewrite Hs. reflexivity.
    + assert (Hloop : forall l start,
        for_each (fun entry : Z * Stock =>
            let '(stock_idx, stock) := entry in
            let '(stock_w, stock_h) := _get_stock_size_ stock in
            for_each (random_product randint allow_rotation stock_idx stock
                                     stock_w stock_h)
                     (products observation))
          (enumerate_from start l) draws
        = (inr draws : (result (option Action) * nat) + nat)).
      { induction l as [|s l IH]; intros start; [reflexivity|].
        cbn [enumerate_from for_each _get_stock_size_].
        rewrite random_products_skipped by exact Hq. apply IH. }
      unfold enumerate. now rewrite Hloop.
  - intros stock rest l1 p l2 Hs Hp Hl1 Hd Hwide.
    unfold _get_random_valid_action. rewrite Hs, Hp. unfold enumerate.
    cbn [enumerate_from for_each _get_stock_size_].
    rewrite for_each_app, random_products_skipped by exact Hl1.
    cbn [for_each]. unfold random_product at 1. unfold demanded in Hd.
    replace (0 <? quantity p) with true by (symmetry; apply Z.ltb_lt; lia).
    cbn [for_each].
    replace (range 0 10) with (0 :: range 1 10) by reflexivity.
    cbn [for_each]. unfold random_trial at 1.
    destruct (size p) as [prod_w prod_h]. cbn [fst] in Hwide.
    replace (shape1 stock - prod_w + 1 <=? 0) with true
      by (symmetry; apply Z.leb_le; lia).
    reflexivity.
Qed.

End RandomFallback.

Lemma random_fallback_edge_cases_witness :
  _get_random_valid_action (fun _ _ => 0)
    (mkObservation [empty_stock 3 3] [mkProduct (4, 1) 1]) true 0
  = (Raise ValueError, 0%nat).
Proof.
  destruct (@random_fallback_edge_cases (fun _ _ => 0)
              (mkObservation [empty_stock 3 3] [mkProduct (4, 1) 1]) true
              0%nat) as [_ H].
  apply (H (empty_stock 3 3) [] [] (mkProduct (4, 1) 1) []);
    try reflexivity; try easy.
Defined.

(** ** The advantage estimator off the equal-length path *)

Lemma nth_error_firstn_below {A} (n i : nat) (l : list A) :
  (i < n)%nat -> nth_error (firstn n l) i = nth_error l i.
Proof.
  revert i l. induction n as [|n IH]; intros i l Hi; [lia|].
  destruct l as [|a l]; [reflexivity|]. destruct i as [|i]; [reflexivity|].
  cbn. apply IH. lia.
Qed.

Lemma gae_step_firstn (rewards values : list Q) (dones : list bool)
  (t : nat) (st : list Q * Q) :
  (t < length rewards)%nat ->
  gae_step rewards (firstn (length rewards) values)
           (firstn (length rewards) dones) t st
  = gae_step rewards values dones t st.
Proof.
  intros Ht. unfold gae_step, get. destruct st as [advantages gae].
  destruct (Nat.eqb t (length rewards - 1)) eqn:E.
  - now rewrite !nth_error_firstn_below by exact Ht.
  - apply Nat.eqb_neq in E. now rewrite !nth_error_firstn_below by lia.
Qed.

Lemma for_result_ext {A S} (body1 body2 : A -> S -> result S) (l : list A) :
  (forall a s, In a l -> body1 a s = body2 a s) ->
  forall s, for_result body1 l s = for_result body2 l s.
Proof.
  induction l as [|a l IH]; intros H s; [reflexivity|].
  cbn [for_result]. rewrite H by now left.
  destruct (body2 a s); [|reflexivity]. cbn [rbind].
  apply IH. intros a' s' Hin. apply H. now right.
Qed.

(** X8.  [compute_gae] takes its length from the rewards.  When the values
    and the terminal flags are at least as long it returns one advantage
    per reward and never reads their surplus; when the rewards are not
    empty and either of them is shorter it raises [IndexError]. *)
Theorem compute_gae_lengths (rewards values : list Q) (dones : list bool) :
  ((length rewards <= length values)%nat ->
   (length rewards <= length dones)%nat ->
   compute_gae rewards values dones
   = compute_gae rewards (firstn (length rewards) values)
                 (firstn (length rewards) dones)
   /\ exists advantages,
       compute_gae rewards values dones = Ok advantages
       /\ length advantages = length rewards)
  /\ (rewards <> [] ->
      (length values < length rewards)%nat
      \/ (length dones < length rewards)%nat ->
      compute_gae rewards values dones = Raise IndexError).
Proof.
  split.
  - intros Hv Hd.
    assert (Heq :
      compute_gae rewards values dones
      = compute_gae rewards (firstn (length rewards) values)
                    (firstn (length rewards) dones)).
    { unfold compute_gae. f_equal. apply for_result_ext.
      intros t s Hin. symmetry. apply gae_step_firstn.
      apply in_rev in Hin. apply in_seq in Hin. lia. }
    split; [exact Heq|]. rewrite Heq.
    destruct (@compute_gae_recurrence rewards
                (firstn (length rewards) values)
                (firstn (length rewards) dones))
      as (adv & Hrun & Hlen & _).
    + rewrite length_firstn. lia.
    + rewrite length_firstn. lia.
    + exists adv. split; assumption.
  - intros Hne Hshort. unfold compute_gae.
    destruct rewards as [|r rewards] using rev_ind; [congruence|].
    clear IHrewards. rewrite length_app. cbn [length].
    replace (length rewards + 1)%nat with (S (length rewards)) by lia.
    rewrite seq_S, rev_app_distr. cbn [rev app for_result Nat.add].
    unfold gae_step at 1. rewrite length_app. cbn [length].
    replace (length rewards + 1 - 1)%nat with (length rewards) by lia.
    rewrite Nat.eqb_refl. cbn [rbind]. unfold get.
    rewrite nth_error_app2 by lia. rewrite Nat.sub_diag. cbn [nth_error rbind].
    rewrite length_app in Hshort. cbn [length] in Hshort.
    destruct (nth_error dones (length rewards)) as [d|] eqn:Ed;
      [|reflexivity].
    cbn [rbind].
    destruct (nth_error values (length rewards)) as [v|] eqn:Ev;
      [|reflexivity].
    assert (nth_error dones (length rewards) <> None) by congruence.
    assert (nth_error values (length rewards) <> None) by congruence.
    rewrite nth_error_Some in *. lia.
Qed.

Lemma compute_gae_lengths_witness :
  compute_gae [1; 2]%Q [1 # 2; 1 # 4; 7]%Q [false; true; true]
  = compute_gae [1; 2]%Q [1 # 2; 1 # 4]%Q [false; true]
  /\ compute_gae [1; 2]%Q [1 # 2]%Q [false; true] = Raise IndexError.
Proof.
  destruct (@compute_gae_lengths [1; 2]%Q [1 # 2; 1 # 4; 7]%Q
              [false; true; true]) as [Hlong _].
  destruct (@compute_gae_lengths [1; 2]%Q [1 # 2]%Q [false; true])
    as [_ Hshort].
  split.
  - exact (proj1 (Hlong ltac:(cbn; lia) ltac:(cbn; lia))).
  - apply Hshort; [discriminate | left; cbn; lia].
Defined.

(** X9.  When every step of the trajectory is terminal, nothing is carried
    from one step to the next: each advantage is the one-step error
    [reward[t] - value[t]]. *)
Theorem compute_gae_all_done (rewards values : list Q) (dones : list bool) :
  length values = length rewards ->
  length dones = length rewards ->
  (forall t, (t < length rewards)%nat -> nth t dones false = true) ->
  exists advantages,
    compute_gae rewards values dones = Ok advantages
    /\ length advantages = length rewards
    /\ forall t, (t < length rewards)%nat ->
         (nth t advantages 0 == nth t rewards 0 - nth t values 0)%Q.
Proof.
  intros Hv Hd Hdone.
  destruct (@compute_gae_recurrence rewards values dones Hv Hd)
    as (adv & Hrun & Hlen & Hrec).
  exists adv. split; [exact Hrun|]. split; [exact Hlen|].
  intros t Ht. rewrite (Hrec t Ht).
  unfold advantage_at, gae_update. rewrite (Hdone t Ht). cbn [of_bool]. ring.
Qed.

Lemma compute_gae_all_done_witness :
  exists advantages,
    compute_gae [1; 2]%Q [1 # 2; 1 # 4]%Q [true; true] = Ok advantages
    /\ (nth 0 advantages 0 == 1 # 2)%Q.
Proof.
  destruct (@compute_gae_all_done [1; 2]%Q [1 # 2; 1 # 4]%Q [true; true]
              eq_refl eq_refl) as (adv & Hrun & _ & Hadv).
  - intros [|[|t]] Ht; [reflexivity | reflexivity | cbn in Ht; lia].
  - exists adv. split; [exact Hrun|].
    rewrite (Hadv 0%nat ltac:(cbn; lia)). reflexivity.
Defined.

(** ** What a decision does to the policy *)

Section DecisionFrame.

Variables Params OptState : Type.
Variable new_actor : Z -> Z -> Params.
Variable new_critic : Z -> Params.
Variable new_optimizer : Params -> OptState.
Variable evaluate_placement_pattern : Stock -> Z -> Z -> Z -> Z -> Q.
Variable _calculate_placement_score : Stock -> Z -> Z -> Z -> Z -> Z -> Z -> Q.
Variable randint : nat -> Z -> Z.
Variable sample_action :
  Policy Params OptState -> Observation -> Info -> Z
  -> result (list Q * Z * Q * Q).

Local Abbreviation decide :=
  (get_action new_actor new_critic new_optimizer evaluate_placement_pattern
              _calculate_placement_score randint sample_action).

Local Abbreviation learned :=
  (learned_decision evaluate_placement_pattern _calculate_placement_score
                    randint sample_action).

(** The learned path keeps the dimensions, the networks and the training
    flag, and appends at most one entry, of reward 0 and not terminal. *)
Lemma learned_decision_frame (observation : Observation) (info : Info)
  (s : Policy Params OptState) :
  let s' := snd (learned observation info s) in
  dims s' = dims s /\ model s' = model s /\ training s' = training s
  /\ (memory s' = memory s
      \/ (training s = true
          /\ exists state action value log_prob,
              memory s'
              = memory_add (memory s) state action 0%Q value log_prob
                           false)).
Proof.
  intros s'. assert (Hs' : s' = snd (learned observation info s))
    by reflexivity.
  clearbody s'. unfold learned_decision in Hs'. unfold bind at 1 in Hs'.
  assert (Hchoose :
    let s1 := snd (choose_action sample_action observation info s) in
    dims s1 = dims s /\ model s1 = model s /\ training s1 = training s
    /\ (memory s1 = memory s
        \/ (training s = true
            /\ exists state action value log_prob,
                memory s1
                = memory_add (memory s) state action 0%Q value log_prob
                             false))).
  { cbv zeta. unfold choose_action.
    destruct (_get_largest_product observation); [|now repeat split; left].
    destruct (find_best_fitting_stock observation (size p));
      [|now repeat split; left].
    unfold bind, read, lift, modify, ret.
    destruct (sample_action s observation info z)
      as [[[[state action] value] log_prob]|e]; [|now repeat split; left].
    destruct (training s) eqn:Et; cbn [snd]; repeat split; try assumption.
    - right. split; [reflexivity|]. now exists state, action, value, log_prob.
    - now left. }
  cbv zeta in Hchoose.
  destruct (choose_action sample_action observation info s)
    as [[[action|]|e] s1]; cbn [snd] in Hchoose;
    try (subst s'; exact Hchoose).
  unfold bind, ret, modify in Hs'.
  destruct (convert_action evaluate_placement_pattern randint action
                           observation (draws s1)) as [[placement|e] n];
    subst s';
    cbn [snd set_steps set_draws dims model training memory]; exact Hchoose.
Qed.

(** X10.  The dimensions are fixed by the first observation a policy
    decides on and never change afterwards: after a decision they are those
    the policy had, or, for a new policy, the number of product types and
    the total demand of this observation with the state dimension
    [300 + 3 * len(products) + 2]. *)
Theorem get_action_fixes_dimensions (observation : Observation)
  (info : Info) (self : Policy Params OptState) :
  dims (snd (decide observation info self))
  = Some match dims self with
         | Some d => d
         | None =>
             mkDims (len (products observation))
                    (total_quantity observation)
                    (total_quantity observation)
                    (100 * 3 + len (products observation) * 3 + 2)
         end.
Proof.
  unfold get_action.
  assert (Hinit :
    dims (snd (initialize_networks new_actor new_critic new_optimizer
                                   observation self))
    = Some match dims self with
           | Some d => d
           | None =>
               mkDims (len (products observation))
                      (total_quantity observation)
                      (total_quantity observation)
                      (100 * 3 + len (products observation) * 3 + 2)
           end).
  { unfold initialize_networks. destruct (dims self) eqn:E; cbn [snd dims].
    - exact E.
    - reflexivity. }
  destruct (initialize_networks _ _ _ observation self) as [d s1].
  cbn [snd] in Hinit.
  destruct (learned_decision_frame observation info s1) as (Hd & _).
  destruct (structured_first d s1 (total_quantity observation));
    [destruct (_get_structured_placement observation)|];
    cbn [snd]; congruence.
Qed.

(** X11.  A decision appends at most one entry to the buffer, with reward
    0 and the terminal flag off until the outcome is known, and only when
    the policy is training; a policy that is not training leaves the buffer
    as it was. *)
Theorem get_action_buffer_growth (observation : Observation) (info : Info)
  (self : Policy Params OptState) :
  let s' := snd (decide observation info self) in
  training s' = training self
  /\ (training self = false -> memory s' = memory self)
  /\ (memory s' = memory self
      \/ exists state action value log_prob,
          memory s'
          = memory_add (memory self) state action 0%Q value log_prob false).
Proof.
  cbv zeta. unfold get_action.
  assert (Hinit :
    memory (snd (initialize_networks new_actor new_critic new_optimizer
                                     observation self)) = memory self
    /\ training (snd (initialize_networks new_actor new_critic new_optimizer
                                          observation self))
       = training self).
  { unfold initialize_networks. destruct (dims self); split; reflexivity. }
  destruct (initialize_networks _ _ _ observation self) as [d s1].
  cbn [snd] in Hinit. destruct Hinit as [Hm Ht].
  destruct (learned_decision_frame observation info s1)
    as (_ & _ & Ht' & Hmem).
  rewrite Hm, Ht in *.
  assert (Hgoal :
    training (snd (learned observation info s1)) = training self
    /\ (training self = false
        -> memory (snd (learned observation info s1)) = memory self)
    /\ (memory (snd (learned observation info s1)) = memory self
        \/ exists state action value log_prob,
            memory (snd (learned observation info s1))
            = memory_add (memory self) state action 0%Q value log_prob
                         false)).
  { split; [exact Ht'|]. split.
    - intros Hf. destruct Hmem as [H | [H _]]; [exact H | congruence].
    - destruct Hmem as [H | [_ H]]; [now left | now right]. }
  destruct (structured_first d s1 (total_quantity observation));
    [destruct (_get_structured_placement observation)|];
    try exact Hgoal.
  cbn [snd]. split; [exact Ht|]. split; [intros _; exact Hm | now left].
Qed.

End DecisionFrame.

(** ** What the outcome of a step does to the buffer *)

Section Outcome.

Variables Params OptState : Type.
Variable ppo_epoch :
  Model Params OptState -> PPOMemory -> Model Params OptState * (Q * Q).
Variable scheduler_step :
  Model Params OptState -> PPOMemory -> option (Q * Q)
  -> Model Params OptState.

Local Abbreviation update := (update_policy ppo_epoch scheduler_step).

Lemma record_filled_ratio_memory (info : option Info)
  (s : Policy Params OptState) :
  fst (record_filled_ratio info s) = Ok tt
  /\ memory (snd (record_filled_ratio info s)) = memory s.
Proof.
  unfold record_filled_ratio.
  destruct info as [[fr [obs|]]|]; try (split; reflexivity).
  unfold bind, read, lift, modify, ret.
  destruct (0 <? len (running_filled_ratio s)) eqn:E; [|split; reflexivity].
  destruct (running_filled_ratio s) as [|x l]; [discriminate E|].
  split; reflexivity.
Qed.

(** X12.  Below the update threshold, reporting a reward rewrites the
    reward and the terminal flag of the last entry of the buffer and nothing
    else in it; without a reward the call leaves the policy as it was, the
    terminal flag it was given included. *)
Theorem update_policy_closes_last_entry (reward : Q) (done : bool)
  (info : option Info) (self : Policy Params OptState) :
  memory_aligned (memory self) ->
  states (memory self) <> [] ->
  len (states (memory self)) < 128 ->
  fst (update (Some reward) done info self) = Ok tt
  /\ memory (snd (update (Some reward) done info self))
     = mkMemory (states (memory self)) (actions (memory self))
                (removelast (rewards (memory self)) ++ [reward])
                (values (memory self)) (log_probs (memory self))
                (removelast (dones (memory self)) ++ [done])
  /\ update None done info self = (Ok tt, self).
Proof.
  intros (Ha & Hr & Hv & Hl & Hd) Hne Hlen.
  assert (Hlenb : (128 <=? len (states (memory self))) = false)
    by (apply Z.leb_gt; exact Hlen).
  assert (Hnone : update None done info self = (Ok tt, self)).
  { unfold update_policy, close_last_entry, bind, read, ret.
    now rewrite Hlenb. }
  split; [|split; [|exact Hnone]];
    unfold update_policy, close_last_entry;
    unfold bind at 1; unfold bind at 1; unfold read at 1;
    (replace (0 <? len (rewards (memory self))) with true
      by (symmetry; apply Z.ltb_lt; unfold len;
          destruct (states (memory self)); [congruence|];
          destruct (rewards (memory self)); cbn in *; lia));
    unfold set_last;
    (destruct (rewards (memory self)) as [|r0 rs] eqn:Er;
      [destruct (states (memory self)); [congruence | cbn in Hr; lia]|]);
    (destruct (dones (memory self)) as [|d0 ds] eqn:Ed;
      [destruct (states (memory self)); [congruence | cbn in Hd; lia]|]);
    unfold bind, lift, modify, read, ret;
    destruct (record_filled_ratio_memory info
                (set_memory
                   (mkMemory (states (memory self)) (actions (memory self))
                             (removelast (r0 :: rs) ++ [reward])
                             (values (memory self)) (log_probs (memory self))
                             (removelast (d0 :: ds) ++ [done]))
                   (set_memory
                      (mkMemory (states (memory self))
                                (actions (memory self))
                                (removelast (r0 :: rs) ++ [reward])
                                (values (memory self))
                                (log_probs (memory self)) (d0 :: ds))
                      self))) as [Hok Hmem];
    destruct (record_filled_ratio info _) as [[[]|e] s2];
    cbn [fst snd] in Hok, Hmem; try discriminate Hok;
    rewrite Hmem; cbn [memory set_memory states]; rewrite Hlenb;
    cbn [fst snd]; [reflexivity | exact Hmem].
Qed.

(** X13.  When the policy is not training and the buffer has reached the
    threshold, the update computes no loss and leaves the networks as they
    were, and the buffer is emptied all the same: the experience is
    discarded. *)
Theorem update_policy_discards_when_not_training (reward : option Q)
  (done : bool) (info : option Info) (self : Policy Params OptState) :
  memory_aligned (memory self) ->
  training self = false ->
  128 <= len (states (memory self)) ->
  let s' := snd (update reward done info self) in
  fst (update reward done info self) = Ok tt
  /\ memory s' = mkMemory [] [] [] [] [] []
  /\ model s' = model self
  /\ loss_computations s' = loss_computations self.
Proof.
  intros Haligned Htrain Hlen. cbv zeta.
  destruct (@close_last_entry_effect Params OptState reward done info self
              Haligned)
    as (self1 & Hclose & _ & Hlen1 & Hmo & Htr & Hlc & _).
  unfold update_policy, bind, read, modify, ret. rewrite Hclose.
  replace (128 <=? len (states (memory self1))) with true
    by (symmetry; apply Z.leb_le; unfold len in *; rewrite Hlen1; exact Hlen).
  unfold _update_networks. rewrite Htr, Htrain. cbn [negb orb fst snd].
  cbn [memory set_memory model loss_computations memory_clear].
  repeat split; assumption.
Qed.

End Outcome.

Lemma update_policy_closes_last_entry_witness :
  let epoch := fun (mdl : Model unit unit) (_ : PPOMemory) => (mdl, (0, 0)%Q) in
  let schedule :=
    fun (mdl : Model unit unit) (_ : PPOMemory) (_ : option (Q * Q)) => mdl in
  rewards (memory (snd (update_policy epoch schedule (Some (5 # 2)%Q) true
                                      None (policy_with (buffer_of 2)))))
  = [0; 5 # 2]%Q
  /\ dones (memory (snd (update_policy epoch schedule (Some (5 # 2)%Q) true
                                       None (policy_with (buffer_of 2)))))
     = [false; true].
Proof.
  intros epoch schedule.
  destruct (@update_policy_closes_last_entry unit unit epoch schedule
              (5 # 2)%Q true None (policy_with (buffer_of 2)))
    as (_ & Hmem & _).
  - repeat split.
  - discriminate.
  - cbn. lia.
  - rewrite Hmem. split; reflexivity.
Defined.

Lemma update_policy_discards_when_not_training_witness :
  let epoch := fun (mdl : Model unit unit) (_ : PPOMemory) => (mdl, (0, 0)%Q) in
  let schedule :=
    fun (mdl : Model unit unit) (_ : PPOMemory) (_ : option (Q * Q)) => mdl in
  let self :=
    mkPolicy (dims (policy_with (buffer_of 128)))
             (model (policy_with (buffer_of 128))) false (buffer_of 128)
             0 [] None 0 0 in
  memory (snd (update_policy epoch schedule None false None self))
  = mkMemory [] [] [] [] [] []
  /\ loss_computations
       (snd (update_policy epoch schedule None false None self)) = 0%nat.
Proof.
  intros epoch schedule self.
  destruct (@update_policy_discards_when_not_training unit unit epoch
              schedule None false None self)
    as (_ & Hmem & _ & Hlc).
  - repeat split.
  - reflexivity.
  - vm_compute. discriminate.
  - split; [exact Hmem | exact Hlc].
Defined.

(** ** The corrected filled ratio is a ratio *)

Lemma used_cells_bounds (stock : Stock) :
  rectangular stock -> 0 <= used_cells stock <= stock_area stock.
Proof.
  unfold rectangular, used_cells, stock_area, shape0.
  cbn [_get_stock_size_ fst snd]. generalize (shape1 stock). intros w Hrect.
  induction Hrect as [|row rows Hrow _ IH]; [cbn; lia|].
  cbn [map fold_right].
  pose proof (filter_length_le (fun c => negb (c =? EMPTY)) row) as Hle.
  unfold shape0, len in *. cbn [length] in *. nia.
Qed.

(** X14.  For rectangular grids the corrected filled ratio lies between 0
    and 1. *)
Theorem filled_ratio_bounds (observation : Observation) :
  Forall rectangular (stocks observation) ->
  (0 <= calculate_filled_ratio observation <= 1)%Q.
Proof.
  intros Hrect. unfold calculate_filled_ratio. rewrite filled_ratio_loop.
  rewrite !Z.add_0_l.
  set (used_stocks := filter any_used (stocks observation)).
  assert (Hsums :
    0 <= sum_Z (map used_cells used_stocks)
      <= sum_Z (map stock_area used_stocks)).
  { assert (Hall : Forall rectangular used_stocks).
    { apply Forall_forall. intros x Hx. apply filter_In in Hx.
      rewrite Forall_forall in Hrect. now apply Hrect. }
    induction Hall as [|x l Hx _ IH]; [cbn; lia|].
    cbn [map sum_Z fold_right].
    fold (sum_Z (map used_cells l)). fold (sum_Z (map stock_area l)).
    pose proof (used_cells_bounds Hx). lia. }
  destruct (0 <? sum_Z (map stock_area used_stocks)) eqn:E;
    [|split; [apply Qle_refl | discriminate]].
  apply Z.ltb_lt in E.
  assert (Hpos : (0 < inject_Z (sum_Z (map stock_area used_stocks)))%Q)
    by (rewrite <- (Zlt_Qlt 0); exact E).
  split.
  - apply Qle_shift_div_l; [exact Hpos|]. rewrite Qmult_0_l.
    rewrite <- (Zle_Qle 0). lia.
  - apply Qle_shift_div_r; [exact Hpos|]. rewrite Qmult_1_l.
    rewrite <- Zle_Qle. lia.
Qed.

Lemma filled_ratio_bounds_witness :
  Forall rectangular (stocks three_stocks)
  /\ (0 <= calculate_filled_ratio three_stocks <= 1)%Q.
Proof.
  assert (H : Forall rectangular (stocks three_stocks))
    by (repeat constructor).
  split; [exact H | exact (@filled_ratio_bounds three_stocks H)].
Defined.

(** ** The stock the actor is biased towards *)

Lemma Qlt_bool_iff (a b : Q) : Qlt_bool a b = true <-> (a < b)%Q.
Proof.
  unfold Qlt_bool. rewrite negb_true_iff. split.
  - intros H. apply Qnot_le_lt. intros Hle.
    apply Qle_bool_iff in Hle. congruence.
  - intros H. destruct (Qle_bool b a) eqn:E; [|reflexivity].
    apply Qle_bool_iff in E. apply Qlt_not_le in H. contradiction.
Qed.

Lemma best_partial_fold (l : list (Z * Stock)) :
  let r := fold_left best_partial_step l (None, None) in
  (fst r = None <-> snd r = None)
  /\ (fst r = None ->
      forall e, In e l -> ~ (utilization (snd e) < 8 # 10)%Q)
  /\ (forall idx sc, r = (Some idx, Some sc) ->
      exists stock,
        In (idx, stock) l /\ (utilization stock < 8 # 10)%Q
        /\ sc = (100 + ((8 # 10) - utilization stock) * 50)%Q
        /\ forall e, In e l -> (utilization (snd e) < 8 # 10)%Q ->
              (utilization stock <= utilization (snd e))%Q).
Proof.
  induction l as [|[i s] l IH] using rev_ind; cbv zeta.
  - cbn. repeat split; try discriminate; easy.
  - rewrite fold_left_app. cbn [fold_left]. cbv zeta in IH.
    set (r := fold_left best_partial_step l (None, None)) in *.
    destruct IH as (Hshape & Hnone & Hsome).
    unfold best_partial_step at 1 2 3 4. cbn [_get_stock_size_].
    fold (utilization s).
    destruct (Qlt_bool (utilization s) (8 # 10)) eqn:Eu.
    + apply Qlt_bool_iff in Eu.
      destruct (better (100 + ((8 # 10) - utilization s) * 50) (snd r))
        eqn:Eb.
      * cbn [fst snd]. split; [split; discriminate|].
        split; [discriminate|]. intros idx sc Heq. injection Heq as <- <-.
        exists s. split; [apply in_or_app; right; now left|].
        split; [exact Eu|]. split; [reflexivity|].
        intros e Hin He. apply in_app_or in Hin.
        destruct Hin as [Hin | [<- | []]]; [|apply Qle_refl].
        destruct r as [[i0|] [b|]]; cbn [fst snd] in *.
        -- destruct (Hsome i0 b eq_refl) as (s0 & _ & _ & -> & Hmin).
           specialize (Hmin e Hin He).
           apply negb_true_iff in Eb.
           assert (Hlt : ~ (100 + ((8 # 10) - utilization s) * 50
                            <= 100 + ((8 # 10) - utilization s0) * 50)%Q).
           { intros Hle. apply Qle_bool_iff in Hle. congruence. }
           lra.
        -- destruct Hshape as [_ H]. discriminate (H eq_refl).
        -- destruct Hshape as [H _]. discriminate (H eq_refl).
        -- exfalso. exact (Hnone eq_refl e Hin He).
      * split; [exact Hshape|]. split.
        -- intros Hr. destruct Hshape as [Hs _]. rewrite (Hs Hr) in Eb.
           discriminate Eb.
        -- intros idx sc Heq.
           destruct (Hsome idx sc Heq) as (s0 & Hin0 & Hu0 & Hsc & Hmin).
           exists s0. split; [apply in_or_app; now left|].
           split; [exact Hu0|]. split; [exact Hsc|].
           intros e Hin He. apply in_app_or in Hin.
           destruct Hin as [Hin | [<- | []]]; [now apply Hmin|].
           cbn [snd]. rewrite Heq in Eb. cbn [snd better] in Eb.
           apply negb_false_iff in Eb. apply Qle_bool_iff in Eb.
           rewrite Hsc in Eb. lra.
    + assert (Hnot : ~ (utilization s < 8 # 10)%Q).
      { intros H. apply Qlt_bool_iff in H. congruence. }
      split; [exact Hshape|]. split.
      * intros Hr e Hin. apply in_app_or in Hin.
        destruct Hin as [Hin | [<- | []]]; [now apply Hnone | exact Hnot].
      * intros idx sc Heq.
        destruct (Hsome idx sc Heq) as (s0 & Hin0 & Hu0 & Hsc & Hmin).
        exists s0. split; [apply in_or_app; now left|].
        split; [exact Hu0|]. split; [exact Hsc|].
        intros e Hin He. apply in_app_or in Hin.
        destruct Hin as [Hin | [<- | []]]; [now apply Hmin | contradiction].
Qed.

(** X15.  [find_best_fitting_stock] returns the index of a stock that is
    partly filled and less than 80% full, and then of one of least
    utilisation among those; or, when there is no such stock, of an empty
    stock.  It returns none exactly when every stock is neither.  The size
    of the product plays no part. *)
Theorem find_best_fitting_stock_choice (observation : Observation)
  (product_size : Z * Z) :
  let entries := enumerate (stocks observation) in
  (forall idx,
      find_best_fitting_stock observation product_size = Some idx ->
      exists stock,
        In (idx, stock) entries
        /\ ((biasable stock
             /\ forall e, In e entries -> biasable (snd e) ->
                   (utilization stock <= utilization (snd e))%Q)
            \/ (used_cells stock = 0
                /\ forall e, In e entries -> ~ biasable (snd e))))
  /\ (find_best_fitting_stock observation product_size = None <->
      forall e, In e entries ->
        ~ biasable (snd e) /\ used_cells (snd e) <> 0).
Proof.
  cbv zeta. unfold find_best_fitting_stock.
  set (entries := enumerate (stocks observation)).
  set (is_partial := fun entry : Z * Stock =>
         let '(stock_w, stock_h) := _get_stock_size_ (snd entry) in
         (0 <? used_cells (snd entry))
         && (used_cells (snd entry) <? stock_w * stock_h)).
  assert (Hpartial : forall e,
    is_partial e = true
    <-> 0 < used_cells (snd e) < shape1 (snd e) * shape0 (snd e)).
  { intros e. unfold is_partial. cbn [_get_stock_size_].
    rewrite andb_true_iff, !Z.ltb_lt. tauto. }
  pose proof (best_partial_fold (filter is_partial entries))
    as (Hshape & Hnone & Hsome). cbv zeta in Hshape, Hnone, Hsome.
  assert (Hnobias :
    fst (fold_left best_partial_step (filter is_partial entries)
                   (None, None)) = None ->
    forall e, In e entries -> ~ biasable (snd e)).
  { intros Hr e Hin [Hp Hu].
    apply (Hnone Hr e); [|exact Hu].
    apply filter_In. split; [exact Hin | now apply Hpartial]. }
  destruct (fold_left best_partial_step (filter is_partial entries)
                      (None, None)) as [[i0|] sc0] eqn:Efold;
    cbn [fst snd] in *.
  - destruct sc0 as [sc|];
      [|destruct Hshape as [_ H]; discriminate (H eq_refl)].
    destruct (Hsome i0 sc eq_refl) as (s0 & Hin0 & Hu0 & _ & Hmin).
    apply filter_In in Hin0. destruct Hin0 as [Hin0 Hp0].
    split.
    + intros idx Heq. injection Heq as <-. exists s0.
      split; [exact Hin0|]. left. split.
      * split; [now apply (Hpartial (i0, s0)) | exact Hu0].
      * intros e Hin [Hp Hu]. apply Hmin; [|exact Hu].
        apply filter_In. split; [exact Hin | now apply Hpartial].
    + split; [discriminate|]. intros Hall.
      destruct (Hall (i0, s0) Hin0) as [Hnb _]. exfalso. apply Hnb.
      split; [now apply (Hpartial (i0, s0)) | exact Hu0].
  - specialize (Hnobias eq_refl).
    set (is_empty := fun entry : Z * Stock =>
           let '(stock_w, stock_h) := _get_stock_size_ (snd entry) in
           negb ((0 <? used_cells (snd entry))
                 && (used_cells (snd entry) <? stock_w * stock_h))
           && (used_cells (snd entry) =? 0)).
    assert (Hempty : forall e,
      is_empty e = true <-> used_cells (snd e) = 0).
    { intros e. unfold is_empty. cbn [_get_stock_size_].
      rewrite andb_true_iff, negb_true_iff, andb_false_iff, Z.eqb_eq,
        !Z.ltb_ge. split; [tauto|]. intros H. split; [left; lia | exact H]. }
    destruct (filter is_empty entries) as [|[i1 s1] rest] eqn:Ee.
    + split; [discriminate|]. split; [|reflexivity].
      intros _ e Hin. split; [now apply Hnobias|].
      intros H0. assert (Hf : In e (filter is_empty entries))
        by (apply filter_In; split; [exact Hin | now apply Hempty]).
      rewrite Ee in Hf. contradiction.
    + assert (Hin1 : In (i1, s1) (filter is_empty entries))
        by (rewrite Ee; now left).
      apply filter_In in Hin1. destruct Hin1 as [Hin1 He1].
      apply Hempty in He1. cbn [snd fst] in *. split.
      * intros idx Heq. injection Heq as <-. exists s1.
        split; [exact Hin1|]. right. split; [exact He1 | exact Hnobias].
      * split; [discriminate|]. intros Hall.
        destruct (Hall (i1, s1) Hin1) as [_ H]. contradiction.
Qed.

Lemma find_best_fitting_stock_choice_witness :
  find_best_fitting_stock three_stocks (4, 4) = Some 1
  /\ exists stock,
      In (1, stock) (enumerate (stocks three_stocks))
      /\ (biasable stock \/ used_cells stock = 0).
Proof.
  assert (H : find_best_fitting_stock three_stocks (4, 4) = Some 1)
    by (vm_compute; reflexivity).
  split; [exact H|].
  destruct (@find_best_fitting_stock_choice three_stocks (4, 4)) as [Hsome _].
  destruct (Hsome 1 H) as (stock & Hin & [[Hb _] | [He _]]);
    exists stock; split; auto.
Defined.

(** ** An invariant of the policy *)

(** X16.  A new policy is consistent (the six lists of its buffer have one
    length, and before the networks exist no dimension is fixed and nothing
    is buffered), and a decision, the report of an outcome and the loading
    of a checkpoint each keep a consistent policy consistent, whatever they
    return. *)
Theorem policy_stays_consistent (Params OptState : Type)
  (new_actor : Z -> Z -> Params) (new_critic : Z -> Params)
  (new_optimizer : Params -> OptState)
  (evaluate_placement_pattern : Stock -> Z -> Z -> Z -> Z -> Q)
  (_calculate_placement_score : Stock -> Z -> Z -> Z -> Z -> Z -> Z -> Q)
  (randint : nat -> Z -> Z)
  (sample_action :
     Policy Params OptState -> Observation -> Info -> Z
     -> result (list Q * Z * Q * Q))
  (ppo_epoch :
     Model Params OptState -> PPOMemory -> Model Params OptState * (Q * Q))
  (scheduler_step :
     Model Params OptState -> PPOMemory -> option (Q * Q)
     -> Model Params OptState)
  (torch_load : String.string -> result (Checkpoint Params OptState))
  (load_state_dict : Params -> Params -> Params * bool)
  (optimizer_load_state_dict : OptState -> OptState -> OptState * bool) :
  consistent (new_policy Params OptState)
  /\ forall self : Policy Params OptState,
      consistent self ->
      (forall observation info,
          consistent
            (snd (get_action new_actor new_critic new_optimizer
                             evaluate_placement_pattern
                             _calculate_placement_score randint
                             sample_action observation info self)))
      /\ (forall reward done info,
            consistent
              (snd (update_policy ppo_epoch scheduler_step reward done info
                                  self)))
      /\ (forall filename,
            consistent
              (snd (load_model torch_load load_state_dict
                               optimizer_load_state_dict filename self))).
Proof.
  split; [apply new_policy_consistent|].
  intros self Hself. split; [|split].
  - intros observation info. now apply get_action_consistent.
  - intros reward done info. now apply update_policy_consistent.
  - intros filename. now apply load_model_consistent.
Qed.

Lemma policy_stays_consistent_witness :
  consistent
    (snd (update_policy
            (fun (mdl : Model unit unit) (_ : PPOMemory) => (mdl, (0, 0)%Q))
            (fun (mdl : Model unit unit) (_ : PPOMemory)
                 (_ : option (Q * Q)) => mdl)
            (Some 1%Q) true None (policy_with (buffer_of 3)))).
Proof.
  destruct (@policy_stays_consistent unit unit
              (fun _ _ => tt) (fun _ => tt) (fun _ => tt)
              (fun _ _ _ _ _ => 0%Q) (fun _ _ _ _ _ _ _ => 0%Q)
              (fun _ _ => 0) (fun _ _ _ _ => Raise RuntimeError)
              (fun mdl _ => (mdl, (0, 0)%Q)) (fun mdl _ _ => mdl)
              (fun _ => Raise RuntimeError)
              (fun a _ => (a, true)) (fun a _ => (a, true)))
    as [_ Hkeep].
  assert (H : consistent (policy_with (buffer_of 3)))
    by (split; [repeat split | discriminate]).
  destruct (Hkeep _ H) as (_ & Hupdate & _).
  apply Hupdate.
Defined.

(** ** Distance to the nearest occupied cell *)

Lemma enumerate_from_In {A} (l : list A) (start idx : Z) (a : A) :
  In (idx, a) (enumerate_from start l)
  <-> start <= idx /\ nth_error l (Z.to_nat (idx - start)) = Some a.
Proof.
  split.
  - intros H. apply enumerate_from_index in H. destruct H as [[H _] Hn].
    now split.
  - revert start. induction l as [|b l IH]; intros start [Hle Hn].
    + now destruct (Z.to_nat (idx - start)).
    + cbn [enumerate_from]. destruct (Z.to_nat (idx - start)) as [|k] eqn:E.
      * left. cbn in Hn. injection Hn as ->. f_equal. lia.
      * right. apply IH. split; [lia|].
        replace (Z.to_nat (idx - (start + 1))) with k by lia. exact Hn.
Qed.

Lemma filled_positions_In (stock : Stock) (y x : Z) :
  In (y, x) (filled_positions stock)
  <-> 0 <= y /\ 0 <= x
      /\ exists c, cell_at stock y x = Some c /\ c <> EMPTY.
Proof.
  unfold filled_positions, cell_at. rewrite in_flat_map. split.
  - intros ([y' row] & Hrow & Hin). cbn [fst snd] in Hin.
    apply in_flat_map in Hin. destruct Hin as ([x' c] & Hc & Hin).
    cbn [fst snd] in Hin.
    destruct (negb (c =? EMPTY)) eqn:E; [|contradiction].
    destruct Hin as [Heq | []]. injection Heq as -> ->.
    apply enumerate_from_In in Hrow. apply enumerate_from_In in Hc.
    rewrite Z.sub_0_r in *. destruct Hrow as [Hy Hrow], Hc as [Hx Hc].
    split; [exact Hy|]. split; [exact Hx|]. exists c. rewrite Hrow.
    split; [exact Hc|]. apply negb_true_iff, Z.eqb_neq in E. exact E.
  - intros (Hy & Hx & c & Hcell & Hc).
    destruct (nth_error stock (Z.to_nat y)) as [row|] eqn:Er; [|discriminate].
    exists (y, row). split.
    + apply enumerate_from_In. rewrite Z.sub_0_r. now split.
    + cbn [fst snd]. apply in_flat_map. exists (x, c). split.
      * apply enumerate_from_In. rewrite Z.sub_0_r. now split.
      * cbn [fst snd]. replace (c =? EMPTY) with false
          by (symmetry; now apply Z.eqb_neq).
        now left.
Qed.

Lemma fold_min (l : list Z) (d : Z) :
  fold_left Z.min l d <= d
  /\ (forall x, In x l -> fold_left Z.min l d <= x)
  /\ (fold_left Z.min l d = d \/ In (fold_left Z.min l d) l).
Proof.
  revert d. induction l as [|a l IH]; intros d; cbn [fold_left].
  - split; [lia|]. split; [easy | now left].
  - destruct (IH (Z.min d a)) as (H1 & H2 & H3). split; [lia|]. split.
    + intros x [<- | Hx]; [lia | now apply H2].
    + destruct H3 as [H3 | H3]; [|right; now right].
      destruct (Z.min_spec d a) as [[_ E] | [_ E]].
      * left. rewrite H3. exact E.
      * right. left. rewrite H3. symmetry. exact E.
Qed.

(** X17.  [_get_distance_to_filled] is 0 on a grid without an occupied
    cell; otherwise it is the Manhattan distance from the position to an
    occupied cell of the grid, and no occupied cell is nearer.  It is never
    negative. *)
Theorem distance_to_filled_is_minimum (stock : Stock) (pos_x pos_y : Z) :
  let d := _get_distance_to_filled stock pos_x pos_y in
  0 <= d
  /\ ((forall y x c, cell_at stock y x = Some c -> 0 <= y -> 0 <= x ->
                     c = EMPTY) -> d = 0)
  /\ (forall y x c,
        0 <= y -> 0 <= x -> cell_at stock y x = Some c -> c <> EMPTY ->
        d <= Z.abs (y - pos_y) + Z.abs (x - pos_x)
        /\ exists y0 x0 c0,
            0 <= y0 /\ 0 <= x0
            /\ cell_at stock y0 x0 = Some c0 /\ c0 <> EMPTY
            /\ d = Z.abs (y0 - pos_y) + Z.abs (x0 - pos_x)).
Proof.
  cbv zeta. unfold _get_distance_to_filled.
  pose proof (filled_positions_In stock) as Hin.
  destruct (filled_positions stock) as [|[y0 x0] rest] eqn:Ef.
  - cbn. split; [lia|]. split; [reflexivity|].
    intros y x c Hy Hx Hc Hne. exfalso.
    apply (proj2 (Hin y x)). split; [exact Hy|]. split; [exact Hx|].
    now exists c.
  - replace (len ((y0, x0) :: rest) =? 0) with false
      by (symmetry; apply Z.eqb_neq; unfold len; cbn; lia).
    cbn [map fst snd].
    set (dist := fun rc : Z * Z =>
           Z.abs (fst rc - pos_y) + Z.abs (snd rc - pos_x)).
    change (Z.abs (y0 - pos_y) + Z.abs (x0 - pos_x)) with (dist (y0, x0)).
    destruct (fold_min (map dist rest) (dist (y0, x0))) as (H1 & H2 & H3).
    set (d := fold_left Z.min (map dist rest) (dist (y0, x0))) in *.
    assert (Hattained : exists rc, In rc ((y0, x0) :: rest) /\ d = dist rc).
    { destruct H3 as [H3 | H3].
      - exists (y0, x0). split; [now left | exact H3].
      - apply in_map_iff in H3. destruct H3 as (rc & Hrc & Hin').
        exists rc. split; [now right | now symmetry]. }
    destruct Hattained as ([ya xa] & Hina & Hda).
    split; [rewrite Hda; unfold dist; cbn [fst snd]; lia|]. split.
    + intros Hall. exfalso.
      destruct (proj1 (Hin y0 x0) ltac:(now left)) as (Hy & Hx & c & Hc & Hne).
      apply Hne. exact (Hall y0 x0 c Hc Hy Hx).
    + intros y x c Hy Hx Hc Hne. split.
      * assert (Hyx : In (y, x) ((y0, x0) :: rest)).
        { apply Hin. split; [exact Hy|]. split; [exact Hx|]. now exists c. }
        destruct Hyx as [Heq | Hyx].
        -- injection Heq as <- <-. exact H1.
        -- apply (H2 (dist (y, x))). apply in_map_iff. now exists (y, x).
      * destruct (proj1 (Hin ya xa) Hina) as (Hya & Hxa & ca & Hca & Hnea).
        exists ya, xa, ca. repeat split; assumption.
Qed.

Lemma distance_to_filled_is_minimum_witness :
  _get_distance_to_filled left_neighbour_stock 3 0 = 5
  /\ _get_distance_to_filled left_neighbour_stock 3 0
     <= Z.abs (2 - 0) + Z.abs (0 - 3).
Proof.
  split; [reflexivity|].
  destruct (@distance_to_filled_is_minimum left_neighbour_stock 3 0)
    as (_ & _ & H).
  apply (H 2 0 7); [lia | lia | reflexivity | discriminate].
Defined.

(** ** The halo of a rectangle *)

(** Two double loops over the same ranges keep a relation between their
    accumulators that every pair of loop bodies keeps. *)
Lemma double_loop_related {A B} (R : A -> B -> Prop)
  (f : A -> Z -> Z -> A) (g : B -> Z -> Z -> B) (xs ys : list Z) :
  (forall a b dx dy, R a b -> R (f a dx dy) (g b dx dy)) ->
  forall a b, R a b ->
    R (fold_left (fun a dx => fold_left (fun a dy => f a dx dy) ys a) xs a)
      (fold_left (fun b dx => fold_left (fun b dy => g b dx dy) ys b) xs b).
Proof.
  intros Hstep. induction xs as [|dx xs IH]; intros a b Hab; [exact Hab|].
  cbn [fold_left]. apply IH. clear IH. revert a b Hab.
  induction ys as [|dy ys IH]; intros a b Hab; [exact Hab|].
  cbn [fold_left]. apply IH, Hstep, Hab.
Qed.

(** X18.  The adjacency weight lies between a quarter of and twice the
    number of occupied cells in the one-cell halo of the rectangle, so it is
    0 exactly when the halo holds no occupied cell; and the empty cells that
    [_count_empty_neighbors] counts are the cells of the halo within the
    grid that are not occupied. *)
Theorem halo_counts (stock : Stock) (pos_x pos_y size_w size_h : Z) :
  let weight := _count_adjacent_pieces stock pos_x pos_y size_w size_h in
  let occupied := occupied_neighbors stock pos_x pos_y size_w size_h in
  let empty := _count_empty_neighbors stock pos_x pos_y size_w size_h in
  ((1 # 4) * inject_Z occupied <= weight <= 2 * inject_Z occupied)%Q
  /\ 0 <= occupied /\ 0 <= empty
  /\ ((weight == 0)%Q <-> occupied = 0)
  /\ empty + occupied = halo_cells stock pos_x pos_y size_w size_h.
Proof.
  cbv zeta.
  assert (Hweight :
    ((1 # 4) * inject_Z (occupied_neighbors stock pos_x pos_y size_w size_h)
     <= _count_adjacent_pieces stock pos_x pos_y size_w size_h
     <= 2 * inject_Z (occupied_neighbors stock pos_x pos_y size_w size_h))%Q
    /\ 0 <= occupied_neighbors stock pos_x pos_y size_w size_h).
  { unfold _count_adjacent_pieces, occupied_neighbors. cbv zeta.
    apply (double_loop_related
             (fun (a : Q) (b : Z) =>
                ((1 # 4) * inject_Z b <= a <= 2 * inject_Z b)%Q /\ 0 <= b)
             (fun a dx dy =>
                (a + adjacent_weight_at stock pos_x pos_y size_w size_h
                                        dx dy)%Q)
             (fun b dx dy =>
                b + occupied_neighbor_at stock pos_x pos_y size_w size_h
                                         dx dy)).
    - intros a b dx dy [Hab Hb].
      unfold adjacent_weight_at, occupied_neighbor_at. cbv zeta.
      destruct ((0 <=? dx) && (dx <? size_w) && (0 <=? dy) && (dy <? size_h));
        [rewrite Z.add_0_r; split; [lra | lia]|].
      destruct ((0 <=? pos_x + dx) && (pos_x + dx <? shape1 stock)
                && (0 <=? pos_y + dy) && (pos_y + dy <? shape0 stock));
        [|rewrite Z.add_0_r; split; [lra | lia]].
      destruct (negb (cell stock (pos_y + dy) (pos_x + dx) =? EMPTY));
        [|rewrite Z.add_0_r; split; [lra | lia]].
      split; [|lia]. rewrite inject_Z_plus. change (inject_Z 1) with 1%Q.
      destruct (in_pair dx size_w || in_pair dy size_h); lra.
    - split; [|lia]. change (inject_Z 0) with 0%Q. lra. }
  assert (Hempty :
    0 <= _count_empty_neighbors stock pos_x pos_y size_w size_h
    /\ _count_empty_neighbors stock pos_x pos_y size_w size_h
       + occupied_neighbors stock pos_x pos_y size_w size_h
       = halo_cells stock pos_x pos_y size_w size_h).
  { unfold _count_empty_neighbors, occupied_neighbors, halo_cells. cbv zeta.
    change (- (1)) with (-1).
    assert (Hrel :
      (fun (e : Z) (on : Z * Z) => 0 <= e /\ e + fst on = snd on)
        (fold_left (fun e dx => fold_left (fun e dy =>
             e + empty_neighbor_at stock pos_x pos_y size_w size_h dx dy)
           (range (-1) (size_h + 1)) e) (range (-1) (size_w + 1)) 0)
        (fold_left (fun on dx => fold_left (fun on dy =>
             (fst on + occupied_neighbor_at stock pos_x pos_y size_w size_h
                                            dx dy,
              snd on + halo_cell_at stock pos_x pos_y size_w size_h dx dy))
           (range (-1) (size_h + 1)) on) (range (-1) (size_w + 1)) (0, 0))).
    { apply (double_loop_related
               (fun (e : Z) (on : Z * Z) => 0 <= e /\ e + fst on = snd on)
               (fun e dx dy =>
                  e + empty_neighbor_at stock pos_x pos_y size_w size_h
                                        dx dy)
               (fun on dx dy =>
                  (fst on + occupied_neighbor_at stock pos_x pos_y size_w
                                                 size_h dx dy,
                   snd on + halo_cell_at stock pos_x pos_y size_w size_h
                                         dx dy))).
      - intros e [o n] dx dy [He Hsum]. cbn [fst snd] in *.
        unfold empty_neighbor_at, occupied_neighbor_at, halo_cell_at.
        cbv zeta.
        destruct ((0 <=? dx) && (dx <? size_w) && (0 <=? dy)
                  && (dy <? size_h)); [lia|].
        destruct ((0 <=? pos_x + dx) && (pos_x + dx <? shape1 stock)
                  && (0 <=? pos_y + dy) && (pos_y + dy <? shape0 stock));
          [|lia].
        destruct (cell stock (pos_y + dy) (pos_x + dx) =? EMPTY);
          cbn [negb]; lia.
      - cbn. lia. }
    assert (Hpair : forall xs ys (on : Z * Z),
      fold_left (fun on dx => fold_left (fun on dy =>
           (fst on + occupied_neighbor_at stock pos_x pos_y size_w size_h
                                          dx dy,
            snd on + halo_cell_at stock pos_x pos_y size_w size_h dx dy))
         ys on) xs on
      = (fold_left (fun o dx => fold_left (fun o dy =>
             o + occupied_neighbor_at stock pos_x pos_y size_w size_h dx dy)
           ys o) xs (fst on),
         fold_left (fun n dx => fold_left (fun n dy =>
             n + halo_cell_at stock pos_x pos_y size_w size_h dx dy)
           ys n) xs (snd on))).
    { intros xs ys on.
      revert on. induction xs as [|dx xs IHx]; intros on;
        [now destruct on|].
      cbn [fold_left]. rewrite IHx. clear IHx.
      assert (Hinner : forall on0 : Z * Z,
        fold_left (fun on dy =>
            (fst on + occupied_neighbor_at stock pos_x pos_y size_w size_h
                                           dx dy,
             snd on + halo_cell_at stock pos_x pos_y size_w size_h dx dy))
          ys on0
        = (fold_left (fun o dy =>
               o + occupied_neighbor_at stock pos_x pos_y size_w size_h
                                        dx dy) ys (fst on0),
           fold_left (fun n dy =>
               n + halo_cell_at stock pos_x pos_y size_w size_h dx dy)
             ys (snd on0))).
      { induction ys as [|dy ys IHy]; intros on0; [now destruct on0|].
        cbn [fold_left]. now rewrite IHy. }
      now rewrite Hinner. }
    rewrite Hpair in Hrel. cbn [fst snd] in Hrel. exact Hrel. }
  destruct Hweight as [Hw Ho], Hempty as [He Hsum].
  split; [exact Hw|]. split; [exact Ho|]. split; [exact He|].
  split; [|exact Hsum].
  split.
  - intros H0. rewrite H0 in Hw.
    assert (Hq : (inject_Z (occupied_neighbors stock pos_x pos_y size_w
                                               size_h) <= 0)%Q) by lra.
    rewrite <- (Zle_Qle _ 0) in Hq. lia.
  - intros H0. rewrite H0 in Hw. change (inject_Z 0) with 0%Q in Hw. lra.
Qed.

(** ** Perfect fits *)

Lemma count_occupied_loop (read : Z -> result Z) (ks : list Z) :
  forall n c,
    for_result (fun k n =>
        (c <- read k ;; Ok (if negb (c =? EMPTY) then n + 1 else n))%res)
      ks n = Ok c ->
    n <= c <= n + len ks.
Proof.
  unfold len. induction ks as [|k ks IH]; intros n c Hrun;
    cbn [for_result] in Hrun.
  - injection Hrun as <-. cbn. lia.
  - destruct (read k) as [v|e]; cbn [rbind] in Hrun; [|discriminate].
    apply IH in Hrun. cbn [length].
    destruct (negb (v =? EMPTY)); lia.
Qed.

Lemma count_occupied_returns (read : Z -> result Z) (ks : list Z) :
  (forall k, In k ks -> exists v, read k = Ok v) ->
  exists c, count_occupied read ks = Ok c.
Proof.
  unfold count_occupied. generalize 0.
  induction ks as [|k ks IH]; intros n Hread; cbn [for_result].
  - now exists n.
  - destruct (Hread k (or_introl eq_refl)) as [v ->]. cbn [rbind].
    apply IH. intros k' Hk'. apply Hread. now right.
Qed.

Lemma count_occupied_raises (read : Z -> result Z) (ks : list Z) (e : exn) :
  count_occupied read ks = Raise e ->
  exists k, In k ks /\ read k = Raise e.
Proof.
  unfold count_occupied. generalize 0.
  induction ks as [|k ks IH]; intros n Hrun; cbn [for_result] in Hrun;
    [discriminate|].
  destruct (read k) as [v|e'] eqn:E; cbn [rbind] in Hrun.
  - destruct (IH _ Hrun) as (k' & Hk' & Hr). exists k'. split; [now right|].
    exact Hr.
  - injection Hrun as ->. exists k. split; [now left | exact E].
Qed.

Lemma np_get_raises (stock : Stock) (i j : Z) (e : exn) :
  np_get stock i j = Raise e -> e = IndexError.
Proof.
  unfold np_get. cbv zeta.
  destruct (_ && _); [discriminate|]. now intros [= <-].
Qed.

Lemma np_get_returns (stock : Stock) (i j : Z) :
  0 <= i < shape0 stock -> 0 <= j < shape1 stock ->
  np_get stock i j = Ok (cell stock i j).
Proof.
  intros Hi Hj. unfold np_get. cbv zeta.
  destruct (Z.ltb_spec i 0); [lia|]. destruct (Z.ltb_spec j 0); [lia|].
  destruct (Z.leb_spec 0 i); [|lia].
  destruct (Z.ltb_spec i (shape0 stock)); [|lia].
  destruct (Z.leb_spec 0 j); [|lia].
  destruct (Z.ltb_spec j (shape1 stock)); [|lia].
  reflexivity.
Qed.

Lemma perfect_fit_step_effect (stock : Stock)
  (pos_x pos_y prod_w prod_h : Z) (dir : Z * Z) (st st' : Z * Q) :
  0 < prod_w -> 0 < prod_h ->
  (snd st == inject_Z (fst st))%Q ->
  perfect_fit_step stock pos_x pos_y prod_w prod_h dir st = Ok st' ->
  (snd st' == inject_Z (fst st'))%Q /\ fst st <= fst st' <= fst st + 1.
Proof.
  intros Hw Hh Hinv. destruct dir as [dx dy], st as [n q].
  cbn [fst snd] in Hinv. unfold perfect_fit_step.
  assert (Hone : forall a d, 0 < d -> (a =? d) = true ->
            (q + inject_Z a / inject_Z d == inject_Z (n + 1))%Q).
  { intros a d Hd Ha. apply Z.eqb_eq in Ha. subst a.
    rewrite inject_Z_plus, Hinv. change (inject_Z 1) with 1%Q.
    apply Qplus_inj_l. apply Qmult_inv_r.
    intros H0. unfold Qeq in H0. cbn in H0. lia. }
  assert (Hkeep : Ok (n, q) = Ok st' ->
            (snd st' == inject_Z (fst st'))%Q
            /\ fst (n, q) <= fst st' <= fst (n, q) + 1).
  { intros [= <-]. cbn [fst snd]. split; [exact Hinv | lia]. }
  destruct (_ && _); [|exact Hkeep].
  destruct (negb (dx =? 0)).
  - destruct (count_occupied _ _) as [a|e]; cbn [rbind]; [|discriminate].
    destruct (a =? prod_h) eqn:Ea; [|exact Hkeep].
    intros [= <-]. cbn [fst snd]. split; [now apply Hone | lia].
  - destruct (negb (dy =? 0)); [|exact Hkeep].
    destruct (count_occupied _ _) as [a|e]; cbn [rbind]; [|discriminate].
    destruct (a =? prod_w) eqn:Ea; [|exact Hkeep].
    intros [= <-]. cbn [fst snd]. split; [now apply Hone | lia].
Qed.

Lemma perfect_fit_step_raises (stock : Stock)
  (pos_x pos_y prod_w prod_h : Z) (dir : Z * Z) (st : Z * Q) (e : exn) :
  perfect_fit_step stock pos_x pos_y prod_w prod_h dir st = Raise e ->
  e = IndexError.
Proof.
  destruct dir as [dx dy], st as [n q]. unfold perfect_fit_step.
  destruct (_ && _); [|discriminate].
  destruct (negb (dx =? 0)).
  - destruct (count_occupied _ _) as [a|e'] eqn:E; cbn [rbind].
    + destruct (a =? prod_h); discriminate.
    + intros [= ->]. apply count_occupied_raises in E.
      destruct E as (k & _ & E). exact (np_get_raises _ _ _ E).
  - destruct (negb (dy =? 0)); [|discriminate].
    destruct (count_occupied _ _) as [a|e'] eqn:E; cbn [rbind].
    + destruct (a =? prod_w); discriminate.
    + intros [= ->]. apply count_occupied_raises in E.
      destruct E as (k & _ & E). exact (np_get_raises _ _ _ E).
Qed.

Lemma perfect_fit_step_returns (stock : Stock)
  (pos_x pos_y prod_w prod_h : Z) (dir : Z * Z) (st : Z * Q) :
  0 <= pos_x -> pos_x + prod_w <= shape1 stock ->
  0 <= pos_y -> pos_y + prod_h <= shape0 stock ->
  exists st', perfect_fit_step stock pos_x pos_y prod_w prod_h dir st = Ok st'.
Proof.
  intros Hx Hxw Hy Hyh. destruct dir as [dx dy], st as [n q].
  unfold perfect_fit_step.
  destruct (_ && _) eqn:Eb; [|now eexists].
  apply andb_prop in Eb. destruct Eb as [Eb Hy2].
  apply andb_prop in Eb. destruct Eb as [Eb Hy1].
  apply andb_prop in Eb. destruct Eb as [Hx1 Hx2].
  apply Z.leb_le in Hx1, Hy1. apply Z.ltb_lt in Hx2, Hy2.
  destruct (negb (dx =? 0)).
  - destruct (@count_occupied_returns
                (fun y => np_get stock y (pos_x + dx * prod_w))
                (range pos_y (pos_y + prod_h))) as [a ->].
    { intros y Hin. apply range_In in Hin. eexists.
      apply np_get_returns; lia. }
    cbn [rbind]. destruct (a =? prod_h); now eexists.
  - destruct (negb (dy =? 0)); [|now eexists].
    destruct (@count_occupied_returns
                (fun x => np_get stock (pos_y + dy * prod_h) x)
                (range pos_x (pos_x + prod_w))) as [a ->].
    { intros x Hin. apply range_In in Hin. eexists.
      apply np_get_returns; lia. }
    cbn [rbind]. destruct (a =? prod_w); now eexists.
Qed.

(** X19.  For a rectangle of positive extent [_is_perfect_fit] raises nothing
    but [IndexError], and nothing at all when the rectangle lies within the
    grid.  Whenever it returns, [alignment_quality] equals [perfect_fits],
    which is at most 4, so the answer is [perfect_fits >= 2]: the clause
    [alignment_quality >= 1.5] never decides. *)
Theorem is_perfect_fit_counts_full_sides (stock : Stock)
  (pos_x pos_y prod_w prod_h : Z) :
  0 < prod_w -> 0 < prod_h ->
  (forall e, _is_perfect_fit stock pos_x pos_y prod_w prod_h = Raise e ->
             e = IndexError)
  /\ (0 <= pos_x -> pos_x + prod_w <= shape1 stock ->
      0 <= pos_y -> pos_y + prod_h <= shape0 stock ->
      exists b, _is_perfect_fit stock pos_x pos_y prod_w prod_h = Ok b)
  /\ (forall perfect_fits alignment_quality,
        perfect_fit_loop stock pos_x pos_y prod_w prod_h
        = Ok (perfect_fits, alignment_quality) ->
        0 <= perfect_fits <= 4
        /\ (alignment_quality == inject_Z perfect_fits)%Q
        /\ _is_perfect_fit stock pos_x pos_y prod_w prod_h
           = Ok (2 <=? perfect_fits)).
Proof.
  intros Hw Hh.
  assert (Hraise : forall dirs st e,
            for_result (perfect_fit_step stock pos_x pos_y prod_w prod_h)
                       dirs st = Raise e -> e = IndexError).
  { induction dirs as [|dir dirs IH]; intros st e Hrun;
      cbn [for_result] in Hrun; [discriminate|].
    destruct (perfect_fit_step _ _ _ _ _ dir st) as [st1|e1] eqn:E;
      cbn [rbind] in Hrun.
    - exact (IH _ _ Hrun).
    - injection Hrun as <-. exact (perfect_fit_step_raises _ _ _ _ _ _ _ E). }
  assert (Hreturn : 0 <= pos_x -> pos_x + prod_w <= shape1 stock ->
            0 <= pos_y -> pos_y + prod_h <= shape0 stock ->
            forall dirs st, exists st',
              for_result (perfect_fit_step stock pos_x pos_y prod_w prod_h)
                         dirs st = Ok st').
  { intros Hx Hxw Hy Hyh.
    induction dirs as [|dir dirs IH]; intros st; cbn [for_result];
      [now eexists|].
    destruct (@perfect_fit_step_returns stock pos_x pos_y prod_w prod_h
                dir st Hx Hxw Hy Hyh) as [st1 ->].
    cbn [rbind]. apply IH. }
  assert (Hinv : forall dirs st st',
            (snd st == inject_Z (fst st))%Q ->
            for_result (perfect_fit_step stock pos_x pos_y prod_w prod_h)
                       dirs st = Ok st' ->
            (snd st' == inject_Z (fst st'))%Q
            /\ fst st <= fst st' <= fst st + len dirs).
  { unfold len. induction dirs as [|dir dirs IH]; intros st st' Hst Hrun;
      cbn [for_result] in Hrun.
    - injection Hrun as <-. cbn. split; [exact Hst | lia].
    - destruct (perfect_fit_step _ _ _ _ _ dir st) as [st1|e1] eqn:E;
        cbn [rbind] in Hrun; [|discriminate].
      destruct (@perfect_fit_step_effect stock pos_x pos_y prod_w prod_h
                  dir st st1 Hw Hh Hst E)
        as [Hst1 Hn1].
      destruct (IH _ _ Hst1 Hrun) as [Hst' Hn']. split; [exact Hst'|].
      cbn [length]. lia. }
  split; [|split].
  - intros e. unfold _is_perfect_fit, perfect_fit_loop.
    destruct (for_result _ _ _) as [st|e'] eqn:E; cbn [rbind];
      [discriminate|].
    intros [= <-]. exact (Hraise _ _ _ E).
  - intros Hx Hxw Hy Hyh. unfold _is_perfect_fit, perfect_fit_loop.
    destruct (Hreturn Hx Hxw Hy Hyh [(0, 1); (0, -1); (1, 0); (-1, 0)]
                      (0, 0%Q)) as [st ->].
    cbn [rbind]. now eexists.
  - intros n q Hrun. unfold _is_perfect_fit. rewrite Hrun. cbn [rbind fst snd].
    unfold perfect_fit_loop in Hrun.
    apply Hinv in Hrun; [|reflexivity]. cbn [fst snd] in Hrun.
    destruct Hrun as [Hq Hn]. change (len _) with 4 in Hn.
    split; [lia|]. split; [exact Hq|]. f_equal.
    destruct (Z.leb_spec 2 n) as [H2|H2]; [reflexivity|]. cbn [orb].
    destruct (Qle_bool (15 # 10) q) eqn:Eq; [|reflexivity].
    apply Qle_bool_iff in Eq. rewrite Hq in Eq.
    assert (Hn1 : (inject_Z n <= inject_Z 1)%Q)
      by (rewrite <- Zle_Qle; lia).
    change (inject_Z 1) with 1%Q in Hn1. lra.
Qed.

Lemma is_perfect_fit_counts_full_sides_witness :
  0 < 2 /\ 0 < 1
  /\ perfect_fit_loop left_neighbour_stock 1 2 2 1 = Ok (0, 0%Q)
  /\ _is_perfect_fit left_neighbour_stock 1 2 2 1 = Ok (2 <=? 0).
Proof.
  assert (Hw : 0 < 2) by lia. assert (Hh : 0 < 1) by lia.
  assert (Hrun : perfect_fit_loop left_neighbour_stock 1 2 2 1 = Ok (0, 0%Q))
    by reflexivity.
  split; [exact Hw|]. split; [exact Hh|]. split; [exact Hrun|].
  destruct (@is_perfect_fit_counts_full_sides left_neighbour_stock 1 2 2 1
              Hw Hh) as (_ & _ & H).
  exact (proj2 (proj2 (H 0 0%Q Hrun))).
Defined.

(** ** Episode metrics *)

Lemma range_snoc (n : nat) :
  range 0 (Z.of_nat n + 1) = range 0 (Z.of_nat n) ++ [Z.of_nat n].
Proof.
  unfold range. rewrite !Z.sub_0_r.
  replace (Z.to_nat (Z.of_nat n + 1)) with (S n) by lia.
  rewrite Nat2Z.id, seq_S, map_app. reflexivity.
Qed.

Lemma add_episode_data_keeps_scores (filled_ratio total_reward : Q)
  (m : CuttingStockMetrics) :
  length (episode_rewards m) = length (episode_numbers m) ->
  best_scores_ok m ->
  best_scores_ok
    (add_episode_data (len (episode_numbers m)) filled_ratio total_reward m).
Proof.
  intros Hlen (H0 & Hratios & Hbest). unfold best_scores_ok, add_episode_data.
  cbn [best_filled_ratio episode_filled_ratios best_reward episode_numbers
       best_episode episode_rewards].
  split; [|split].
  - destruct (Qlt_bool (best_filled_ratio m) filled_ratio) eqn:E; [|exact H0].
    apply Qlt_bool_iff in E. lra.
  - apply Forall_app. split.
    + refine (Forall_impl _ _ Hratios). intros r Hr.
      destruct (Qlt_bool (best_filled_ratio m) filled_ratio) eqn:E;
        [|exact Hr].
      apply Qlt_bool_iff in E. lra.
    + constructor; [|constructor].
      destruct (Qlt_bool (best_filled_ratio m) filled_ratio) eqn:E; [lra|].
      unfold Qlt_bool in E. apply negb_false_iff, Qle_bool_iff in E.
      exact E.
  - unfold len in *. rewrite length_app. cbn [length].
    destruct (best_reward m) as [b|]; cbn [better].
    + destruct Hbest as (Hidx & Hnth & Hall & Hfirst).
      destruct (Qle_bool total_reward b) eqn:E; cbn [negb].
      * apply Qle_bool_iff in E. split; [lia|]. split; [|split].
        -- rewrite nth_error_app1 by lia. exact Hnth.
        -- apply Forall_app. split; [exact Hall|]. now repeat constructor.
        -- intros i r Hi Hr. rewrite nth_error_app1 in Hr by lia.
           exact (Hfirst i r Hi Hr).
      * assert (Hlt : (b < total_reward)%Q).
        { apply Qnot_le_lt. intros Hle. apply Qle_bool_iff in Hle.
          congruence. }
        split; [lia|]. rewrite Nat2Z.id. split; [|split].
        -- rewrite nth_error_app2 by lia. rewrite Hlen, Nat.sub_diag.
           reflexivity.
        -- apply Forall_app. split.
           ++ refine (Forall_impl _ _ Hall). intros r Hr. lra.
           ++ repeat constructor. lra.
        -- intros i r Hi Hr. rewrite nth_error_app1 in Hr by lia.
           apply nth_error_In in Hr.
           apply (proj1 (Forall_forall _ _) Hall) in Hr. lra.
    + destruct Hbest as [Hnil _]. rewrite Hnil in *. cbn [length] in *.
      destruct (episode_rewards m) as [|r rs]; [|discriminate].
      cbn. split; [lia|]. split; [reflexivity|]. split.
      * repeat constructor. lra.
      * intros i r Hi. lia.
Qed.

(** X20.  After any sequence of calls of [log_episode_summary] on fresh
    metrics, one episode is recorded for every call whose observation has no
    demand left, the recorded episode numbers are 0, 1, 2, ... in order, the
    three history lists have one length, the best filled ratio is at least 0
    and at least every recorded ratio, and the best reward is the greatest
    recorded reward, [best_episode] being the first episode that reached it
    (-inf and -1 while nothing is recorded). *)
Theorem episode_history_invariant (calls : list SummaryCall) :
  let m := log_all calls new_metrics in
  let recorded := filter completed calls in
  episode_numbers m = range 0 (len recorded)
  /\ episode_filled_ratios m = map (fun c => snd (fst (fst c))) recorded
  /\ episode_rewards m = map (fun c => snd (fst c)) recorded
  /\ best_scores_ok m.
Proof.
  cbv zeta. induction calls as [|c calls IH] using rev_ind.
  - split; [reflexivity|]. split; [reflexivity|]. split; [reflexivity|].
    unfold best_scores_ok, log_all, new_metrics.
    cbn [fold_left best_filled_ratio episode_filled_ratios best_reward
         episode_numbers best_episode].
    split; [lra|]. split; [constructor|]. split; reflexivity.
  - unfold log_all in *. rewrite fold_left_app, filter_app. cbn [fold_left].
    set (m := fold_left _ calls new_metrics) in *.
    destruct IH as (Hnum & Hratio & Hreward & Hbest).
    destruct c as [[[steps_taken filled_ratio] episode_reward] observation].
    unfold log_episode_summary. cbn [filter]. unfold completed at 2 4 6.
    cbn [snd].
    destruct (fold_right Z.add 0 (map quantity (products observation)) =? 0).
    + assert (Hlen : len (episode_numbers m)
                     = len (filter completed calls)).
      { rewrite Hnum at 1. unfold len. rewrite range_length. lia. }
      rewrite !map_app. cbn [map fst snd].
      split; [|split; [|split]].
      * unfold add_episode_data. cbn [episode_numbers].
        rewrite Hlen. rewrite Hnum at 1. unfold len.
        rewrite length_app. cbn [length].
        rewrite Nat2Z.inj_add. change (Z.of_nat 1) with 1.
        symmetry. apply range_snoc.
      * unfold add_episode_data. cbn [episode_filled_ratios].
        now rewrite Hratio.
      * unfold add_episode_data. cbn [episode_rewards]. now rewrite Hreward.
      * apply add_episode_data_keeps_scores; [|exact Hbest].
        rewrite Hreward, Hnum, length_map, range_length. unfold len.
        now rewrite Z.sub_0_r, Nat2Z.id.
    + rewrite !app_nil_r.
      split; [exact Hnum|]. split; [exact Hratio|].
      split; [exact Hreward | exact Hbest].
Qed.

(** ** The report on a placement *)

Lemma py_index_raises {A} (l : list A) (i : Z) (e : exn) :
  py_index l i = Raise e -> e = IndexError.
Proof.
  unfold py_index. cbv zeta. destruct (_ && _).
  - destruct (nth_error _ _); [discriminate | now intros [= <-]].
  - now intros [= <-].
Qed.

(** X21.  [evaluate_cutting_pattern] on a placement raises nothing but the
    [IndexError] of a stock index out of range, and then records nothing.
    Otherwise it appends one entry to each of the two metric lists and
    touches nothing else; [edge_contact] is 0, 1 or 2, it is at least 1
    exactly when the placement touches a side of the stock, [is_corner]
    holds exactly when it is 2, and [position_quality] implies it is at
    least 1.  A placement of the structured strategy always gets a report
    with [edge_contact >= 1].  (The stock size is that of the grid.) *)
Theorem evaluate_cutting_pattern_report (observation : Observation)
  (a : Action) (m : CuttingStockMetrics) :
  (forall e, fst (evaluate_cutting_pattern observation (Some a) m) = Raise e ->
     e = IndexError
     /\ py_index (stocks observation) (stock_idx a) = Raise IndexError
     /\ snd (evaluate_cutting_pattern observation (Some a) m) = m)
  /\ (forall stock,
        py_index (stocks observation) (stock_idx a) = Ok stock ->
        exists r,
          evaluate_cutting_pattern observation (Some a) m
          = (Ok (Some r),
             mkMetrics (episode_numbers m) (episode_filled_ratios m)
                       (episode_rewards m) (best_filled_ratio m)
                       (best_reward m) (best_episode m)
                       (edge_utilization m ++ [edge_contact r])
                       (corner_placements m
                        ++ [if is_corner r then 1 else 0]))
          /\ 0 <= edge_contact r <= 2
          /\ (1 <= edge_contact r
              <-> on_edge stock (action_size a) (position a))
          /\ is_corner r = (edge_contact r =? 2)
          /\ (position_quality r = true -> 1 <= edge_contact r)
          /\ piece_area r = fst (action_size a) * snd (action_size a))
  /\ (_get_structured_placement observation = Some a ->
      exists r,
        fst (evaluate_cutting_pattern observation (Some a) m) = Ok (Some r)
        /\ 1 <= edge_contact r).
Proof.
  assert (Hreport : forall stock,
    py_index (stocks observation) (stock_idx a) = Ok stock ->
    exists r,
      evaluate_cutting_pattern observation (Some a) m
      = (Ok (Some r),
         mkMetrics (episode_numbers m) (episode_filled_ratios m)
                   (episode_rewards m) (best_filled_ratio m)
                   (best_reward m) (best_episode m)
                   (edge_utilization m ++ [edge_contact r])
                   (corner_placements m ++ [if is_corner r then 1 else 0]))
      /\ 0 <= edge_contact r <= 2
      /\ (1 <= edge_contact r <-> on_edge stock (action_size a) (position a))
      /\ is_corner r = (edge_contact r =? 2)
      /\ (position_quality r = true -> 1 <= edge_contact r)
      /\ piece_area r = fst (action_size a) * snd (action_size a)).
  { intros stock Hstock. unfold evaluate_cutting_pattern. rewrite Hstock.
    unfold _get_stock_size_, on_edge.
    destruct (position a) as [pos_x pos_y].
    destruct (action_size a) as [size_w size_h]. cbn [fst snd].
    eexists (mkReport _ _ _ _). split; [reflexivity|].
    cbn [edge_contact is_corner position_quality piece_area].
    destruct (Z.eqb_spec pos_x 0) as [Hx0|Hx0];
      destruct (Z.eqb_spec (pos_x + size_w) (shape1 stock)) as [Hx1|Hx1];
      destruct (Z.eqb_spec pos_y 0) as [Hy0|Hy0];
      destruct (Z.eqb_spec (pos_y + size_h) (shape0 stock)) as [Hy1|Hy1];
      cbn [orb andb];
      (split; [lia|]); (split; [split; intros Hside; lia|]);
      (split; [reflexivity|]); (split; [|reflexivity]);
      solve [intros _; lia | discriminate]. }
  split; [|split; [exact Hreport|]].
  - intros e. unfold evaluate_cutting_pattern.
    destruct (py_index (stocks observation) (stock_idx a)) as [stock|e0] eqn:E.
    + destruct (_get_stock_size_ stock), (position a), (action_size a).
      discriminate.
    + cbn [fst snd]. intros [= <-].
      rewrite (py_index_raises _ _ E). repeat split.
  - intros Hplace. unfold _get_structured_placement in Hplace.
    destruct (_get_largest_product observation) as [p|]; [|discriminate].
    destruct (for_each _ _ _) as [r0|u] eqn:E; [|discriminate].
    injection Hplace as ->.
    apply for_each_returned in E.
    destruct E as ([idx stock] & [] & Hin & Hbody).
    unfold structured_in_stock in Hbody. cbn [_get_stock_size_] in Hbody.
    destruct (find _ _) as [pos|] eqn:Ef; [|discriminate].
    injection Hbody as <-. apply find_some in Ef. destruct Ef as [Htried _].
    apply tried_on_edge in Htried. apply enumerate_py_index in Hin.
    destruct (Hreport stock Hin) as (r & Hrun & _ & Hedge & _).
    exists r. rewrite Hrun. split; [reflexivity|].
    apply Hedge. exact Htried.
Qed.

Lemma evaluate_cutting_pattern_report_witness :
  _get_structured_placement first_observation
  = Some (mkAction 0 (4, 4) (0, 0))
  /\ exists r,
       fst (evaluate_cutting_pattern first_observation
              (Some (mkAction 0 (4, 4) (0, 0))) new_metrics) = Ok (Some r)
       /\ 1 <= edge_contact r.
Proof.
  assert (H : _get_structured_placement first_observation
              = Some (mkAction 0 (4, 4) (0, 0))) by reflexivity.
  split; [exact H|].
  exact (proj2 (proj2 (@evaluate_cutting_pattern_report first_observation
                         (mkAction 0 (4, 4) (0, 0)) new_metrics)) H).
Defined.

(** ** The state vector *)

Lemma py_slice_to_length {A} (l : list A) (n : Z) :
  0 <= n -> len (py_slice_to l n) <= n.
Proof.
  intros Hn. unfold py_slice_to, len.
  destruct (Z.ltb_spec n 0); [lia|].
  pose proof (firstn_le_length (Z.to_nat n) l). lia.
Qed.

Lemma pad_features_shape (target : Z) (features : list Q) :
  len features <= target -> (target - len features) mod 3 = 0 ->
  len (pad_features target features) = target
  /\ exists k, pad_features target features = features ++ repeat 0%Q k.
Proof.
  functional induction (pad_features target features) as [f E IH | f E];
    intros Hle Hmod.
  - apply Z.ltb_lt in E.
    assert (Hlen : len (f ++ [0%Q; 0%Q; 0%Q]) = len f + 3).
    { unfold len. rewrite length_app. cbn [length]. lia. }
    destruct IH as [Hfull [k Hk]]; [rewrite Hlen .. |].
    + assert (target - len f <> 1 /\ target - len f <> 2) by
        (split; intros H; rewrite H in Hmod; discriminate).
      lia.
    + replace (target - (len f + 3)) with (target - len f + (-1) * 3) by lia.
      rewrite Z.mod_add by lia. exact Hmod.
    + split; [exact Hfull|]. exists (3 + k)%nat. rewrite Hk, <- app_assoc.
      reflexivity.
  - apply Z.ltb_ge in E. split; [lia|]. exists 0%nat. cbn [repeat].
    now rewrite app_nil_r.
Qed.

Lemma stock_features_length (stocks : list Stock) :
  len (stock_features_of stocks) = 3 * len (py_slice_to stocks 100).
Proof.
  unfold stock_features_of. generalize (py_slice_to stocks 100) as l.
  assert (H : forall (l : list Stock) acc,
    len (fold_left (fun stock_features stock =>
        let '(stock_w, stock_h) := _get_stock_size_ stock in
        let used_space := used_cells stock in
        let total_space := stock_w * stock_h in
        stock_features
        ++ [inject_Z stock_w / 10; inject_Z stock_h / 10;
            inject_Z used_space / inject_Z total_space]%Q) l acc)
    = len acc + 3 * len l).
  { unfold len. induction l as [|stock l IH]; intros acc; cbn [fold_left].
    - cbn [length]. lia.
    - rewrite IH. unfold _get_stock_size_. rewrite length_app.
      cbn [length]. lia. }
  intros l. rewrite H. reflexivity.
Qed.

Lemma prod_features_length (max_products : Z) (products : list Product) :
  len (prod_features_of max_products products)
  = 3 * len (filter (fun prod => 0 <? quantity prod)
                    (py_slice_to products max_products)).
Proof.
  unfold prod_features_of.
  generalize (py_slice_to products max_products) as l.
  assert (H : forall (l : list Product) acc,
    len (fold_left (fun prod_features prod =>
        if 0 <? quantity prod then
          prod_features
          ++ [inject_Z (fst (size prod)) / 10;
              inject_Z (snd (size prod)) / 10;
              inject_Z (Z.min (quantity prod) 10) / 10]%Q
        else prod_features) l acc)
    = len acc + 3 * len (filter (fun prod => 0 <? quantity prod) l)).
  { unfold len. induction l as [|prod l IH]; intros acc;
      cbn [fold_left filter].
    - cbn [length]. lia.
    - rewrite IH. destruct (0 <? quantity prod); [|reflexivity].
      rewrite length_app. cbn [length]. lia. }
  intros l. rewrite H. reflexivity.
Qed.

Lemma len_filter_le {A} (keep : A -> bool) (l : list A) :
  len (filter keep l) <= len l.
Proof.
  unfold len. induction l as [|a l IH]; cbn [filter length]; [lia|].
  destruct (keep a); cbn [length]; lia.
Qed.

Lemma preprocess_observation_parts (max_products steps : Z)
  (observation : Observation) (info : Info) :
  0 <= max_products ->
  exists zeros_s zeros_p,
    preprocess_observation max_products steps observation info
    = (stock_features_of (stocks observation) ++ repeat 0%Q zeros_s)
      ++ (prod_features_of max_products (products observation)
          ++ repeat 0%Q zeros_p)
      ++ [match filled_ratio info with Some r => r | None => 0%Q end;
          (inject_Z steps / 1000)%Q]
    /\ len (stock_features_of (stocks observation) ++ repeat 0%Q zeros_s)
       = 300
    /\ len (prod_features_of max_products (products observation)
            ++ repeat 0%Q zeros_p) = max_products * 3.
Proof.
  intros Hmax. unfold preprocess_observation. cbv zeta.
  destruct (@pad_features_shape 300 (stock_features_of (stocks observation)))
    as [Hs [ks Hks]].
  { rewrite stock_features_length.
    pose proof (@py_slice_to_length _ (stocks observation) 100). lia. }
  { rewrite stock_features_length.
    replace (300 - 3 * len (py_slice_to (stocks observation) 100))
      with ((100 - len (py_slice_to (stocks observation) 100)) * 3) by lia.
    apply Z.mod_mul. lia. }
  destruct (@pad_features_shape (max_products * 3)
              (prod_features_of max_products (products observation)))
    as [Hp [kp Hkp]].
  { rewrite prod_features_length.
    pose proof (@py_slice_to_length _ (products observation) max_products
                                    Hmax).
    pose proof (len_filter_le (fun prod => 0 <? quantity prod)
                  (py_slice_to (products observation) max_products)). lia. }
  { rewrite prod_features_length.
    match goal with
    | |- (_ - 3 * ?n) mod 3 = 0 =>
        replace (max_products * 3 - 3 * n) with ((max_products - n) * 3)
          by lia
    end.
    apply Z.mod_mul. lia. }
  exists ks, kp. rewrite <- Hks, <- Hkp. repeat split; assumption.
Qed.

(** X22.  Whatever the observation holds, the state that
    [preprocess_observation] builds has exactly
    [100 * 3 + max_products * 3 + 2] entries, for [max_products >= 0]: the
    features of at most 100 stocks filled up with zeros to 300 entries, the
    features of the demanded products among the first [max_products] filled
    up with zeros to [max_products * 3] entries, then the filled ratio of
    [info] (0 when absent) and [steps / 1000].  Both padding loops end. *)
Theorem preprocess_observation_shape (max_products steps : Z)
  (observation : Observation) (info : Info) :
  0 <= max_products ->
  let state := preprocess_observation max_products steps observation info in
  len state = 100 * 3 + max_products * 3 + 2
  /\ exists zeros_s zeros_p,
       state
       = (stock_features_of (stocks observation) ++ repeat 0%Q zeros_s)
         ++ (prod_features_of max_products (products observation)
             ++ repeat 0%Q zeros_p)
         ++ [match filled_ratio info with Some r => r | None => 0%Q end;
             (inject_Z steps / 1000)%Q]
       /\ len (stock_features_of (stocks observation) ++ repeat 0%Q zeros_s)
          = 300
       /\ len (prod_features_of max_products (products observation)
               ++ repeat 0%Q zeros_p) = max_products * 3
       /\ len (stock_features_of (stocks observation))
          = 3 * Z.min (len (stocks observation)) 100.
Proof.
  intros Hmax state.
  destruct (@preprocess_observation_parts max_products steps observation info
              Hmax) as (ks & kp & Hstate & Hs & Hp).
  fold state in Hstate. split.
  - rewrite Hstate. unfold len in *. rewrite !length_app in *.
    cbn [length]. lia.
  - exists ks, kp. split; [exact Hstate|]. split; [exact Hs|].
    split; [exact Hp|]. rewrite stock_features_length.
    unfold py_slice_to, len. cbn [Z.ltb Z.compare].
    rewrite length_firstn. lia.
Qed.

Lemma preprocess_observation_shape_witness :
  0 <= 1
  /\ len (preprocess_observation 1 0 first_observation no_info)
     = 100 * 3 + 1 * 3 + 2.
Proof.
  assert (H : 0 <= 1) by lia. split; [exact H|].
  exact (proj1 (@preprocess_observation_shape 1 0 first_observation no_info
                  H)).
Defined.

Section StateVector.

Variables Params OptState : Type.
Variable new_actor : Z -> Z -> Params.
Variable new_critic : Z -> Params.
Variable new_optimizer : Params -> OptState.

(** X23.  Once [initialize_networks] has fixed the dimensions on a first
    observation, the state of every later observation, with however many
    stocks or products, has [state_dim] entries, as many as the two vectors
    of the normalizer. *)
Theorem state_fits_normalizer (self : Policy Params OptState)
  (first later : Observation) (info : Info) (steps_now : Z) :
  dims self = None ->
  let d :=
    fst (initialize_networks new_actor new_critic new_optimizer first self) in
  let self' :=
    snd (initialize_networks new_actor new_critic new_optimizer first self) in
  exists mdl,
    model self' = Some mdl
    /\ dims self' = Some d
    /\ max_products d = len (products first)
    /\ len (preprocess_observation (max_products d) steps_now later info)
       = state_dim d
    /\ len (state_mean mdl) = state_dim d
    /\ len (state_std mdl) = state_dim d.
Proof.
  intros Hdims d self'. subst d self'. unfold initialize_networks.
  rewrite Hdims. cbv zeta. cbn [fst snd model dims max_products state_dim].
  eexists. split; [reflexivity|]. split; [reflexivity|].
  split; [reflexivity|].
  assert (Hn : 0 <= len (products first)) by (unfold len; lia).
  split; [|split].
  - exact (proj1 (@preprocess_observation_shape (len (products first))
                    steps_now later info Hn)).
  - cbn [state_mean]. unfold len at 1. rewrite repeat_length. lia.
  - cbn [state_std]. unfold len at 1. rewrite repeat_length. lia.
Qed.

End StateVector.

Lemma state_fits_normalizer_witness :
  dims (@new_policy unit unit) = None
  /\ len (preprocess_observation 1 5 three_stocks no_info) = 305.
Proof.
  assert (H : dims (@new_policy unit unit) = None) by reflexivity.
  split; [exact H|].
  destruct (@state_fits_normalizer unit unit (fun _ _ => tt) (fun _ => tt)
              (fun _ => tt) (@new_policy unit unit) first_observation
              three_stocks
              no_info 5 H) as (mdl & _ & _ & _ & Hlen & _).
  exact Hlen.
Defined.

(** ** Saving and loading *)

Lemma string_length_append (a b : String.string) :
  String.length (a ++ b) = (String.length a + String.length b)%nat.
Proof.
  induction a as [|c a IH]; cbn [String.append String.length];
    [reflexivity | now rewrite IH].
Qed.

Lemma os_path_join_model_path (b : String.string) :
  os_path_join model_path b
  = if String.prefix "/" b then b else (model_path ++ b)%string.
Proof. reflexivity. Qed.

Lemma prefix_slash_append (f suffix : String.string) :
  f <> ""%string ->
  String.prefix "/" (f ++ suffix) = String.prefix "/" f.
Proof.
  destruct f as [|c f]; [congruence|]. intros _.
  cbn [String.append String.prefix].
  destruct (Ascii.ascii_dec _ c); [|reflexivity].
  destruct (f ++ suffix)%string; destruct f; reflexivity.
Qed.

(** Two names of different lengths are stored at different paths. *)
Lemma os_path_join_length (f : String.string) :
  String.length (os_path_join model_path (f ++ ".pt"))
  = (String.length (os_path_join model_path f) + 3)%nat.
Proof.
  rewrite !os_path_join_model_path.
  destruct f as [|c f]; [reflexivity|].
  rewrite prefix_slash_append by discriminate.
  destruct (String.prefix "/" (String c f));
    rewrite !string_length_append; cbn [String.length]; lia.
Qed.

Section SaveLoad.

Variables Params OptState : Type.
Variable load_state_dict : Params -> Params -> Params * bool.
Variable optimizer_load_state_dict : OptState -> OptState -> OptState * bool.
Variable missing : exn.

Local Abbreviation load files :=
  (load_model (torch_load_from missing files) load_state_dict
              optimizer_load_state_dict).

(** X24.  [save_model] on an initialised policy writes one file and leaves
    the others alone.  When the four [load_state_dict] calls accept the
    saved entries, [load_model] under the name the file was written to
    returns True and puts the saved networks, optimizers and normalizer in
    place.  But [save_model] appends [.pt] to a name without it and
    [load_model] does not: under such a name [load_model] looks at another
    path, and returns False, the policy as it was, unless a file of that
    very name exists. *)
Theorem save_then_load (filename : String.string)
  (saved later : Policy Params OptState) (files : Files Params OptState)
  (mdl current : Model Params OptState) :
  model saved = Some mdl -> model later = Some current ->
  load_state_dict (actor current) (actor mdl) = (actor mdl, true) ->
  load_state_dict (critic current) (critic mdl) = (critic mdl, true) ->
  optimizer_load_state_dict (actor_optimizer current) (actor_optimizer mdl)
  = (actor_optimizer mdl, true) ->
  optimizer_load_state_dict (critic_optimizer current) (critic_optimizer mdl)
  = (critic_optimizer mdl, true) ->
  let files' := snd (save_model filename saved files) in
  fst (save_model filename saved files) = Ok tt
  /\ (forall p, p <> os_path_join model_path (with_suffix filename) ->
                files' p = files p)
  /\ load files' (with_suffix filename) later = (true, set_model mdl later)
  /\ (endswith filename ".pt" = false ->
      files (os_path_join model_path filename) = None ->
      load files' filename later = (false, later)).
Proof.
  intros Hsaved Hlater Ha Hc Hao Hco files'. subst files'.
  unfold save_model. rewrite Hsaved. cbn [fst snd].
  split; [reflexivity|]. split; [|split].
  - intros p Hp. unfold torch_save.
    destruct (String.eqb_spec p (os_path_join model_path
                                   (with_suffix filename)));
      [contradiction | reflexivity].
  - unfold load_model, load_model_try, checked.
    unfold bind, lift, the_model, key, modify, ret, raise.
    unfold torch_load_from, torch_save. rewrite String.eqb_refl.
    rewrite Hlater.
    cbn [actor_state_dict critic_state_dict actor_optimizer_state_dict
         critic_optimizer_state_dict checkpoint_state_mean
         checkpoint_state_std].
    rewrite Ha.
    cbn [fst snd set_model model actor critic actor_optimizer
         critic_optimizer state_mean state_std].
    rewrite Hc.
    cbn [fst snd set_model model actor critic actor_optimizer
         critic_optimizer state_mean state_std].
    rewrite Hao.
    cbn [fst snd set_model model actor critic actor_optimizer
         critic_optimizer state_mean state_std].
    rewrite Hco.
    cbn [fst snd set_model model actor critic actor_optimizer
         critic_optimizer state_mean state_std dims training memory steps
         running_filled_ratio last_losses loss_computations draws].
    unfold set_model. now destruct mdl.
  - intros Hsuffix Hfree.
    unfold load_model, load_model_try.
    unfold bind at 1. unfold lift. unfold torch_load_from, torch_save.
    unfold with_suffix. rewrite Hsuffix. cbn [negb].
    destruct (String.eqb_spec (os_path_join model_path filename)
                (os_path_join model_path (filename ++ ".pt"))) as [E|E].
    + apply (f_equal String.length) in E.
      rewrite os_path_join_length in E. lia.
    + rewrite Hfree. reflexivity.
Qed.

End SaveLoad.

Lemma save_then_load_witness :
  load_model
    (torch_load_from ValueError
       (snd (save_model "best" small_policy (fun _ => None))))
    load_same_shape load_same_shape "best.pt" small_policy
  = (true, small_policy)
  /\ load_model
       (torch_load_from ValueError
          (snd (save_model "best" small_policy (fun _ => None))))
       load_same_shape load_same_shape "best" small_policy
     = (false, small_policy).
Proof.
  destruct (@save_then_load (list Z) (list Z) load_same_shape load_same_shape
              ValueError "best" small_policy small_policy (fun _ => None)
              (mkModel [1; 1] [2; 2] [] [] [0]%Q [1]%Q)
              (mkModel [1; 1] [2; 2] [] [] [0]%Q [1]%Q)
              eq_refl eq_refl eq_refl eq_refl eq_refl eq_refl)
    as (_ & _ & Hload & Hmiss).
  split; [exact Hload | exact (Hmiss eq_refl eq_refl)].
Defined.

(** ** The score of a placement pattern *)

Lemma In_skipn {A} (n : nat) (l : list A) (a : A) :
  In a (skipn n l) -> In a l.
Proof.
  revert l. induction n as [|n IH]; intros l H; [exact H|].
  destruct l as [|b l]; [exact H|]. right. apply IH. exact H.
Qed.

Lemma py_slice_In {A} (l : list A) (lo hi : Z) (a : A) :
  In a (py_slice l lo hi) -> In a l.
Proof.
  unfold py_slice. cbv zeta. intros H.
  apply In_firstn in H. exact (In_skipn _ _ _ H).
Qed.

Lemma all_empty_cells (stock : Stock) :
  all_empty stock = true ->
  forall row c, In row stock -> In c row -> c = EMPTY.
Proof.
  unfold all_empty. intros H row c Hrow Hc.
  rewrite forallb_forall in H. specialize (H row Hrow).
  rewrite forallb_forall in H. apply Z.eqb_eq. exact (H c Hc).
Qed.

Lemma all_empty_no_filled_position (stock : Stock) :
  all_empty stock = true -> filled_positions stock = [].
Proof.
  intros H. destruct (filled_positions stock) as [|[y x] l] eqn:E;
    [reflexivity|].
  assert (Hin : In (y, x) (filled_positions stock))
    by (rewrite E; now left).
  apply filled_positions_In in Hin. destruct Hin as (_ & _ & c & Hc & Hne).
  unfold cell_at in Hc.
  destruct (nth_error stock (Z.to_nat y)) as [row|] eqn:Er; [|discriminate].
  apply nth_error_In in Er, Hc.
  now rewrite (all_empty_cells stock H row c Er Hc) in Hne.
Qed.

Lemma all_empty_no_nearby_piece (stock : Stock)
  (pos_x pos_y size_w size_h : Z) :
  all_empty stock = true ->
  _count_nearby_small_pieces stock pos_x pos_y size_w size_h = 0.
Proof.
  intros H. unfold _count_nearby_small_pieces. cbv zeta.
  unfold unique_products.
  match goal with
  | |- context [filter ?keep (concat ?region)] =>
      assert (E : filter keep (concat region) = [])
  end.
  { match goal with |- ?cells = [] => destruct cells as [|c rest] eqn:El end;
      [reflexivity|].
    assert (Hin : In c (c :: rest)) by now left.
    rewrite <- El in Hin. apply filter_In in Hin. destruct Hin as [Hin Hc].
    apply in_concat in Hin. destruct Hin as (cells & Hcells & Hin).
    apply in_map_iff in Hcells. destruct Hcells as (row & <- & Hrow).
    apply py_slice_In in Hrow, Hin.
    rewrite (all_empty_cells stock H row c Hrow Hin) in Hc. discriminate. }
  rewrite E. reflexivity.
Qed.

Lemma utilization_bounds (stock : Stock) :
  rectangular stock -> 0 < stock_area stock ->
  (0 <= utilization stock <= 1)%Q.
Proof.
  intros Hrect Harea. pose proof (used_cells_bounds Hrect) as [H0 H1].
  unfold stock_area in *. cbn [_get_stock_size_ fst snd] in *.
  unfold utilization.
  assert (Hpos : (0 < inject_Z (shape1 stock * shape0 stock))%Q)
    by (change 0%Q with (inject_Z 0); rewrite <- Zlt_Qlt; exact Harea).
  split.
  - apply Qle_shift_div_l; [exact Hpos|]. rewrite Qmult_0_l.
    change 0%Q with (inject_Z 0). rewrite <- Zle_Qle. exact H0.
  - apply Qle_shift_div_r; [exact Hpos|]. rewrite Qmult_1_l.
    rewrite <- Zle_Qle. exact H1.
Qed.

(** X25.  The pattern score of a placement against its report from
    [evaluate_cutting_pattern].  For a piece of at least 20 cells the score
    is twice the edge contact, plus 3 on a corner, plus twice the stock's
    utilization; on a rectangular grid it lies between 0 and 9 and is at
    least 7 exactly on a corner.  For a smaller piece on a grid without
    occupied cells the score is 3 at the origin, 2 on the left or the upper
    side and 0 elsewhere: the right and the lower side earn nothing. *)
Theorem placement_pattern_score (observation : Observation) (a : Action)
  (m : CuttingStockMetrics) (stock : Stock) (r : PatternReport) :
  py_index (stocks observation) (stock_idx a) = Ok stock ->
  fst (evaluate_cutting_pattern observation (Some a) m) = Ok (Some r) ->
  let score :=
    evaluate_placement_pattern stock (fst (position a)) (snd (position a))
                               (fst (action_size a)) (snd (action_size a)) in
  (20 <= piece_area r ->
   (score == 2 * inject_Z (edge_contact r) + (if is_corner r then 3 else 0)
             + 2 * utilization stock)%Q
   /\ (rectangular stock -> 0 < stock_area stock ->
       (0 <= score <= 9)%Q /\ ((7 <= score)%Q <-> is_corner r = true)))
  /\ (piece_area r < 20 -> all_empty stock = true ->
      (score == if (fst (position a) =? 0) && (snd (position a) =? 0) then 3
                else if position_quality r then 2 else 0)%Q).
Proof.
  intros Hstock Hreport score. subst score.
  unfold evaluate_cutting_pattern in Hreport. rewrite Hstock in Hreport.
  unfold evaluate_placement_pattern. unfold _get_stock_size_ in *.
  destruct (position a) as [pos_x pos_y].
  destruct (action_size a) as [size_w size_h].
  cbn [fst snd] in *. injection Hreport as <-.
  cbn [piece_area edge_contact is_corner position_quality]. cbv zeta.
  fold (utilization stock).
  split.
  - intros Harea. destruct (Z.ltb_spec (size_w * size_h) 20) as [|_]; [lia|].
    assert (Hscore :
      (0 + (if (pos_x =? 0) || (pos_x + size_w =? shape1 stock)
            then 2 else 0)
       + (if (pos_y =? 0) || (pos_y + size_h =? shape0 stock) then 2 else 0)
       + (if ((pos_x =? 0) || (pos_x + size_w =? shape1 stock))
             && ((pos_y =? 0) || (pos_y + size_h =? shape0 stock))
          then 3 else 0)
       + utilization stock * 2
       == 2 * inject_Z
              ((if (pos_x =? 0) || (pos_x + size_w =? shape1 stock)
                then 1 else 0)
               + (if (pos_y =? 0) || (pos_y + size_h =? shape0 stock)
                  then 1 else 0))
          + (if ((pos_x =? 0) || (pos_x + size_w =? shape1 stock))
                && ((pos_y =? 0) || (pos_y + size_h =? shape0 stock))
             then 3 else 0)
          + 2 * utilization stock)%Q).
    { destruct ((pos_x =? 0) || (pos_x + size_w =? shape1 stock)),
               ((pos_y =? 0) || (pos_y + size_h =? shape0 stock));
        cbn [andb]; rewrite inject_Z_plus;
        change (inject_Z 1) with 1%Q; change (inject_Z 0) with 0%Q; lra. }
    split; [exact Hscore|].
    intros Hrect Hpos. pose proof (utilization_bounds Hrect Hpos) as Hu.
    destruct ((pos_x =? 0) || (pos_x + size_w =? shape1 stock)),
             ((pos_y =? 0) || (pos_y + size_h =? shape0 stock));
      cbn [andb]; (split; [lra|]); split; intros Hc;
      solve [reflexivity | lra | discriminate].
  - intros Harea Hempty.
    destruct (Z.ltb_spec (size_w * size_h) 20) as [_|]; [|lia].
    rewrite (all_empty_no_nearby_piece _ _ _ _ _ Hempty).
    unfold _get_distance_to_filled. cbv zeta.
    rewrite (all_empty_no_filled_position _ Hempty).
    cbn [len length Z.of_nat Z.eqb]. change (inject_Z 0) with 0%Q.
    destruct ((pos_x =? 0) && (pos_y =? 0)); [lra|].
    destruct ((pos_x =? 0) || (pos_y =? 0)); lra.
Qed.

Lemma placement_pattern_score_witness :
  (evaluate_placement_pattern (empty_stock 10 10) 6 6 4 4 == 0)%Q.
Proof.
  destruct (@placement_pattern_score first_observation
              (mkAction 0 (4, 4) (6, 6)) new_metrics (empty_stock 10 10)
              (mkReport 2 true 16 false) eq_refl eq_refl) as [_ H].
  exact (H ltac:(cbn; lia) eq_refl).
Defined.

(** ** Connected empty areas *)

Lemma mem_In (p : Z * Z) (l : list (Z * Z)) : mem p l = true <-> In p l.
Proof.
  unfold mem. rewrite existsb_exists. split.
  - intros ([x y] & Hin & H). destruct p as [px py]. cbn [fst snd] in H.
    apply andb_prop in H. destruct H as [Hx Hy].
    apply Z.eqb_eq in Hx, Hy. now subst.
  - intros Hin. exists p. split; [exact Hin|].
    now rewrite !Z.eqb_refl.
Qed.

Lemma free_in_all_cells (stock : Stock) (p : Z * Z) :
  free stock p -> In p (all_cells stock).
Proof.
  intros (Hx & Hy & _). destruct p as [x y]. cbn [fst snd] in *.
  unfold all_cells. apply in_prod; apply range_In; lia.
Qed.

Lemma all_cells_length (stock : Stock) :
  length (all_cells stock)
  = (Z.to_nat (shape1 stock) * Z.to_nat (shape0 stock))%nat.
Proof.
  unfold all_cells. rewrite length_prod, !range_length, !Z.sub_0_r.
  reflexivity.
Qed.

Lemma connected_free (stock : Stock) (start p : Z * Z) :
  connected stock start p -> free stock p.
Proof. now intros [H | p0 q _ _ H]. Qed.

(** What the loop over the directions leaves on the stack. *)
Lemma flood_push_all (stock : Stock) (visited : list (Z * Z)) (p : Z * Z)
  (ds : list (Z * Z)) :
  forall stack,
    (forall q,
       In q (fold_left (flood_push stock visited p) ds stack)
       <-> In q stack
           \/ (In q (map (fun d => (fst p + fst d, snd p + snd d)) ds)
               /\ free stock q /\ ~ In q visited))
    /\ (length (fold_left (flood_push stock visited p) ds stack)
        <= length stack + length ds)%nat.
Proof.
  induction ds as [|d ds IH]; intros stack; cbn [fold_left map length].
  - split; [|lia]. intros q. split; [now left|].
    now intros [H | [[] _]].
  - destruct (IH (flood_push stock visited p stack d)) as [Hin Hlen].
    assert (Hpush :
      (forall q, In q (flood_push stock visited p stack d)
                 <-> In q stack
                     \/ (q = (fst p + fst d, snd p + snd d)
                         /\ free stock q /\ ~ In q visited))
      /\ (length (flood_push stock visited p stack d)
          <= S (length stack))%nat).
    { unfold flood_push, free. destruct p as [x y], d as [dx dy].
      cbn [fst snd].
      destruct (mem (x + dx, y + dy) visited) eqn:Em.
      - rewrite andb_false_r. split; [|lia]. intros q.
        split; [now left|]. intros [H | (-> & _ & Hv)]; [exact H|].
        apply mem_In in Em. contradiction.
      - assert (Hv : ~ In (x + dx, y + dy) visited).
        { intros H. apply mem_In in H. congruence. }
        rewrite andb_true_r.
        destruct (Z.leb_spec 0 (x + dx)), (Z.ltb_spec (x + dx) (shape1 stock)),
                 (Z.leb_spec 0 (y + dy)), (Z.ltb_spec (y + dy) (shape0 stock)),
                 (Z.eqb_spec (cell stock (y + dy) (x + dx)) EMPTY);
          cbn [andb].
        all: split; [|cbn [length]; lia]; intros q; cbn [In fst snd].
        1: { split.
             - intros [<- | Hold]; [right | now left].
               cbn [fst snd]. repeat split; try assumption; lia.
             - intros [Hold | (-> & _)]; [now right | now left]. }
        all: split; [now left|]; intros [Hold | (-> & Hq & _)]; [exact Hold|];
          cbn [fst snd] in Hq; destruct Hq as (Hqx & Hqy & Hqc);
          solve [lia | contradiction]. }
    destruct Hpush as [Hpin Hplen]. split; [|lia].
    intros q. rewrite Hin, Hpin. cbn [In]. split.
    + intros [[H | (-> & Hf & Hv)] | (Hq & Hf & Hv)]; auto.
    + intros [H | ([<- | Hq] & Hf & Hv)]; auto.
Qed.

Lemma flood_loop_correct (stock : Stock) (start : Z * Z) (fuel : nat) :
  forall stack visited area,
    flood_invariant stock start stack visited area ->
    (length stack + 4 * (length (all_cells stock) - length visited) <= fuel)%nat
    ->
    exists component,
      flood_loop fuel stock stack visited area = Some (len component)
      /\ NoDup component
      /\ (forall p, In p component <-> connected stock start p).
Proof.
  assert (Hbound : forall visited,
            NoDup visited ->
            (forall p, In p visited -> connected stock start p) ->
            (length visited <= length (all_cells stock))%nat).
  { intros visited Hnd Hv. apply NoDup_incl_length; [exact Hnd|].
    intros p Hp. apply free_in_all_cells. eapply connected_free, Hv, Hp. }
  induction fuel as [|fuel IH]; intros stack visited area Hinv Hfuel.
  - destruct stack as [|p stack]; [|cbn [length] in Hfuel; lia].
    destruct Hinv as (_ & Hv & Hnd & -> & Hclosed & Hstart).
    exists visited. cbn [flood_loop]. split; [reflexivity|].
    split; [exact Hnd|]. intros p. split; [apply Hv|].
    intros Hp. induction Hp as [_ | p q _ IHp Hadj Hfree].
    + destruct Hstart as [H | []]. exact H.
    + destruct (Hclosed p q IHp Hadj Hfree) as [H | []]. exact H.
  - destruct stack as [|p stack].
    + destruct Hinv as (_ & Hv & Hnd & -> & Hclosed & Hstart).
      exists visited. cbn [flood_loop]. split; [reflexivity|].
      split; [exact Hnd|]. intros p. split; [apply Hv|].
      intros Hp. induction Hp as [_ | p q _ IHp Hadj Hfree].
      * destruct Hstart as [H | []]. exact H.
      * destruct (Hclosed p q IHp Hadj Hfree) as [H | []]. exact H.
    + cbn [flood_loop]. cbn [length] in Hfuel.
      destruct Hinv as (Hs & Hv & Hnd & Harea & Hclosed & Hstart).
      destruct (mem p visited) eqn:Em.
      * apply mem_In in Em. apply IH; [|lia].
        split; [intros q Hq; apply Hs; now right|].
        split; [exact Hv|]. split; [exact Hnd|]. split; [exact Harea|].
        split.
        -- intros p0 q Hp0 Hadj Hfree.
           destruct (Hclosed p0 q Hp0 Hadj Hfree) as [H | [<- | H]]; auto.
        -- destruct Hstart as [H | [<- | H]]; auto.
      * assert (Hnew : ~ In p visited).
        { intros H. apply mem_In in H. congruence. }
        cbv zeta.
        destruct (@flood_push_all stock (p :: visited) p directions stack)
          as [Hin Hlen].
        assert (Hnd' : NoDup (p :: visited)) by now constructor.
        assert (Hv' : forall q, In q (p :: visited) ->
                                connected stock start q).
        { intros q [<- | Hq]; [apply Hs; now left | now apply Hv]. }
        pose proof (Hbound _ Hnd' Hv') as Hsize. cbn [length] in Hsize.
        apply IH.
        -- split.
           { intros q Hq. apply Hin in Hq.
             destruct Hq as [Hq | (Hadj & Hfree & _)];
               [apply Hs; now right|].
             apply (connected_step (p := p)); [apply Hs; now left | |].
             - exact Hadj.
             - exact Hfree. }
           split; [exact Hv'|]. split; [exact Hnd'|].
           split; [unfold len in *; cbn [length]; lia|].
           split.
           { intros p0 q [<- | Hp0] Hadj Hfree.
             - destruct (in_dec (fun a b : Z * Z =>
                           ltac:(decide equality; apply Z.eq_dec))
                           q (p :: visited)) as [Hq | Hq]; [now left|].
               right. apply Hin. right.
               split; [exact Hadj|]. split; [exact Hfree | exact Hq].
             - destruct (Hclosed p0 q Hp0 Hadj Hfree) as [H | [<- | H]].
               + left. now right.
               + left. now left.
               + right. apply Hin. now left. }
           { destruct Hstart as [H | [<- | H]].
             - left. now right.
             - left. now left.
             - right. apply Hin. now left. }
        -- cbn [length] in *. change (length directions) with 4%nat in Hlen.
           lia.
Qed.

(** X26.  [_get_empty_area_size] is a flood fill that always ends (the loop
    never needs more than one iteration plus four per cell of the grid): it
    returns 0 when the start is outside the grid or occupied, and otherwise
    the number of empty cells joined to the start by a path of empty cells
    through left, right, upper and lower neighbours; that number is at
    least 1 and at most the number of cells of the grid. *)
Theorem empty_area_is_component (stock : Stock) (start_x start_y : Z) :
  (~ free stock (start_x, start_y) ->
   _get_empty_area_size stock start_x start_y = Some 0)
  /\ (free stock (start_x, start_y) ->
      exists component,
        _get_empty_area_size stock start_x start_y = Some (len component)
        /\ NoDup component
        /\ (forall p, In p component
                      <-> connected stock (start_x, start_y) p)
        /\ 1 <= len component <= shape1 stock * shape0 stock).
Proof.
  unfold _get_empty_area_size, free. cbn [fst snd]. split.
  - intros Hnot.
    destruct (Z.ltb_spec start_x 0), (Z.ltb_spec start_y 0),
             (Z.leb_spec (shape1 stock) start_x),
             (Z.leb_spec (shape0 stock) start_y); cbn [orb];
      try reflexivity.
    destruct (Z.eqb_spec (cell stock start_y start_x) EMPTY) as [E|E];
      [|reflexivity].
    exfalso. apply Hnot. repeat split; try assumption; lia.
  - intros (Hx & Hy & Hcell).
    destruct (Z.ltb_spec start_x 0); [lia|].
    destruct (Z.ltb_spec start_y 0); [lia|].
    destruct (Z.leb_spec (shape1 stock) start_x); [lia|].
    destruct (Z.leb_spec (shape0 stock) start_y); [lia|].
    cbn [orb]. rewrite Hcell, Z.eqb_refl. cbn [negb].
    assert (Hfree : free stock (start_x, start_y))
      by (unfold free; cbn [fst snd]; repeat split; try assumption; lia).
    destruct (@flood_loop_correct stock (start_x, start_y) (flood_fuel stock)
                [(start_x, start_y)] [] 0)
      as (component & Hrun & Hnd & Hcomp).
    + split; [intros p [<- | []]; now constructor|].
      split; [intros p []|]. split; [constructor|]. split; [reflexivity|].
      split; [intros p q []|]. right. now left.
    + unfold flood_fuel. rewrite all_cells_length. cbn [length]. lia.
    + exists component. split; [exact Hrun|]. split; [exact Hnd|].
      split; [exact Hcomp|].
      assert (Hin : In (start_x, start_y) component)
        by (apply Hcomp; now constructor).
      assert (Hle : (length component <= length (all_cells stock))%nat).
      { apply NoDup_incl_length; [exact Hnd|]. intros p Hp.
        apply free_in_all_cells. eapply connected_free. apply Hcomp, Hp. }
      rewrite all_cells_length in Hle. unfold len.
      destruct component as [|c component]; [contradiction|].
      cbn [length] in *. split; [lia|].
      replace (shape1 stock * shape0 stock)
        with (Z.of_nat (Z.to_nat (shape1 stock) * Z.to_nat (shape0 stock)))
        by (rewrite Nat2Z.inj_mul; lia).
      lia.
Qed.

(** ** Penalties for small and isolated areas *)

Lemma empty_area_returns (stock : Stock) (start_x start_y : Z) :
  exists area, _get_empty_area_size stock start_x start_y = Some area
               /\ 0 <= area.
Proof.
  unfold _get_empty_area_size.
  destruct (_ || _) eqn:Eout; [exists 0; split; [reflexivity | lia]|].
  destruct (negb _) eqn:Ecell; [exists 0; split; [reflexivity | lia]|].
  apply negb_false_iff, Z.eqb_eq in Ecell.
  apply orb_false_iff in Eout. destruct Eout as [Eout Hy1].
  apply orb_false_iff in Eout. destruct Eout as [Eout Hx1].
  apply orb_false_iff in Eout. destruct Eout as [Hx0 Hy0].
  apply Z.ltb_ge in Hx0, Hy0. apply Z.leb_gt in Hx1, Hy1.
  destruct (@flood_loop_correct stock (start_x, start_y) (flood_fuel stock)
              [(start_x, start_y)] [] 0)
    as (component & Hrun & _).
  - assert (Hfree : free stock (start_x, start_y))
      by (unfold free; cbn [fst snd]; repeat split; try assumption; lia).
    split; [intros p [<- | []]; now constructor|].
    split; [intros p []|]. split; [constructor|]. split; [reflexivity|].
    split; [intros p q []|]. right. now left.
  - unfold flood_fuel. rewrite all_cells_length. cbn [length]. lia.
  - exists (len component). split; [exact Hrun | unfold len; lia].
Qed.

(** A loop that adds terms of 0 or 1 returns, with at most one per round. *)
Lemma add_penalty_loop {A} (term : A -> option Z) (l : list A) :
  (forall a, In a l -> exists n, term a = Some n /\ 0 <= n <= 1) ->
  forall p0, exists p,
    fold_left (fun penalty a => add_penalty penalty (term a)) l (Some p0)
    = Some p
    /\ p0 <= p <= p0 + len l.
Proof.
  unfold len. induction l as [|a l IH]; intros Hterm p0; cbn [fold_left].
  - exists p0. split; [reflexivity | cbn [length]; lia].
  - destruct (Hterm a (or_introl eq_refl)) as (n & -> & Hn).
    cbn [add_penalty].
    destruct (IH (fun b Hb => Hterm b (or_intror Hb)) (p0 + n))
      as (p & -> & Hp).
    exists p. split; [reflexivity | cbn [length]; lia].
Qed.

Lemma small_gap_at_returns (stock : Stock) (pos_x pos_y dx dy : Z) :
  exists n, small_gap_at stock pos_x pos_y dx dy = Some n /\ 0 <= n <= 1.
Proof.
  unfold small_gap_at. cbv zeta.
  destruct (_ && _); [|exists 0; split; [reflexivity | lia]].
  destruct (_ =? EMPTY); [|exists 0; split; [reflexivity | lia]].
  destruct (empty_area_returns stock (pos_x + dx) (pos_y + dy))
    as (area & -> & _).
  destruct (_ && _); eexists; (split; [reflexivity | lia]).
Qed.

Lemma isolation_at_returns (stock : Stock) (pos_x pos_y prod_w prod_h : Z)
  (d : Z * Z) :
  exists n, isolation_at stock pos_x pos_y prod_w prod_h d = Some n
            /\ 0 <= n <= 1 /\ (prod_w * prod_h <= 1 -> n = 0).
Proof.
  unfold isolation_at, _get_stock_size_. destruct d as [dx dy]. cbv zeta.
  destruct (_ && _); [|exists 0; split; [reflexivity | lia]].
  destruct (empty_area_returns stock (pos_x + dx * prod_w)
                               (pos_y + dy * prod_h))
    as (area & -> & _).
  destruct (Z.ltb_spec 0 area), (Z.ltb_spec area (prod_w * prod_h));
    cbn [andb]; eexists; (split; [reflexivity | lia]).
Qed.

(** X27.  The two penalties that run the flood fill always return, since
    every flood fill ends.  The isolation penalty is between 0 and 4, and 0
    for a piece of at most one cell; the small-gap penalty is between 0 and
    the number of offsets of its window, two cells around the piece. *)
Theorem penalties_return (stock : Stock) (pos_x pos_y prod_w prod_h : Z) :
  (exists penalty,
     _calculate_isolation_penalty stock pos_x pos_y prod_w prod_h
     = Some penalty
     /\ 0 <= penalty <= 4
     /\ (prod_w * prod_h <= 1 -> penalty = 0))
  /\ (exists penalty,
        _calculate_small_gap_penalty stock pos_x pos_y prod_w prod_h
        = Some penalty
        /\ 0 <= penalty <= Z.max 0 (prod_w + 4) * Z.max 0 (prod_h + 4)).
Proof.
  split.
  - unfold _calculate_isolation_penalty.
    destruct (@add_penalty_loop _
                (isolation_at stock pos_x pos_y prod_w prod_h) directions)
      with (p0 := 0) as (p & Hp & Hbound).
    { intros d _. destruct (isolation_at_returns stock pos_x pos_y prod_w
                              prod_h d) as (n & Hn & H01 & _).
      now exists n. }
    exists p. split; [exact Hp|]. change (len directions) with 4 in Hbound.
    split; [lia|]. intros Hsmall.
    revert Hp. unfold directions. cbn [fold_left].
    destruct (isolation_at_returns stock pos_x pos_y prod_w prod_h (-1, 0))
      as (n1 & -> & _ & H1).
    destruct (isolation_at_returns stock pos_x pos_y prod_w prod_h (1, 0))
      as (n2 & -> & _ & H2).
    destruct (isolation_at_returns stock pos_x pos_y prod_w prod_h (0, -1))
      as (n3 & -> & _ & H3).
    destruct (isolation_at_returns stock pos_x pos_y prod_w prod_h (0, 1))
      as (n4 & -> & _ & H4).
    cbn [add_penalty]. intros [= <-].
    rewrite (H1 Hsmall), (H2 Hsmall), (H3 Hsmall), (H4 Hsmall). reflexivity.
  - unfold _calculate_small_gap_penalty. cbv zeta.
    assert (Hrows : forall xs ys p0, exists p,
      fold_left (fun penalty dx =>
          fold_left (fun penalty dy =>
              add_penalty penalty (small_gap_at stock pos_x pos_y dx dy))
            ys penalty) xs (Some p0) = Some p
      /\ p0 <= p <= p0 + len xs * len ys).
    { unfold len. induction xs as [|dx xs IH]; intros ys p0;
        cbn [fold_left].
      - exists p0. split; [reflexivity | cbn [length]; lia].
      - destruct (@add_penalty_loop _ (small_gap_at stock pos_x pos_y dx) ys)
          with (p0 := p0) as (p1 & -> & Hp1).
        { intros dy _. apply small_gap_at_returns. }
        destruct (IH ys p1) as (p & -> & Hp). exists p.
        split; [reflexivity|]. unfold len in *. cbn [length]. nia. }
    destruct (Hrows (range (- (2)) (prod_w + 2)) (range (- (2)) (prod_h + 2))
                    0) as (p & Hp & Hbound).
    exists p. split; [exact Hp|]. unfold len in Hbound.
    rewrite !range_length in Hbound. split; [lia|].
    replace (Z.max 0 (prod_w + 4))
      with (Z.of_nat (Z.to_nat (prod_w + 2 - - (2)))) by lia.
    replace (Z.max 0 (prod_h + 4))
      with (Z.of_nat (Z.to_nat (prod_h + 2 - - (2)))) by lia.
    lia.
Qed.

(** ** Empty cells above a placement *)

(** A loop that reads one cell per round and counts some of them. *)
Lemma counting_loop {A} (read : A -> result Z) (keep : Z -> bool)
  (l : list A) :
  forall n,
    (forall e, for_result (fun a n =>
                   (c <- read a ;; Ok (if keep c then n + 1 else n))%res)
                 l n = Raise e ->
               exists a, In a l /\ read a = Raise e)
    /\ (forall n', for_result (fun a n =>
                       (c <- read a ;; Ok (if keep c then n + 1 else n))%res)
                     l n = Ok n' ->
                   n <= n' <= n + len l)
    /\ ((forall a, In a l -> exists c, read a = Ok c) ->
        exists n', for_result (fun a n =>
                       (c <- read a ;; Ok (if keep c then n + 1 else n))%res)
                     l n = Ok n').
Proof.
  unfold len. induction l as [|a l IH]; intros n; cbn [for_result].
  - split; [discriminate|]. split; [|now eexists].
    intros n' [= <-]. cbn [length]. lia.
  - destruct (read a) as [c|e0] eqn:E; cbn [rbind].
    + destruct (IH (if keep c then n + 1 else n)) as (Hraise & Hok & Hret).
      split; [|split].
      * intros e He. destruct (Hraise e He) as (b & Hb & Hr).
        exists b. split; [now right | exact Hr].
      * intros n' Hn'. apply Hok in Hn'. cbn [length].
        destruct (keep c); lia.
      * intros Hall. apply Hret. intros b Hb. apply Hall. now right.
    + split; [|split].
      * intros e [= <-]. exists a. split; [now left | exact E].
      * discriminate.
      * intros Hall. destruct (Hall a (or_introl eq_refl)) as [c Hc].
        congruence.
Qed.

(** X28.  [_count_gaps_above] raises nothing but [IndexError].  For a
    column range within the grid and a placement row not below it, it
    returns a count between 0 and the number of cells above the placement;
    for a placement in the top row (or above) it returns 0 without reading
    any cell. *)
Theorem count_gaps_above_bounds (stock : Stock) (pos_x pos_y width : Z) :
  (forall e, _count_gaps_above stock pos_x pos_y width = Raise e ->
             e = IndexError)
  /\ (0 <= pos_x -> pos_x + width <= shape1 stock -> pos_y <= shape0 stock ->
      exists gaps,
        _count_gaps_above stock pos_x pos_y width = Ok gaps
        /\ 0 <= gaps <= Z.max 0 width * Z.max 0 pos_y)
  /\ (pos_y <= 0 -> _count_gaps_above stock pos_x pos_y width = Ok 0).
Proof.
  unfold _count_gaps_above.
  assert (Hraise : forall xs gaps e,
    for_result (fun x gaps =>
        for_result (fun y gaps =>
            (c <- np_get stock y x ;;
             Ok (if c =? EMPTY then gaps + 1 else gaps))%res)
          (range 0 pos_y) gaps) xs gaps = Raise e ->
    e = IndexError).
  { induction xs as [|x xs IH]; intros gaps e; cbn [for_result];
      [discriminate|].
    destruct (for_result _ (range 0 pos_y) gaps) as [g|e0] eqn:E;
      cbn [rbind]; [apply IH|].
    intros [= <-].
    destruct (@counting_loop _ (fun y => np_get stock y x)
                (fun c => c =? EMPTY) (range 0 pos_y) gaps) as (Hr & _).
    destruct (Hr e0 E) as (y & _ & Hy). exact (np_get_raises _ _ _ Hy). }
  assert (Hreturn : 0 <= pos_x -> pos_y <= shape0 stock ->
    forall xs gaps,
      (forall x, In x xs -> 0 <= x < shape1 stock) ->
      exists gaps',
        for_result (fun x gaps =>
            for_result (fun y gaps =>
                (c <- np_get stock y x ;;
                 Ok (if c =? EMPTY then gaps + 1 else gaps))%res)
              (range 0 pos_y) gaps) xs gaps = Ok gaps'
        /\ gaps <= gaps' <= gaps + len xs * len (range 0 pos_y)).
  { intros Hx Hy. unfold len.
    induction xs as [|x xs IH]; intros gaps Hxs; cbn [for_result].
    - exists gaps. split; [reflexivity | cbn [length]; lia].
    - destruct (@counting_loop _ (fun y => np_get stock y x)
                  (fun c => c =? EMPTY) (range 0 pos_y) gaps)
        as (_ & Hok & Hret).
      destruct Hret as [g Hg].
      { intros y Hin. apply range_In in Hin. eexists.
        apply np_get_returns; [lia|]. apply Hxs. now left. }
      rewrite Hg. cbn [rbind]. apply Hok in Hg.
      destruct (IH g (fun x' Hx' => Hxs x' (or_intror Hx')))
        as (g' & -> & Hg').
      exists g'. split; [reflexivity|]. unfold len in *. cbn [length]. nia. }
  split; [exact (Hraise _ 0)|]. split.
  - intros Hx Hxw Hy.
    destruct (Hreturn Hx Hy (range pos_x (pos_x + width)) 0)
      as (gaps & Hrun & Hbound).
    { intros x Hin. apply range_In in Hin. lia. }
    exists gaps. split; [exact Hrun|]. unfold len in Hbound.
    rewrite !range_length in Hbound. split; [lia|].
    replace (Z.max 0 width)
      with (Z.of_nat (Z.to_nat (pos_x + width - pos_x))) by lia.
    replace (Z.max 0 pos_y) with (Z.of_nat (Z.to_nat (pos_y - 0))) by lia.
    lia.
  - intros Hy.
    assert (E : range 0 pos_y = []).
    { unfold range. now replace (Z.to_nat (pos_y - 0)) with 0%nat by lia. }
    rewrite E.
    generalize (range pos_x (pos_x + width)). intros xs.
    induction xs as [|x xs IH]; cbn [for_result rbind]; [reflexivity|].
    exact IH.
Qed.

Lemma count_gaps_above_bounds_witness :
  0 <= 1 /\ 1 + 2 <= shape1 left_neighbour_stock
  /\ 3 <= shape0 left_neighbour_stock
  /\ exists gaps,
       _count_gaps_above left_neighbour_stock 1 3 2 = Ok gaps
       /\ 0 <= gaps <= Z.max 0 2 * Z.max 0 3.
Proof.
  assert (H1 : 0 <= 1) by lia.
  assert (H2 : 1 + 2 <= shape1 left_neighbour_stock) by (cbn; lia).
  assert (H3 : 3 <= shape0 left_neighbour_stock) by (cbn; lia).
  split; [exact H1|]. split; [exact H2|]. split; [exact H3|].
  exact (proj1 (proj2 (@count_gaps_above_bounds left_neighbour_stock 1 3 2))
               H1 H2 H3).
Defined.

(** ** Scores of a stock *)

(** X29.  For a piece lying within a grid with cells,
    [calculate_space_utilization] is 2 plus the piece's share of the grid
    minus twice the share of the strip left of the piece and of the cells
    under its columns above it; so it is between 0 and 3, at most 2 plus
    the piece's share, and exactly that at the origin. *)
Theorem space_utilization_formula (stock : Stock)
  (pos_x pos_y size_w size_h : Z) :
  0 < shape1 stock -> 0 < shape0 stock ->
  0 <= pos_x -> 0 <= pos_y -> 0 <= size_w -> 0 <= size_h ->
  pos_x + size_w <= shape1 stock -> pos_y + size_h <= shape0 stock ->
  let score :=
    calculate_space_utilization stock pos_x pos_y size_w size_h in
  let share n := (inject_Z n / inject_Z (shape1 stock * shape0 stock))%Q in
  (score == 2 + share (size_w * size_h)%Z
            - 2 * share (pos_x * shape0 stock + size_w * pos_y)%Z)%Q
  /\ (0 <= score <= 3)%Q
  /\ (score <= 2 + share (size_w * size_h)%Z)%Q
  /\ (pos_x = 0 -> pos_y = 0 -> (score == 2 + share (size_w * size_h)%Z)%Q).
Proof.
  intros HW HH Hx Hy Hw Hh Hxw Hyh score share.
  set (A := shape1 stock * shape0 stock).
  assert (HA : 0 < A) by (unfold A; nia).
  assert (HAq : ~ (inject_Z A == 0)%Q).
  { intros H0. unfold Qeq in H0. cbn in H0. lia. }
  assert (HAp : (0 < inject_Z A)%Q)
    by (change 0%Q with (inject_Z 0); rewrite <- Zlt_Qlt; exact HA).
  assert (Hscore :
    (score == inject_Z (2 * A + size_w * size_h
                        - 2 * (pos_x * shape0 stock + size_w * pos_y))
              / inject_Z A)%Q).
  { subst score. unfold calculate_space_utilization, _get_stock_size_.
    cbv zeta. fold A.
    assert (Hrem :
      fold_right Z.add 0
        ((if pos_y + size_h <? shape0 stock
          then (if pos_x + size_w <? shape1 stock
                then [] ++ [(shape1 stock - (pos_x + size_w)) * shape0 stock]
                else [])
               ++ [size_w * (shape0 stock - (pos_y + size_h))]
          else (if pos_x + size_w <? shape1 stock
                then [] ++ [(shape1 stock - (pos_x + size_w)) * shape0 stock]
                else []))
         : list Z)
      = (shape1 stock - (pos_x + size_w)) * shape0 stock
        + size_w * (shape0 stock - (pos_y + size_h))).
    { destruct (Z.ltb_spec (pos_y + size_h) (shape0 stock)),
               (Z.ltb_spec (pos_x + size_w) (shape1 stock));
        cbn [app fold_right]; nia. }
    rewrite Hrem.
    replace (2 * A + size_w * size_h
             - 2 * (pos_x * shape0 stock + size_w * pos_y))
      with (size_w * size_h * 3
            + ((shape1 stock - (pos_x + size_w)) * shape0 stock
               + size_w * (shape0 stock - (pos_y + size_h))) * 2)
      by (unfold A; ring).
    unfold Z.sub.
    repeat (rewrite inject_Z_plus || rewrite inject_Z_mult
            || rewrite inject_Z_opp).
    change (inject_Z 3) with 3%Q. change (inject_Z 2) with 2%Q.
    field. exact HAq. }
  assert (Hformula :
    (score == 2 + share (size_w * size_h)%Z
              - 2 * share (pos_x * shape0 stock + size_w * pos_y)%Z)%Q).
  { rewrite Hscore. subst share. cbv beta. fold A.
    unfold Z.sub.
    repeat (rewrite inject_Z_plus || rewrite inject_Z_mult
            || rewrite inject_Z_opp).
    change (inject_Z 2) with 2%Q. field. exact HAq. }
  assert (Hpiece : (0 <= share (size_w * size_h)%Z <= 1)%Q).
  { subst share. cbv beta. fold A. split.
    - apply Qle_shift_div_l; [exact HAp|]. rewrite Qmult_0_l.
      change 0%Q with (inject_Z 0). rewrite <- Zle_Qle. nia.
    - apply Qle_shift_div_r; [exact HAp|]. rewrite Qmult_1_l.
      rewrite <- Zle_Qle. unfold A. nia. }
  assert (Hlost :
    (0 <= share (pos_x * shape0 stock + size_w * pos_y)%Z)%Q).
  { subst share. cbv beta. fold A.
    apply Qle_shift_div_l; [exact HAp|]. rewrite Qmult_0_l.
    change 0%Q with (inject_Z 0). rewrite <- Zle_Qle. nia. }
  assert (Hnonneg : (0 <= score)%Q).
  { rewrite Hscore. apply Qle_shift_div_l; [exact HAp|]. rewrite Qmult_0_l.
    change 0%Q with (inject_Z 0). rewrite <- Zle_Qle. unfold A. nia. }
  split; [exact Hformula|]. split; [split; [exact Hnonneg | lra]|].
  split; [lra|].
  intros -> ->. rewrite Hformula. subst share. cbv beta.
  rewrite Z.mul_0_l, Z.mul_0_r. cbn [Z.add].
  change (inject_Z 0) with 0%Q. unfold Qdiv. rewrite Qmult_0_l. lra.
Qed.

Lemma space_utilization_formula_witness :
  (calculate_space_utilization (empty_stock 10 10) 0 0 4 4
   == 2 + inject_Z (4 * 4) / inject_Z (10 * 10))%Q.
Proof.
  exact (proj2 (proj2 (proj2
           (@space_utilization_formula (empty_stock 10 10) 0 0 4 4
              ltac:(cbn; lia) ltac:(cbn; lia) ltac:(lia) ltac:(lia)
              ltac:(lia) ltac:(lia) ltac:(cbn; lia) ltac:(cbn; lia))))
         eq_refl eq_refl).
Defined.

(** X30.  [calculate_stock_penalty] is -0.2 for every stock with a cell
    greater than 0, so it lies between -0.2 times the number of stocks and
    0, and it is 0 exactly when no stock has such a cell: a stock whose
    occupied cells all hold the identifier 0 is not counted, although
    [calculate_filled_ratio] treats it as used. *)
Theorem stock_penalty_counts_positive_cells (observation : Observation) :
  (- (2 # 10) * inject_Z (len (stocks observation))
   <= calculate_stock_penalty observation <= 0)%Q
  /\ ((calculate_stock_penalty observation == 0)%Q
      <-> forall stock, In stock (stocks observation) ->
                        any_positive stock = false)
  /\ ((forall stock row c, In stock (stocks observation) -> In row stock ->
                           In c row -> c = EMPTY \/ c = 0) ->
      (calculate_stock_penalty observation == 0)%Q).
Proof.
  unfold calculate_stock_penalty. cbv zeta.
  set (used := filter any_positive (stocks observation)).
  assert (Hlen : 0 <= len used <= len (stocks observation)).
  { unfold len. split; [lia|]. apply inj_le. apply List.filter_length_le. }
  assert (Hq0 : (0 <= inject_Z (len used))%Q)
    by (change 0%Q with (inject_Z 0); rewrite <- Zle_Qle; lia).
  assert (Hq1 : (inject_Z (len used)
                 <= inject_Z (len (stocks observation)))%Q)
    by (rewrite <- Zle_Qle; lia).
  assert (Hzero : (- (2 # 10) * inject_Z (len used) == 0)%Q
                  <-> forall stock, In stock (stocks observation) ->
                                    any_positive stock = false).
  { split.
    - intros H0 stock Hin.
      destruct (any_positive stock) eqn:E; [|reflexivity].
      assert (Hused : In stock used) by (apply filter_In; now split).
      assert (Hpos : 1 <= len used).
      { unfold len. destruct used; [contradiction | cbn [length]; lia]. }
      rewrite Zle_Qle in Hpos. change (inject_Z 1) with 1%Q in Hpos. lra.
    - intros Hnone.
      assert (E : used = []).
      { subst used. destruct (filter _ _) as [|stock l] eqn:E;
          [reflexivity|].
        assert (Hin : In stock (stock :: l)) by now left.
        rewrite <- E in Hin. apply filter_In in Hin.
        destruct Hin as [Hin Hp]. rewrite (Hnone stock Hin) in Hp.
        discriminate. }
      rewrite E. cbn [len length Z.of_nat]. change (inject_Z 0) with 0%Q.
      lra. }
  split; [split; lra|]. split; [exact Hzero|].
  intros Hcells. apply Hzero. intros stock Hin. unfold any_positive.
  destruct (existsb _ stock) eqn:E; [|reflexivity].
  apply existsb_exists in E. destruct E as (row & Hrow & E).
  apply existsb_exists in E. destruct E as (c & Hc & E).
  apply Z.ltb_lt in E.
  destruct (Hcells stock row c Hin Hrow Hc) as [-> | ->];
    [unfold EMPTY in E; lia | lia].
Qed.
